(** * Tab Organizer: the snapshot / restore / undo subsystem

    A shallow embedding of the session manager of the Tab Organizer browser
    extension (utils/sessionManager.js, the popup script and the background
    service worker) together with the properties its specification states.

    The JavaScript is asynchronous code over the chrome.* extension API.
    It is embedded as programs of a free monad over the API calls it
    issues: chrome.storage.local is given a concrete key/value semantics,
    every other call is answered by an arbitrary browser, so that a theorem
    holds for every behaviour of the environment, including rejected
    promises.  A run of a program yields its completion, the final world
    and the ordered list of API calls it issued. *)

From Stdlib Require Import ZArith List String Ascii Bool Lia Arith.
From Stdlib Require Import DecimalString Permutation Sorted.
Import ListNotations.
Open Scope string_scope.
Open Scope Z_scope.

Set Implicit Arguments.
Set Warnings "-register-all".

(** ** JavaScript strings and values

    A string is a sequence of code units; [String.length] is the [length]
    property as long as every code unit is below 256. *)

(** [s.startsWith(p)] *)
Definition startsWith (s p : string) : bool := String.prefix p s.

(** [s.includes(sub)] *)
Fixpoint includes (s sub : string) : bool :=
  String.prefix sub s ||
  match s with
  | EmptyString => false
  | String _ rest => includes rest sub
  end.

(** Truthiness of a string: the empty string is falsy. *)
Definition truthy (s : string) : bool :=
  match s with EmptyString => false | _ => true end.

(** Truthiness of a possibly undefined string. *)
Definition truthyOpt (o : option string) : bool :=
  match o with Some s => truthy s | None => false end.

(** [o || dflt] for a possibly undefined string. *)
Definition orElse (o : option string) (dflt : string) : string :=
  match o with
  | Some s => if truthy s then s else dflt
  | None => dflt
  end.

(** [n.toString()] for an integer in the range where JavaScript prints
    plain decimal digits. *)
Definition toString (n : Z) : string := NilZero.string_of_int (Z.to_int n).

(** ** JSON.stringify

    The serializer, for the values a session is made of.  A string is
    quoted with the escapes of the ECMAScript QuoteJSONString operation. *)
Module JSON.

Inductive value : Type :=
| Null
| Bool (b : bool)
| Num (n : Z)
| Str (s : string)
| Arr (items : list value)
| Obj (fields : list (string * value)).

(** The one-character string holding the double quote, code unit 34. *)
Definition dquote : string := String (ascii_of_nat 34) EmptyString.

(** The one-character string holding the backslash, code unit 92. *)
Definition bslash : string := String (ascii_of_nat 92) EmptyString.

Definition hexDigit (n : nat) : ascii :=
  nth n (list_ascii_of_string "0123456789abcdef") "0"%char.

Definition quoteChar (c : ascii) : string :=
  let n := nat_of_ascii c in
  if Nat.eqb n 34 then bslash ++ dquote
  else if Nat.eqb n 92 then bslash ++ bslash
  else if Nat.eqb n 8 then bslash ++ "b"
  else if Nat.eqb n 9 then bslash ++ "t"
  else if Nat.eqb n 10 then bslash ++ "n"
  else if Nat.eqb n 12 then bslash ++ "f"
  else if Nat.eqb n 13 then bslash ++ "r"
  else if Nat.ltb n 32 then
    bslash ++ "u00" ++ String (hexDigit (Nat.div n 16)) (String (hexDigit (Nat.modulo n 16)) EmptyString)
  else String c EmptyString.

Fixpoint quoteBody (s : string) : string :=
  match s with
  | EmptyString => EmptyString
  | String c rest => quoteChar c ++ quoteBody rest
  end.

Definition quote (s : string) : string := dquote ++ quoteBody s ++ dquote.

Fixpoint joinComma (parts : list string) : string :=
  match parts with
  | [] => EmptyString
  | [p] => p
  | p :: rest => p ++ "," ++ joinComma rest
  end.

Fixpoint stringify (v : value) : string :=
  match v with
  | Null => "null"
  | Bool true => "true"
  | Bool false => "false"
  | Num n => toString n
  | Str s => quote s
  | Arr items => "[" ++ joinComma (map stringify items) ++ "]"
  | Obj fields =>
      "{" ++ joinComma (map (fun kv => quote (fst kv) ++ ":" ++ stringify (snd kv)) fields) ++ "}"
  end.

End JSON.

(** ** The live environment

    What chrome.windows, chrome.tabs and chrome.tabGroups hand out.  A field
    the browser may leave undefined is an [option]. *)

(** [chrome.tabs.TAB_ID_NONE], also the group id of an ungrouped tab. *)
Definition TAB_ID_NONE : Z := -1.

Module LiveTab.
Record t : Type := {
  id : Z;
  url : option string;
  pendingUrl : option string;
  title : option string;
  pinned : bool;
  active : bool;
  groupId : Z;
  index : Z
}.
End LiveTab.

Module LiveWindow.
Record t : Type := {
  id : Z;
  tabs : option (list LiveTab.t)
}.
End LiveWindow.

Module LiveGroup.
Record t : Type := {
  id : Z;
  title : option string;
  color : string;
  collapsed : bool
}.
End LiveGroup.

(** ** The snapshot model

    The objects [saveCurrentSession] builds and [restoreSession] reads back
    from storage.  [windows], [groups] and [tabs] are optional because a
    stored session may come from an imported file, and [validateSession]
    tests for them. *)

Module TabData.
Record t : Type := {
  url : string;
  title : string;
  pinned : bool;
  active : bool;
  originalGroupId : option Z
}.
End TabData.

Module WindowData.
Record t : Type := {
  id : Z;
  tabs : option (list TabData.t)
}.
End WindowData.

Module GroupData.
Record t : Type := {
  originalId : Z;
  title : string;
  color : string;
  collapsed : bool;
  tabUrls : option (list string)   (* the background worker stores groups without it *)
}.

(** [groupInfo.tabUrls.push(url)], on a record of the [groupMap] of a
    capture: these are built with [tabUrls: []] (lines 99-105). *)
Definition pushUrl (g : t) (u : string) : t :=
  {| originalId := originalId g; title := title g; color := color g;
     collapsed := collapsed g;
     tabUrls := option_map (fun urls => (urls ++ [u])%list) (tabUrls g) |}.
End GroupData.

Module Session.
Record t : Type := {
  id : string;
  name : string;
  timestamp : Z;
  windows : option (list WindowData.t);
  groups : option (list GroupData.t)
}.
End Session.

(** The JSON form of a session: the keys in the order the object literals
    of [saveCurrentSession] list them; an undefined field is left out. *)
Definition tabJSON (tb : TabData.t) : JSON.value :=
  JSON.Obj [ ("url", JSON.Str (TabData.url tb));
             ("title", JSON.Str (TabData.title tb));
             ("pinned", JSON.Bool (TabData.pinned tb));
             ("active", JSON.Bool (TabData.active tb));
             ("originalGroupId",
               match TabData.originalGroupId tb with
               | Some g => JSON.Num g
               | None => JSON.Null
               end) ].

Definition optField (key : string) (o : option JSON.value) : list (string * JSON.value) :=
  match o with Some v => [(key, v)] | None => [] end.

Definition windowJSON (wd : WindowData.t) : JSON.value :=
  JSON.Obj ([ ("id", JSON.Num (WindowData.id wd)) ] ++
            optField "tabs" (option_map (fun l => JSON.Arr (map tabJSON l)) (WindowData.tabs wd))).

Definition groupJSON (g : GroupData.t) : JSON.value :=
  JSON.Obj ([ ("originalId", JSON.Num (GroupData.originalId g));
              ("title", JSON.Str (GroupData.title g));
              ("color", JSON.Str (GroupData.color g));
              ("collapsed", JSON.Bool (GroupData.collapsed g)) ] ++
            optField "tabUrls"
              (option_map (fun l => JSON.Arr (map JSON.Str l)) (GroupData.tabUrls g))).

Definition sessionJSON (s : Session.t) : JSON.value :=
  JSON.Obj ([ ("id", JSON.Str (Session.id s));
              ("name", JSON.Str (Session.name s));
              ("timestamp", JSON.Num (Session.timestamp s)) ] ++
            optField "windows" (option_map (fun l => JSON.Arr (map windowJSON l)) (Session.windows s)) ++
            optField "groups" (option_map (fun l => JSON.Arr (map groupJSON l)) (Session.groups s))).

(** ** The undo model: the entries of the [undoHistory] key *)

Module UndoTab.
Record t : Type := {
  id : Z;
  url : option string;
  title : option string;
  groupId : option Z;
  index : Z;
  pinned : option bool   (* only the background worker records it *)
}.
End UndoTab.

Module UndoGroup.
Record t : Type := {
  id : Z;
  title : option string;
  color : string;
  collapsed : bool;
  tabIds : list Z
}.
End UndoGroup.

Module WindowState.
Record t : Type := {
  id : Z;
  tabs : list UndoTab.t;
  groups : list UndoGroup.t
}.
End WindowState.

Module UndoEntry.
Record t : Type := {
  type : string;
  timestamp : Z;
  previousGroups : list WindowState.t   (* [state.windows] *)
}.
End UndoEntry.

(** ** Effects

    A JavaScript completion is a value or a thrown [Error]; only the
    [message] of an error is ever inspected. *)
Inductive outcome (A : Type) : Type :=
| Done (a : A)
| Threw (message : string).
Arguments Threw {A} message.

(** The keys of chrome.storage.local the session manager uses. *)
Record Storage : Type := {
  sessions : option (list Session.t);
  undoHistory : option (list UndoEntry.t);
  testKey : option string        (* the [_test] probe key *)
}.

(** Reads and writes of those keys. *)
Inductive StoreOp : Type :=
| GetSessions
| SetSessions (value : list Session.t)
| GetUndoHistory
| SetUndoHistory (value : list UndoEntry.t)
| SetTest
| RemoveTest.

Definition StoreResult (op : StoreOp) : Type :=
  match op with
  | GetSessions => option (list Session.t)
  | GetUndoHistory => option (list UndoEntry.t)
  | _ => unit
  end.

(** Every other call: answered by the browser. *)
Inductive ApiCall : Type :=
| StorageGetBytesInUse
| WindowsGetAll                                   (* [{ populate: true }] *)
| WindowsGet (windowId : Z)
| WindowsCreate (url : string)                    (* [focused: false] *)
| TabsCreate (windowId : Z) (url : string)        (* [active: false] *)
| TabsQuery (windowId : Z)
| TabsUpdatePinned (tabId : Z)                    (* [{ pinned: true }] *)
| TabsUpdateActive (tabId : Z)                    (* [{ active: true }] *)
| TabsGroup (tabIds : list Z) (windowId : option Z)
| TabsUngroup (tabIds : list Z)
| TabGroupsGet (groupId : Z)
| TabGroupsUpdate (groupId : Z) (title : option string) (color : string) (collapsed : bool)
| DateNow
| SetTimeout (ms : Z)
| LoadActiveGroups
| ShowToast (message kind : string).

Definition ApiResult (c : ApiCall) : Type :=
  match c with
  | StorageGetBytesInUse => outcome Z
  | WindowsGetAll => outcome (list LiveWindow.t)
  | WindowsGet _ => outcome LiveWindow.t
  | WindowsCreate _ => outcome LiveWindow.t
  | TabsCreate _ _ => outcome LiveTab.t
  | TabsQuery _ => outcome (list LiveTab.t)
  | TabsUpdatePinned _ => outcome unit
  | TabsUpdateActive _ => outcome unit
  | TabsGroup _ _ => outcome Z
  | TabsUngroup _ => outcome unit
  | TabGroupsGet _ => outcome LiveGroup.t
  | TabGroupsUpdate _ _ _ _ => outcome unit
  | DateNow => Z
  | SetTimeout _ => unit
  | LoadActiveGroups => outcome unit
  | ShowToast _ _ => unit
  end.

Inductive Call : Type :=
| Store (op : StoreOp)
| Api (c : ApiCall).

Definition Result (c : Call) : Type :=
  match c with
  | Store op => outcome (StoreResult op)
  | Api c => ApiResult c
  end.

(** The calls that change the live window / tab / group hierarchy. *)
Definition mutatesLive (c : Call) : bool :=
  match c with
  | Api (WindowsCreate _) | Api (TabsCreate _ _)
  | Api (TabsUpdatePinned _) | Api (TabsUpdateActive _)
  | Api (TabsGroup _ _) | Api (TabsUngroup _)
  | Api (TabGroupsUpdate _ _ _ _) => true
  | _ => false
  end.

(** The calls that write a storage key. *)
Definition writesSessions (c : Call) : bool :=
  match c with Store (SetSessions _) => true | _ => false end.

Definition writesUndoHistory (c : Call) : bool :=
  match c with Store (SetUndoHistory _) => true | _ => false end.

(** Programs: a value, or a call followed by the rest of the program. *)
Inductive Prog (A : Type) : Type :=
| Ret (a : A)
| Do (c : Call) (k : Result c -> Prog A).
Arguments Ret {A} a.

Fixpoint bind {A B : Type} (p : Prog A) (f : A -> Prog B) : Prog B :=
  match p with
  | Ret a => f a
  | Do c k => Do c (fun r => bind (k r) f)
  end.

(** [await] of one call. *)
Definition await (c : Call) : Prog (Result c) := Do c (fun r => Ret r).

(** Programs that may throw. *)
Definition M (A : Type) : Type := Prog (outcome A).

Definition ret {A : Type} (a : A) : M A := Ret (Done a).

Definition throw {A : Type} (message : string) : M A := Ret (Threw message).

Definition bindM {A B : Type} (p : M A) (f : A -> M B) : M B :=
  bind p (fun o => match o with Done a => f a | Threw m => Ret (Threw m) end).

(** [try { p } catch (error) { handler(error.message) }] *)
Definition tryCatch {A : Type} (p : M A) (handler : string -> M A) : M A :=
  bind p (fun o => match o with Done a => Ret (Done a) | Threw m => handler m end).

(** A call that cannot reject. *)
Definition perform {A : Type} (p : Prog A) : M A := bind p (fun a => ret a).

Declare Scope js_scope.
Delimit Scope js_scope with js.
Notation "x <- p ;; q" := (bindM p (fun x => q))
  (at level 61, p at next level, right associativity) : js_scope.
Notation "' pat <- p ;; q" := (bindM p (fun x => match x with pat => q end))
  (at level 61, pat pattern, p at next level, right associativity) : js_scope.
Notation "p ;; q" := (bindM p (fun _ => q))
  (at level 61, right associativity) : js_scope.
Open Scope js_scope.

(** [for (const x of items) { s = body(x, s) }] *)
Fixpoint forEach {X S : Type} (items : list X) (body : X -> S -> M S) (s : S) : M S :=
  match items with
  | [] => ret s
  | x :: rest => s1 <- body x s ;; forEach rest body s1
  end.

(** ** Running a program against a browser *)
Section Semantics.

Variable E : Type.

(** The browser: how it answers the calls, and whether a storage access
    rejects (with which message). *)
Record Browser : Type := {
  answer : forall c : ApiCall, E -> ApiResult c * E;
  storageFault : StoreOp -> E -> option string * E
}.

Record World : Type := {
  store : Storage;
  env : E
}.

Definition storeStep (op : StoreOp) (s : Storage) : StoreResult op * Storage :=
  match op as o return (StoreResult o * Storage) with
  | GetSessions => (sessions s, s)
  | SetSessions l =>
      (tt, {| sessions := Some l; undoHistory := undoHistory s; testKey := testKey s |})
  | GetUndoHistory => (undoHistory s, s)
  | SetUndoHistory h =>
      (tt, {| sessions := sessions s; undoHistory := Some h; testKey := testKey s |})
  | SetTest =>
      (tt, {| sessions := sessions s; undoHistory := undoHistory s; testKey := Some "test" |})
  | RemoveTest =>
      (tt, {| sessions := sessions s; undoHistory := undoHistory s; testKey := None |})
  end.

Variable browser : Browser.

(** One call.  A rejected storage access leaves every key as it was. *)
Definition exec (c : Call) (w : World) : Result c * World :=
  match c as c0 return (Result c0 * World) with
  | Store op =>
      let (fault, e) := storageFault browser op (env w) in
      match fault with
      | Some m => (Threw m, {| store := store w; env := e |})
      | None =>
          let (r, s) := storeStep op (store w) in
          (Done r, {| store := s; env := e |})
      end
  | Api a =>
      let (r, e) := answer browser a (env w) in
      (r, {| store := store w; env := e |})
  end.

(** What a run leaves behind: the completion, the final world and the
    calls issued, in order. *)
Record Ran (A : Type) : Type := {
  value : A;
  world : World;
  calls : list Call
}.

Fixpoint run {A : Type} (p : Prog A) (w : World) : Ran A :=
  match p with
  | Ret a => {| value := a; world := w; calls := [] |}
  | Do c k =>
      let rest := run (k (fst (exec c w))) (snd (exec c w)) in
      {| value := value rest; world := world rest; calls := c :: calls rest |}
  end.

End Semantics.

Arguments answer {E} _ _ _.
Arguments storageFault {E} _ _ _.
Arguments store {E} _.
Arguments env {E} _.
Arguments value {E A} _.
Arguments world {E A} _.
Arguments calls {E A} _.
Arguments exec : simpl never.

(** ** utils/sessionManager.js: saving a session *)

(** Storage quota limit in bytes (10 MB). *)
Definition STORAGE_QUOTA : Z := 10 * 1024 * 1024.

(** [checkStorageQuota]: [bytesInUse] and [available]; when the browser
    cannot tell, the whole quota counts as available.  ([percentUsed] only
    feeds a console warning and is left out.) *)
Definition checkStorageQuota : M (Z * Z) :=
  tryCatch
    (bytesInUse <- await (Api StorageGetBytesInUse) ;;
     ret (bytesInUse, STORAGE_QUOTA - bytesInUse))
    (fun _ => ret (0, STORAGE_QUOTA)).

(** [estimateSessionSize]: two bytes per UTF-16 code unit of the JSON text.
    ([JSON.stringify] cannot throw on a session, so the [catch] that
    returns 0 is never entered.) *)
Definition estimateSessionSize (sessionData : Session.t) : Z :=
  Z.of_nat (String.length (JSON.stringify (sessionJSON sessionData))) * 2.

(** The test of line 81: no URL, or a chrome:// or extension page. *)
Definition skipped (tab : LiveTab.t) : bool :=
  match LiveTab.url tab with
  | None => true
  | Some u =>
      negb (truthy u) || startsWith u "chrome://" || startsWith u "chrome-extension://"
  end.

(** [groupMap]: a [Map] from group id to group record.  Its values are
    read back in insertion order, so it is an association list. *)
Definition GroupMap : Type := list (Z * GroupData.t).

Fixpoint mapGet (m : GroupMap) (k : Z) : option GroupData.t :=
  match m with
  | [] => None
  | (k', v) :: rest => if Z.eqb k' k then Some v else mapGet rest k
  end.

Definition mapHas (m : GroupMap) (k : Z) : bool :=
  match mapGet m k with Some _ => true | None => false end.

(** [groupMap.set(k, v)] for a key the map may or may not hold. *)
Fixpoint mapSet (m : GroupMap) (k : Z) (v : GroupData.t) : GroupMap :=
  match m with
  | [] => [(k, v)]
  | (k', v') :: rest =>
      if Z.eqb k' k then (k', v) :: rest else (k', v') :: mapSet rest k v
  end.

(** [groupMap.get(k).tabUrls.push(u)]: the record is updated in place. *)
Fixpoint mapPushUrl (m : GroupMap) (k : Z) (u : string) : GroupMap :=
  match m with
  | [] => []
  | (k', v) :: rest =>
      if Z.eqb k' k then (k', GroupData.pushUrl v u) :: rest
      else (k', v) :: mapPushUrl rest k u
  end.

Definition tabDataOf (tab : LiveTab.t) (u : string) : TabData.t :=
  {| TabData.url := u;
     TabData.title := orElse (LiveTab.title tab) "Untitled";
     TabData.pinned := LiveTab.pinned tab;
     TabData.active := LiveTab.active tab;
     TabData.originalGroupId :=
       if Z.eqb (LiveTab.groupId tab) TAB_ID_NONE then None
       else Some (LiveTab.groupId tab) |}.

Definition groupDataOf (group : LiveGroup.t) : GroupData.t :=
  {| GroupData.originalId := LiveGroup.id group;
     GroupData.title := orElse (LiveGroup.title group) "Untitled Group";
     GroupData.color := orElse (Some (LiveGroup.color group)) "grey";
     GroupData.collapsed := LiveGroup.collapsed group;
     GroupData.tabUrls := Some [] |}.

(** Lines 97-110: fetch the group of a tab unless the map already holds it;
    a failed fetch is logged and leaves the map as it was. *)
Definition collectGroup (groupId : Z) (groupMap : GroupMap) : M GroupMap :=
  if mapHas groupMap groupId then ret groupMap
  else
    tryCatch
      (group <- await (Api (TabGroupsGet groupId)) ;;
       ret (mapSet groupMap groupId (groupDataOf group)))
      (fun _ => ret groupMap).

(** The body of the loop over [window.tabs], lines 79-117. *)
Definition captureTab (tab : LiveTab.t) (acc : list TabData.t * GroupMap)
  : M (list TabData.t * GroupMap) :=
  let (tabs, groupMap) := acc in
  if skipped tab then ret (tabs, groupMap)
  else
    let u := orElse (LiveTab.url tab) EmptyString in
    let tabs1 := (tabs ++ [tabDataOf tab u])%list in
    if Z.eqb (LiveTab.groupId tab) TAB_ID_NONE then ret (tabs1, groupMap)
    else
      groupMap1 <- collectGroup (LiveTab.groupId tab) groupMap ;;
      match mapGet groupMap1 (LiveTab.groupId tab) with
      | Some _ => ret (tabs1, mapPushUrl groupMap1 (LiveTab.groupId tab) u)
      | None => ret (tabs1, groupMap1)
      end.

(** The body of the loop over the windows, lines 72-123. *)
Definition captureWindow (window : LiveWindow.t) (acc : list WindowData.t * GroupMap)
  : M (list WindowData.t * GroupMap) :=
  let (windows, groupMap) := acc in
  '(tabs, groupMap1) <-
     match LiveWindow.tabs window with
     | Some live => forEach live captureTab ([], groupMap)
     | None => ret ([], groupMap)
     end ;;
  match tabs with
  | [] => ret (windows, groupMap1)
  | _ :: _ =>
      ret ((windows ++ [ {| WindowData.id := LiveWindow.id window;
                            WindowData.tabs := Some tabs |} ])%list,
           groupMap1)
  end.

(** Lines 59-126: enumerate the windows and build [sessionData]. *)
Definition captureSession (sessionName : string) : M Session.t :=
  windows <- await (Api WindowsGetAll) ;;
  idNow <- perform (await (Api DateNow)) ;;
  timestampNow <- perform (await (Api DateNow)) ;;
  '(windowRecords, groupMap) <- forEach windows captureWindow ([], []) ;;
  ret {| Session.id := toString idNow;
         Session.name := sessionName;
         Session.timestamp := timestampNow;
         Session.windows := Some windowRecords;
         Session.groups := Some (map snd groupMap) |}.

(** The messages of the errors [saveCurrentSession] throws. *)
Definition QuotaExceeded : string :=
  "Storage quota exceeded. Please delete old sessions or export and clear.".
Definition QuotaExceededOnWrite : string :=
  "Storage quota exceeded. Please delete old sessions.".
Definition CouldNotSave : string :=
  "Could not save session. Storage might be full.".
Definition CannotAccessStorage : string :=
  "Cannot access storage. Check permissions.".

(** Lines 51-57: probe the storage with the [_test] key. *)
Definition storageAccessTest : M unit :=
  tryCatch
    (await (Store SetTest) ;; await (Store RemoveTest))
    (fun _ => throw CannotAccessStorage).

(** Lines 141-155: append to the stored list. *)
Definition appendSession (sessionData : Session.t) : M string :=
  tryCatch
    (result <- await (Store GetSessions) ;;
     let sessions := match result with Some l => l | None => [] end in
     await (Store (SetSessions (sessions ++ [sessionData])%list)) ;;
     ret (Session.id sessionData))
    (fun message =>
       if truthy message && (includes message "QUOTA" || includes message "quota")
       then throw QuotaExceededOnWrite
       else throw CouldNotSave).

(** Lines 128-155: the quota check, then the write. *)
Definition putSession (sessionData : Session.t) : M string :=
  '(_, available) <- checkStorageQuota ;;
  let estimatedSize := estimateSessionSize sessionData in
  if Z.gtb estimatedSize available then throw QuotaExceeded
  else appendSession sessionData.

(** [saveCurrentSession(sessionName)] *)
Definition saveCurrentSession (sessionName : string) : M string :=
  tryCatch
    (storageAccessTest ;;
     sessionData <- captureSession sessionName ;;
     putSession sessionData)
    (fun message =>
       if truthy message &&
          (includes message "Could not" || includes message "Storage" || includes message "quota")
       then throw message
       else throw CouldNotSave).

(** ** utils/sessionManager.js: reading the stored sessions *)

(** [Array.prototype.sort] with a comparison function: a stable sort;
    [a] moves behind [b] only when [compareFn a b] is positive. *)
Section Sort.
Variable A : Type.
Variable compareFn : A -> A -> Z.

Fixpoint sortInsert (a : A) (sorted : list A) : list A :=
  match sorted with
  | [] => [a]
  | b :: rest =>
      if Z.gtb (compareFn a b) 0 then b :: sortInsert a rest else a :: b :: rest
  end.

Fixpoint sort (l : list A) : list A :=
  match l with
  | [] => []
  | a :: rest => sortInsert a (sort rest)
  end.
End Sort.

(** [(a, b) => b.timestamp - a.timestamp]: newest first. *)
Definition newestFirst (a b : Session.t) : Z :=
  Session.timestamp b - Session.timestamp a.

(** Newest first, as a relation. *)
Definition notOlder (a b : Session.t) : Prop :=
  Session.timestamp b <= Session.timestamp a.

(** [getAllSessions]: the stored list, newest first; [[]] on any error. *)
Definition getAllSessions : M (list Session.t) :=
  tryCatch
    (result <- await (Store GetSessions) ;;
     let sessions := match result with Some l => l | None => [] end in
     ret (sort newestFirst sessions))
    (fun _ => ret []).

(** [validateSession].  The [typeof] tests on [id], [name] and [timestamp]
    hold by the types of the record. *)
Definition validateSession (session : Session.t) : bool :=
  match Session.windows session, Session.groups session with
  | None, None => false
  | _, _ =>
      let hasTabs :=
        match Session.windows session with
        | Some windows =>
            existsb (fun windowData =>
                       match WindowData.tabs windowData with
                       | Some (_ :: _) => true
                       | _ => false
                       end) windows
        | None => false
        end in
      let noGroups :=
        match Session.groups session with
        | Some (_ :: _) => false
        | _ => true
        end in
      if negb hasTabs && noGroups then false else true
  end.

(** ** utils/sessionManager.js: restoring a session *)

(** What one round of the polling loop of [waitForTabs] decides. *)
Inductive Poll : Type :=
| Return (tabs : list LiveTab.t)
| Again (lastTabCount stableCount : nat)
| Leave.

(** Lines 227-255, one round after the time check. *)
Definition pollOnce (windowId : Z) (expectedCount lastTabCount stableCount : nat) : M Poll :=
  tryCatch
    (tabs <- await (Api (TabsQuery windowId)) ;;
     let tabsWithUrls :=
       filter (fun tab => truthyOpt (LiveTab.url tab) || truthyOpt (LiveTab.pendingUrl tab)) tabs in
     if Nat.leb expectedCount (List.length tabs) && Nat.leb expectedCount (List.length tabsWithUrls)
     then ret (Return tabs)
     else if Nat.eqb (List.length tabs) lastTabCount
     then
       if Nat.leb 3 (S stableCount) && Nat.ltb 0 (List.length tabs)
       then ret (Return tabs)
       else perform (await (Api (SetTimeout 200))) ;; ret (Again lastTabCount (S stableCount))
     else perform (await (Api (SetTimeout 200))) ;; ret (Again (List.length tabs) 0%nat))
    (fun _ => ret Leave).

(** What the [while] loop of [waitForTabs] comes to. *)
Inductive Polled : Type :=
| Found (tabs : list LiveTab.t)   (* a [return tabs] inside the loop *)
| LeftLoop                        (* the time is up, or the [break] of line 253 *)
| StillPolling.                   (* the loop is not over after the rounds followed *)

(** The [while] loop of [waitForTabs], lines 226-256.  It is bounded by
    the clock alone: under a browser whose clock does not advance it goes
    round for ever.  The loop is followed for [rounds] rounds and is
    [StillPolling] when it is not over by then; what comes after the loop
    is not run in that case. *)
Fixpoint pollLoop (rounds : nat) (windowId : Z) (expectedCount : nat) (startTime maxWait : Z)
         (lastTabCount stableCount : nat) : M Polled :=
  match rounds with
  | O => ret StillPolling
  | S rounds' =>
      now <- perform (await (Api DateNow)) ;;
      if Z.ltb (now - startTime) maxWait then
        step <- pollOnce windowId expectedCount lastTabCount stableCount ;;
        match step with
        | Return tabs => ret (Found tabs)
        | Again last stable =>
            pollLoop rounds' windowId expectedCount startTime maxWait last stable
        | Leave => ret LeftLoop
        end
      else ret LeftLoop
  end.

(** [waitForTabs(windowId, expectedCount, maxWait)], its loop followed for
    [rounds] rounds: [Some] of what it returns, [None] when the loop is not
    over by then. *)
Definition waitForTabs (rounds : nat) (windowId : Z) (expectedCount : nat) (maxWait : Z)
  : M (option (list LiveTab.t)) :=
  tryCatch
    (startTime <- perform (await (Api DateNow)) ;;
     polled <- pollLoop rounds windowId expectedCount startTime maxWait 0 0 ;;
     match polled with
     | Found tabs => ret (Some tabs)
     | LeftLoop => tabs <- await (Api (TabsQuery windowId)) ;; ret (Some tabs)
     | StillPolling => ret None
     end)
    (fun _ => ret (Some [])).

(** The messages of the errors [restoreSession] throws. *)
Definition SessionNotFound : string := "Session not found".
Definition InvalidSession : string := "Invalid or empty session".
Definition FailedToRestore : string :=
  "Failed to restore session. Some tabs may be unavailable.".
(** The engine's [TypeError] on iterating or mapping an undefined field. *)
Definition NotIterable : string := "undefined is not iterable".

Section Restore.

(** [new URL(url)]: the platform's URL parser, [None] when it throws,
    otherwise [hostname], [pathname] and [search]. *)
Variable parseURL : string -> option (string * string * string).

(** [normalizeUrl], lines 282-289. *)
Definition normalizeUrl (url : string) : string :=
  match parseURL url with
  | Some (hostname, pathname, search) => hostname ++ pathname ++ search
  | None => url
  end.

(** [t.url === targetUrl] for a possibly undefined [t.url]. *)
Definition sameUrl (o : option string) (targetUrl : string) : bool :=
  match o with Some u => String.eqb u targetUrl | None => false end.

(** [t.url || t.pendingUrl || ''] *)
Definition settledOrPending (t : LiveTab.t) : string :=
  orElse (LiveTab.url t) (orElse (LiveTab.pendingUrl t) EmptyString).

(** [findTabByUrl(tabs, targetUrl)] *)
Definition findTabByUrl (tabs : list LiveTab.t) (targetUrl : string) : option LiveTab.t :=
  match find (fun t => sameUrl (LiveTab.url t) targetUrl) tabs with
  | Some tab => Some tab
  | None =>
      match find (fun t => sameUrl (LiveTab.pendingUrl t) targetUrl) tabs with
      | Some tab => Some tab
      | None =>
          let normalizedTarget := normalizeUrl targetUrl in
          find (fun t => String.eqb (normalizeUrl (settledOrPending t)) normalizedTarget) tabs
      end
  end.

(** The filter of line 323. *)
Definition restorableUrl (url : string) : bool :=
  truthy url && negb (startsWith url "chrome://") && negb (startsWith url "chrome-extension://").

(** Lines 338-351: the remaining tabs; a rejected creation is logged. *)
Definition createRemainingTabs (windowId : Z) (remainingUrls : list string) : M unit :=
  forEach remainingUrls
    (fun url _ =>
       tryCatch (await (Api (TabsCreate windowId url)) ;; ret tt) (fun _ => ret tt))
    tt.

(** Lines 357-372: pin the tabs recorded as pinned. *)
Definition restorePinned (tabs : list TabData.t) (createdTabs : list LiveTab.t) : M unit :=
  tryCatch
    (forEach tabs
       (fun originalTab _ =>
          if TabData.pinned originalTab then
            match findTabByUrl createdTabs (TabData.url originalTab) with
            | Some createdTab =>
                tryCatch (await (Api (TabsUpdatePinned (LiveTab.id createdTab))))
                         (fun _ => ret tt)
            | None => ret tt
            end
          else ret tt)
       tt)
    (fun _ => ret tt).

(** Lines 380-387: the live tabs of a recorded group, pinned ones left out. *)
Definition groupTabIdsOf (updatedTabs : list LiveTab.t) (tabUrls : list string) : list Z :=
  flat_map (fun tabUrl =>
              match findTabByUrl updatedTabs tabUrl with
              | Some matchingTab =>
                  if negb (LiveTab.pinned matchingTab) then [LiveTab.id matchingTab] else []
              | None => []
              end) tabUrls.

(** Lines 379-405: recreate one recorded group.  The loop over
    [groupData.tabUrls] is outside every inner [try]: a group stored
    without the list makes it throw. *)
Definition restoreGroup (windowId : Z) (updatedTabs : list LiveTab.t)
           (groupData : GroupData.t) : M unit :=
  match GroupData.tabUrls groupData with
  | None => throw NotIterable
  | Some tabUrls =>
      match groupTabIdsOf updatedTabs tabUrls with
      | [] => ret tt
      | groupTabIds =>
          tryCatch
            (groupId <- await (Api (TabsGroup groupTabIds (Some windowId))) ;;
             await (Api (TabGroupsUpdate groupId
                           (Some (orElse (Some (GroupData.title groupData)) "Restored Group"))
                           (orElse (Some (GroupData.color groupData)) "grey")
                           (GroupData.collapsed groupData))))
            (fun _ => ret tt)
      end
  end.

(** Lines 378-408: recreate the groups. *)
Definition restoreGroups (groups : option (list GroupData.t)) (windowId : Z)
           (updatedTabs : list LiveTab.t) : M unit :=
  match groups with
  | Some ((_ :: _) as recorded) =>
      forEach recorded (fun groupData _ => restoreGroup windowId updatedTabs groupData) tt
  | _ => ret tt
  end.

(** Lines 412-420: the loop that activates the first recorded active tab
    it can find, then breaks. *)
Fixpoint activateFirst (tabs : list TabData.t) (updatedTabs : list LiveTab.t) : M unit :=
  match tabs with
  | [] => ret tt
  | originalTab :: rest =>
      if TabData.active originalTab then
        match findTabByUrl updatedTabs (TabData.url originalTab) with
        | Some createdTab => await (Api (TabsUpdateActive (LiveTab.id createdTab)))
        | None => activateFirst rest updatedTabs
        end
      else activateFirst rest updatedTabs
  end.

Definition restoreActive (tabs : list TabData.t) (updatedTabs : list LiveTab.t) : M unit :=
  tryCatch (activateFirst tabs updatedTabs) (fun _ => ret tt).

(** The rounds for which every polling loop of a restore is followed. *)
Variable rounds : nat.

(** Lines 356-423, what follows [waitForTabs] in the body of the loop. *)
Definition settleWindow (session : Session.t) (tabs : list TabData.t) (windowId : Z)
           (createdTabs : list LiveTab.t) : M unit :=
  restorePinned tabs createdTabs ;;
  updatedTabs <- await (Api (TabsQuery windowId)) ;;
  restoreGroups (Session.groups session) windowId updatedTabs ;;
  restoreActive tabs updatedTabs.

(** The body of the loop over [session.windows], lines 320-424: [Some tt]
    when it is over, [None] when its polling loop is not over after
    [rounds] rounds. *)
Definition restoreWindow (session : Session.t) (windowData : WindowData.t) : M (option unit) :=
  match WindowData.tabs windowData with
  | None => throw NotIterable
  | Some tabs =>
      let tabUrls := filter restorableUrl (map TabData.url tabs) in
      match tabUrls with
      | [] => ret (Some tt)
      | firstTabUrl :: remainingUrls =>
          window <- await (Api (WindowsCreate firstTabUrl)) ;;
          createRemainingTabs (LiveWindow.id window) remainingUrls ;;
          waited <- waitForTabs rounds (LiveWindow.id window) (List.length tabUrls) 10000 ;;
          match waited with
          | Some createdTabs =>
              settleWindow session tabs (LiveWindow.id window) createdTabs ;;
              ret (Some tt)
          | None => ret None
          end
      end
  end.

(** The loop over [session.windows], line 320; it goes no further than a
    window whose polling loop is not over. *)
Fixpoint restoreWindows (session : Session.t) (windows : list WindowData.t) : M (option unit) :=
  match windows with
  | [] => ret (Some tt)
  | windowData :: rest =>
      restored <- restoreWindow session windowData ;;
      match restored with
      | Some _ => restoreWindows session rest
      | None => ret None
      end
  end.

(** The [catch] of lines 425-431: an error whose message holds one of the
    three phrases is thrown again as it is, any other is replaced. *)
Definition rethrown (message : string) : string :=
  if truthy message &&
     (includes message "Session not found" || includes message "Invalid" ||
      includes message "Failed to restore")
  then message
  else FailedToRestore.

(** [restoreSession(sessionId)]: [Done (Some tt)] when it returns,
    [Done None] when one of its polling loops is not over after [rounds]
    rounds. *)
Definition restoreSession (sessionId : string) : M (option unit) :=
  tryCatch
    (sessions <- getAllSessions ;;
     match find (fun s => String.eqb (Session.id s) sessionId) sessions with
     | None => throw SessionNotFound
     | Some session =>
         if negb (validateSession session) then throw InvalidSession
         else
           match Session.windows session with
           | None => throw NotIterable
           | Some windows => restoreWindows session windows
           end
     end)
    (fun message => throw (rethrown message)).

End Restore.

(** ** Retention: pruning system-generated sessions *)

(** The block shared by [cleanupRecoverySessions] (lines 459-470), by
    [cleanupRecoverySessionsInline], and by the clean-up steps of
    [autoSaveSession] and of the window-removal listener of the background
    worker: the sessions named with [prefix], newest first; when there are
    more than [maxCount], the list to write back, from which every session
    sharing its [id] with one beyond the newest [maxCount] is gone.
    [None] when nothing is written. *)
Definition named (prefix : string) (s : Session.t) : bool :=
  truthy (Session.name s) && startsWith (Session.name s) prefix.

Definition pruneByPrefix (prefix : string) (maxCount : nat) (sessions : list Session.t)
  : option (list Session.t) :=
  let matching := sort newestFirst (filter (named prefix) sessions) in
  if Nat.ltb maxCount (List.length matching) then
    let toDelete := skipn maxCount matching in
    Some (filter (fun s =>
                    negb (existsb (fun ds => String.eqb (Session.id ds) (Session.id s)) toDelete))
                 sessions)
  else None.

(** The list a prune leaves in storage. *)
Definition kept (prefix : string) (maxCount : nat) (sessions : list Session.t)
  : list Session.t :=
  match pruneByPrefix prefix maxCount sessions with
  | Some remainingSessions => remainingSessions
  | None => sessions
  end.

(** Retention in the words of the specification: [after] holds only
    sessions of [before]; every session of [before] whose name does not
    start with [prefix] is still there; of those whose name starts with
    [prefix] exactly the [maxCount] newest by timestamp remain (all of them
    if there are at most [maxCount]). *)
Definition Pruned (prefix : string) (maxCount : nat) (before after : list Session.t) : Prop :=
  (forall s, In s after -> In s before) /\
  (forall s, In s before -> startsWith (Session.name s) prefix = false -> In s after) /\
  List.length (filter (fun s => startsWith (Session.name s) prefix) after) =
    Nat.min maxCount
            (List.length (filter (fun s => startsWith (Session.name s) prefix) before)) /\
  (forall k d,
      In k after -> startsWith (Session.name k) prefix = true ->
      In d before -> startsWith (Session.name d) prefix = true ->
      ~ In d after ->
      Session.timestamp d <= Session.timestamp k).

(** The browser never rejects a storage access. *)
Definition reliable (E : Type) (b : Browser E) : Prop :=
  forall op e, fst (storageFault b op e) = None.

(** The stored session list, [[]] when the key is not set. *)
Definition storedSessions (E : Type) (w : World E) : list Session.t :=
  match sessions (store w) with Some l => l | None => [] end.

(** [cleanupRecoverySessions(maxCount)] of utils/sessionManager.js *)
Definition cleanupRecoverySessions (maxCount : nat) : M unit :=
  tryCatch
    (sessions <- getAllSessions ;;
     match pruneByPrefix "Recovery (" maxCount sessions with
     | Some remainingSessions => await (Store (SetSessions remainingSessions))
     | None => ret tt
     end)
    (fun _ => ret tt).

(** [cleanupRecoverySessionsInline] of the background worker *)
Definition cleanupRecoverySessionsInline : M unit :=
  tryCatch
    (result <- await (Store GetSessions) ;;
     let sessions := match result with Some l => l | None => [] end in
     match pruneByPrefix "Recovery (" 3 sessions with
     | Some remainingSessions => await (Store (SetSessions remainingSessions))
     | None => ret tt
     end)
    (fun _ => ret tt).

(** ** The undo history *)

(** [history.push(entry); if (history.length > 20) history.shift();] *)
Definition pushUndo (history : list UndoEntry.t) (entry : UndoEntry.t) : list UndoEntry.t :=
  let pushed := (history ++ [entry])%list in
  if Nat.ltb 20 (List.length pushed) then tl pushed else pushed.

(** The ids a [Set] holds after adding the elements of [l] in order. *)
Fixpoint setOf (l : list Z) : list Z :=
  match l with
  | [] => []
  | x :: rest => x :: filter (fun y => negb (Z.eqb y x)) (setOf rest)
  end.

Definition undoTabOf (withPinned : bool) (tab : LiveTab.t) : UndoTab.t :=
  {| UndoTab.id := LiveTab.id tab;
     UndoTab.url := LiveTab.url tab;
     UndoTab.title := LiveTab.title tab;
     UndoTab.groupId :=
       if Z.eqb (LiveTab.groupId tab) TAB_ID_NONE then None else Some (LiveTab.groupId tab);
     UndoTab.index := LiveTab.index tab;
     UndoTab.pinned := if withPinned then Some (LiveTab.pinned tab) else None |}.

(** The loop over [groupIds]: a group whose fetch fails is left out. *)
Definition captureUndoGroups (tabs : list LiveTab.t) : M (list UndoGroup.t) :=
  let groupIds :=
    setOf (filter (fun g => negb (Z.eqb g TAB_ID_NONE)) (map LiveTab.groupId tabs)) in
  forEach groupIds
    (fun groupId groups =>
       tryCatch
         (group <- await (Api (TabGroupsGet groupId)) ;;
          let tabsInGroup := filter (fun t => Z.eqb (LiveTab.groupId t) groupId) tabs in
          ret (groups ++ [ {| UndoGroup.id := groupId;
                              UndoGroup.title := LiveGroup.title group;
                              UndoGroup.color := LiveGroup.color group;
                              UndoGroup.collapsed := LiveGroup.collapsed group;
                              UndoGroup.tabIds := map LiveTab.id tabsInGroup |} ])%list)
         (fun _ => ret groups))
    [].

(** The loop over the windows, as in [saveUndoState] (lines 1253-1296) and
    in [captureCurrentGroupsInline]. *)
Definition captureUndoWindows (withPinned : bool) (windows : list LiveWindow.t)
  : M (list WindowState.t) :=
  forEach windows
    (fun window state =>
       match LiveWindow.tabs window with
       | Some tabs =>
           groups <- captureUndoGroups tabs ;;
           ret (state ++ [ {| WindowState.id := LiveWindow.id window;
                              WindowState.tabs := map (undoTabOf withPinned) tabs;
                              WindowState.groups := groups |} ])%list
       | None =>
           ret (state ++ [ {| WindowState.id := LiveWindow.id window;
                              WindowState.tabs := [];
                              WindowState.groups := [] |} ])%list
       end)
    [].

(** [saveUndoState(actionType)] of the popup *)
Definition saveUndoState (actionType : string) : M unit :=
  tryCatch
    (result <- await (Store GetUndoHistory) ;;
     let history := match result with Some h => h | None => [] end in
     windows <- await (Api WindowsGetAll) ;;
     state <- captureUndoWindows false windows ;;
     now <- perform (await (Api DateNow)) ;;
     await (Store (SetUndoHistory
                     (pushUndo history {| UndoEntry.type := actionType;
                                          UndoEntry.timestamp := now;
                                          UndoEntry.previousGroups := state |}))))
    (fun _ => ret tt).

(** [captureCurrentGroupsInline] of the background worker *)
Definition captureCurrentGroupsInline : M (list WindowState.t) :=
  tryCatch
    (windows <- await (Api WindowsGetAll) ;;
     captureUndoWindows true windows)
    (fun _ => ret []).

(** [saveUndoStateInline(actionType)] of the background worker *)
Definition saveUndoStateInline (actionType : string) : M bool :=
  tryCatch
    (result <- await (Store GetUndoHistory) ;;
     let history := match result with Some h => h | None => [] end in
     now <- perform (await (Api DateNow)) ;;
     state <- captureCurrentGroupsInline ;;
     await (Store (SetUndoHistory
                     (pushUndo history {| UndoEntry.type := actionType;
                                          UndoEntry.timestamp := now;
                                          UndoEntry.previousGroups := state |}))) ;;
     ret true)
    (fun _ => ret false).

(** [a === b] on possibly undefined strings. *)
Definition sameOpt (a b : option string) : bool :=
  match a, b with
  | Some x, Some y => String.eqb x y
  | None, None => true
  | _, _ => false
  end.

(** Lines 1352-1363: the live tabs of a recorded group, by id first and by
    the URL of the recorded tab otherwise. *)
Definition tabsToGroupOf (windowState : WindowState.t) (existingTabs : list LiveTab.t)
           (tabIds : list Z) : list Z :=
  flat_map
    (fun savedTabId =>
       match find (fun t => Z.eqb (LiveTab.id t) savedTabId) existingTabs with
       | Some tab => [LiveTab.id tab]
       | None =>
           match find (fun t => Z.eqb (UndoTab.id t) savedTabId) (WindowState.tabs windowState) with
           | Some savedTab =>
               match find (fun t => sameOpt (LiveTab.url t) (UndoTab.url savedTab)) existingTabs with
               | Some tab => [LiveTab.id tab]
               | None => []
               end
           | None => []
           end
       end)
    tabIds.

(** Lines 1336-1344: ungroup every grouped tab of the window. *)
Definition ungroupAll (currentTabs : list LiveTab.t) : M unit :=
  forEach currentTabs
    (fun tab _ =>
       if negb (Z.eqb (LiveTab.groupId tab) TAB_ID_NONE)
       then tryCatch (await (Api (TabsUngroup [LiveTab.id tab]))) (fun _ => ret tt)
       else ret tt)
    tt.

(** Lines 1349-1376: recreate one recorded group. *)
Definition regroup (windowState : WindowState.t) (windowId : Z) (group : UndoGroup.t) : M unit :=
  existingTabs <- await (Api (TabsQuery windowId)) ;;
  match tabsToGroupOf windowState existingTabs (UndoGroup.tabIds group) with
  | [] => ret tt
  | tabsToGroup =>
      tryCatch
        (newGroupId <- await (Api (TabsGroup tabsToGroup None)) ;;
         await (Api (TabGroupsUpdate newGroupId (UndoGroup.title group)
                                     (UndoGroup.color group) (UndoGroup.collapsed group))))
        (fun _ => ret tt)
  end.

(** [chrome.windows.get(id).catch(() => null)] *)
Definition windowOrNull (windowId : Z) : M (option LiveWindow.t) :=
  tryCatch (window <- await (Api (WindowsGet windowId)) ;; ret (Some window))
           (fun _ => ret None).

(** The body of the loop of [performUndo], lines 1331-1378.  In the
    background worker (restoreUndoStateInline) each group is wrapped in a
    [try] of its own: [guarded]. *)
Definition replayWindow (guarded : bool) (windowState : WindowState.t) : M unit :=
  window <- windowOrNull (WindowState.id windowState) ;;
  match window with
  | None => ret tt
  | Some window =>
      currentTabs <- await (Api (TabsQuery (LiveWindow.id window))) ;;
      ungroupAll currentTabs ;;
      perform (await (Api (SetTimeout 100))) ;;
      forEach (WindowState.groups windowState)
        (fun group _ =>
           if guarded
           then tryCatch (regroup windowState (LiveWindow.id window) group) (fun _ => ret tt)
           else regroup windowState (LiveWindow.id window) group)
        tt
  end.

(** [performUndo] of the popup *)
Definition performUndo : M bool :=
  tryCatch
    (result <- await (Store GetUndoHistory) ;;
     let history := match result with Some h => h | None => [] end in
     match history with
     | [] =>
         perform (await (Api (ShowToast "Nothing to undo" "info"))) ;;
         ret false
     | first :: _ =>
         let lastState := last history first in
         await (Store (SetUndoHistory (removelast history))) ;;
         forEach (UndoEntry.previousGroups lastState)
           (fun windowState _ => replayWindow false windowState) tt ;;
         await (Api LoadActiveGroups) ;;
         perform (await (Api (ShowToast "Action undone" "success"))) ;;
         ret true
     end)
    (fun _ =>
       perform (await (Api (ShowToast "Failed to undo action. Please try again." "error"))) ;;
       ret false).

(** [restoreUndoStateInline(state)] of the background worker *)
Definition restoreUndoStateInline (state : list WindowState.t) : M bool :=
  tryCatch
    (forEach state
       (fun windowState _ => tryCatch (replayWindow true windowState) (fun _ => ret tt)) tt ;;
     ret true)
    (fun _ => ret false).

(** [undoLastActionInline] of the background worker *)
Definition undoLastActionInline : M bool :=
  tryCatch
    (result <- await (Store GetUndoHistory) ;;
     let history := match result with Some h => h | None => [] end in
     match history with
     | [] => ret false
     | first :: _ =>
         let lastState := last history first in
         await (Store (SetUndoHistory (removelast history))) ;;
         restoreUndoStateInline (UndoEntry.previousGroups lastState) ;;
         ret true
     end)
    (fun _ => ret false).

(** The stored undo history, [[]] when the key is not set. *)
Definition storedUndo (E : Type) (w : World E) : list UndoEntry.t :=
  match undoHistory (store w) with Some h => h | None => [] end.

(** ** What a capture records, as functions of the enumerated windows *)

(** The URL of a tab that is not skipped. *)
Definition urlOf (tab : LiveTab.t) : string := orElse (LiveTab.url tab) EmptyString.

(** The tab records of a window: one per tab that is not skipped. *)
Definition tabRecords (tabs : list LiveTab.t) : list TabData.t :=
  map (fun tab => tabDataOf tab (urlOf tab)) (filter (fun tab => negb (skipped tab)) tabs).

Definition tabsOf (window : LiveWindow.t) : list LiveTab.t :=
  match LiveWindow.tabs window with Some tabs => tabs | None => [] end.

(** The window records: one per window with a tab that is not skipped. *)
Definition windowRecords (windows : list LiveWindow.t) : list WindowData.t :=
  flat_map (fun window =>
              match tabRecords (tabsOf window) with
              | [] => []
              | records => [ {| WindowData.id := LiveWindow.id window;
                                WindowData.tabs := Some records |} ]
              end) windows.

(** Every tab of every window, in the order of the enumeration. *)
Definition allTabs (windows : list LiveWindow.t) : list LiveTab.t :=
  flat_map tabsOf windows.

(** The URLs of the tabs of group [groupId] that are not skipped. *)
Definition memberUrls (groupId : Z) (tabs : list LiveTab.t) : list string :=
  map urlOf (filter (fun tab => negb (skipped tab) && Z.eqb (LiveTab.groupId tab) groupId) tabs).

(** [u] is the URL of a tab of [seen] that is not skipped. *)
Definition fromEligibleTab (seen : list LiveTab.t) (u : string) : Prop :=
  exists tab, In tab seen /\ skipped tab = false /\ LiveTab.url tab = Some u.

(** Every URL a group of the map lists comes from such a tab. *)
Definition groupsFromEligibleTabs (seen : list LiveTab.t) (groupMap : GroupMap) : Prop :=
  forall k group,
    In (k, group) groupMap ->
    exists tabUrls,
      GroupData.tabUrls group = Some tabUrls /\
      forall u, In u tabUrls -> fromEligibleTab seen u.

(** The number of fetches of group [groupId] among [calls]. *)
Definition isFetchOf (groupId : Z) (c : Call) : bool :=
  match c with Api (TabGroupsGet g) => Z.eqb g groupId | _ => false end.

Definition fetches (groupId : Z) (calls : list Call) : nat :=
  List.length (filter (isFetchOf groupId) calls).

(** The browser never rejects the fetch of a group. *)
Definition fetchable (E : Type) (b : Browser E) : Prop :=
  forall groupId e, exists group, fst (answer b (TabGroupsGet groupId) e) = Done group.

(** Under a browser that never rejects a fetch: a group is in the map
    exactly when it was fetched, once; the ungrouped id is never a key; and
    a group of the map lists the URLs of its members seen so far. *)
Definition fetchedOncePerGroup (seen : list LiveTab.t) (groupMap : GroupMap)
           (cs : list Call) : Prop :=
  (forall g, fetches g cs = if mapHas groupMap g then 1%nat else 0%nat) /\
  (forall g, g <> TAB_ID_NONE ->
             match mapGet groupMap g with
             | Some group => GroupData.tabUrls group = Some (memberUrls g seen)
             | None => memberUrls g seen = []
             end).

(** C5 as the specification states it, for one capture of [windows]: every
    group is fetched at most once, and the URL of every member tab that is
    not skipped is in the [tabUrls] of a group record of the snapshot. *)
Definition fetchedOnceAndRecorded (E : Type) (b : Browser E) (w : World E)
           (sessionName : string) (windows : list LiveWindow.t) : Prop :=
  forall g,
    (fetches g (calls (run b (captureSession sessionName) w)) <= 1)%nat /\
    forall tab,
      In tab (allTabs windows) -> skipped tab = false ->
      LiveTab.groupId tab = g -> g <> TAB_ID_NONE ->
      exists sessionData groups group,
        value (run b (captureSession sessionName) w) = Done sessionData /\
        Session.groups sessionData = Some groups /\
        In group groups /\
        GroupData.tabUrls group = Some (memberUrls g (allTabs windows)) /\
        In (urlOf tab) (memberUrls g (allTabs windows)).

(** ** Restore, as the specification states it *)

(** C2, last part, for one call of [restoreSession]: if the call fails,
    however far its polling loops are followed, it fails with one of the
    two early errors, and no call that changes the live hierarchy has been
    issued. *)
Definition failsOnlyBeforeMutation (E : Type) (b : Browser E)
           (parseURL : string -> option (string * string * string))
           (sessionId : string) (w : World E) : Prop :=
  forall rounds message,
    value (run b (restoreSession parseURL rounds sessionId) w) = Threw message ->
    (message = SessionNotFound \/ message = InvalidSession) /\
    Forall (fun c => mutatesLive c = false)
           (calls (run b (restoreSession parseURL rounds sessionId) w)).

(** The browser never rejects the creation of a window nor a query of the
    tabs of a window. *)
Definition createsAndQueries (E : Type) (b : Browser E) : Prop :=
  (forall url e, exists window, fst (answer b (WindowsCreate url) e) = Done window) /\
  (forall windowId e, exists tabs, fst (answer b (TabsQuery windowId) e) = Done tabs).

(** The session has its list of windows, every window record its list of
    tabs and every group record its list of URLs. *)
Definition wellFormed (session : Session.t) : Prop :=
  (exists windows,
      Session.windows session = Some windows /\
      forall windowData, In windowData windows -> WindowData.tabs windowData <> None) /\
  (forall groups group,
      Session.groups session = Some groups -> In group groups ->
      GroupData.tabUrls group <> None).

(** The browser has a clock: [Date.now()] reads it, no call sets it back,
    and a timer of [ms] milliseconds advances it by [ms] at least. *)
Definition ticking (E : Type) (b : Browser E) (clock : E -> Z) : Prop :=
  (forall e, fst (answer b DateNow e) = clock e) /\
  (forall c e, clock e <= clock (snd (answer b c e))) /\
  (forall ms e, clock e + ms <= clock (snd (answer b (SetTimeout ms) e))).

(** The rounds within which the polling loop of a restore, whose deadline
    is 10000 ms, is over under a clock that ticks. *)
Definition enoughRounds : nat := 52.

(** The browser rejects the creation of a window, or a query of the tabs
    of a window, with [message]. *)
Definition rejects (E : Type) (b : Browser E) (message : string) : Prop :=
  (exists url e, fst (answer b (WindowsCreate url) e) = Threw message) \/
  (exists windowId e, fst (answer b (TabsQuery windowId) e) = Threw message).

(** The message holds one of the three phrases of line 427. *)
Definition keptMessage (message : string) : bool :=
  includes message "Session not found" || includes message "Invalid" ||
  includes message "Failed to restore".

(** [p] never throws. *)
Definition completes (E : Type) (b : Browser E) (A : Type) (p : M A) : Prop :=
  forall w, exists a, value (run b p w) = Done a.

(** ** Classes of calls and of stores used by the proofs *)

Definition isApi (c : Call) : Prop :=
  match c with Api _ => True | Store _ => False end.

(** [Uses P p]: every call [p] can ever issue satisfies [P]. *)
Inductive Uses (P : Call -> Prop) (A : Type) : Prog A -> Prop :=
| Uses_Ret (a : A) : Uses P (Ret a)
| Uses_Do (c : Call) (k : Result c -> Prog A) :
    P c -> (forall r, Uses P (k r)) -> Uses P (Do c k).

(** The calls of the storage probe. *)
Definition touchesTestKeyOnly (c : Call) : Prop :=
  c = Store SetTest \/ c = Store RemoveTest.

(** The writes [saveUndoState] can issue once it has read [history]. *)
Definition pushesOnto (history : list UndoEntry.t) (actionType : string) (c : Call) : Prop :=
  isApi c \/
  exists entry, UndoEntry.type entry = actionType /\
                c = Store (SetUndoHistory (pushUndo history entry)).

(** The undo history is as it was, or one entry was pushed. *)
Definition pushedAtMostOnce (history : list UndoEntry.t) (actionType : string)
           (s : Storage) : Prop :=
  match undoHistory s with Some h => h | None => [] end = history \/
  exists entry, UndoEntry.type entry = actionType /\
                undoHistory s = Some (pushUndo history entry).

(** As long as every tab seen is skipped, no group is fetched or
    recorded. *)
Definition nothingCollected (seen : list LiveTab.t) (groupMap : GroupMap) (cs : list Call)
  : Prop :=
  (forall tab, In tab seen -> skipped tab = true) -> groupMap = [] /\ cs = [].

(** ** Example browsers and worlds *)

(** A browser with a clock that ticks at every call, that rejects every
    call it can reject and never fails a storage access. *)
Definition refuse (c : ApiCall) (clock : Z) : ApiResult c :=
  match c as c0 return ApiResult c0 with
  | StorageGetBytesInUse => Threw "unavailable"
  | WindowsGetAll => Threw "unavailable"
  | WindowsGet _ => Threw "unavailable"
  | WindowsCreate _ => Threw "unavailable"
  | TabsCreate _ _ => Threw "unavailable"
  | TabsQuery _ => Threw "unavailable"
  | TabsUpdatePinned _ => Threw "unavailable"
  | TabsUpdateActive _ => Threw "unavailable"
  | TabsGroup _ _ => Threw "unavailable"
  | TabsUngroup _ => Threw "unavailable"
  | TabGroupsGet _ => Threw "unavailable"
  | TabGroupsUpdate _ _ _ _ => Threw "unavailable"
  | DateNow => clock
  | SetTimeout _ => tt
  | LoadActiveGroups => Threw "unavailable"
  | ShowToast _ _ => tt
  end.

Definition idleBrowser : Browser Z :=
  {| answer := fun c clock => (refuse c clock, clock + 1);
     storageFault := fun _ clock => (None, clock) |}.

Definition emptySession (id name : string) (timestamp : Z) : Session.t :=
  {| Session.id := id; Session.name := name; Session.timestamp := timestamp;
     Session.windows := Some []; Session.groups := Some [] |}.

(** Four recovery sessions and one session the user named. *)
Definition demoSessions : list Session.t :=
  [ emptySession "1" "Recovery (1/1/2026, 9:00:00 AM)" 1;
    emptySession "2" "Work" 2;
    emptySession "3" "Recovery (1/1/2026, 9:02:00 AM)" 3;
    emptySession "4" "Recovery (1/1/2026, 9:03:00 AM)" 4;
    emptySession "5" "Recovery (1/1/2026, 9:04:00 AM)" 5 ].

Definition demoWorld : World Z :=
  {| store := {| sessions := Some demoSessions; undoHistory := None; testKey := None |};
     env := 0 |}.

(** Twenty-five undo entries, numbered by their timestamps. *)
Definition demoEntries : list UndoEntry.t :=
  map (fun n => {| UndoEntry.type := "group-by-domain";
                   UndoEntry.timestamp := Z.of_nat n;
                   UndoEntry.previousGroups := [] |})
      (seq 1 25).

(** [saveUndoStateInline] called [n] times in a row. *)
Definition recordTimes (n : nat) : M unit :=
  forEach (seq 0 n) (fun _ _ => saveUndoStateInline "group-by-type" ;; ret tt) tt.

(** Two undo entries recorded for window 1, whose tab 10 was in group 7. *)
Definition demoUndoEntry (timestamp : Z) : UndoEntry.t :=
  {| UndoEntry.type := "group-by-domain";
     UndoEntry.timestamp := timestamp;
     UndoEntry.previousGroups :=
       [ {| WindowState.id := 1;
            WindowState.tabs :=
              [ {| UndoTab.id := 10; UndoTab.url := Some "https://a.example/";
                   UndoTab.title := Some "A"; UndoTab.groupId := Some 7;
                   UndoTab.index := 0; UndoTab.pinned := None |} ];
            WindowState.groups :=
              [ {| UndoGroup.id := 7; UndoGroup.title := Some "Work";
                   UndoGroup.color := "blue"; UndoGroup.collapsed := false;
                   UndoGroup.tabIds := [10] |} ] |} ] |}.

Definition undoWorld : World Z :=
  {| store := {| sessions := None;
                 undoHistory := Some [demoUndoEntry 1; demoUndoEntry 2];
                 testKey := None |};
     env := 0 |}.

(** A browser that finds every window but rejects every other call. *)
Definition findsWindows (c : ApiCall) (clock : Z) : ApiResult c :=
  match c as c0 return ApiResult c0 with
  | WindowsGet windowId => Done {| LiveWindow.id := windowId; LiveWindow.tabs := None |}
  | c0 => refuse c0 clock
  end.

Definition queryFailsBrowser : Browser Z :=
  {| answer := fun c clock => (findsWindows c clock, clock + 1);
     storageFault := fun _ clock => (None, clock) |}.

(** A browser with the given windows open and the given storage use: it
    enumerates the windows, knows every group, and rejects the calls that
    would change anything. *)
Definition showsWindows (windows : list LiveWindow.t) (bytesInUse : Z)
           (c : ApiCall) (clock : Z) : ApiResult c :=
  match c as c0 return ApiResult c0 with
  | StorageGetBytesInUse => Done bytesInUse
  | WindowsGetAll => Done windows
  | TabGroupsGet groupId =>
      Done {| LiveGroup.id := groupId; LiveGroup.title := Some "Work";
              LiveGroup.color := "blue"; LiveGroup.collapsed := false |}
  | c0 => refuse c0 clock
  end.

Definition openBrowser (windows : list LiveWindow.t) (bytesInUse : Z) : Browser Z :=
  {| answer := fun c clock => (showsWindows windows bytesInUse c clock, clock + 1);
     storageFault := fun _ clock => (None, clock) |}.

Definition liveTab (id : Z) (url : option string) (groupId : Z) : LiveTab.t :=
  {| LiveTab.id := id; LiveTab.url := url; LiveTab.pendingUrl := None;
     LiveTab.title := Some "Tab"; LiveTab.pinned := false; LiveTab.active := false;
     LiveTab.groupId := groupId; LiveTab.index := 0 |}.

(** A window whose only tab is an internal page, and a window with two
    grouped tabs, a tab without URL and an ungrouped tab. *)
Definition internalWindow : LiveWindow.t :=
  {| LiveWindow.id := 1;
     LiveWindow.tabs := Some [ liveTab 10 (Some "chrome://extensions/") TAB_ID_NONE ] |}.

Definition workWindow : LiveWindow.t :=
  {| LiveWindow.id := 2;
     LiveWindow.tabs :=
       Some [ liveTab 20 (Some "https://mail.x.com") 7;
              liveTab 21 (Some "https://docs.x.com") 7;
              liveTab 22 None 7;
              liveTab 23 (Some "https://news.x.com") TAB_ID_NONE ] |}.

Definition freshWorld : World Z :=
  {| store := {| sessions := None; undoHistory := None; testKey := None |}; env := 0 |}.

(** A browser whose first fetch of a group is rejected: the clock stands
    at 3 when [captureSession] issues it. *)
Definition fetchFailsOnce (windows : list LiveWindow.t) (c : ApiCall) (clock : Z)
  : ApiResult c :=
  match c as c0 return ApiResult c0 with
  | TabGroupsGet groupId =>
      if Z.leb clock 3 then Threw "No group with id"
      else Done {| LiveGroup.id := groupId; LiveGroup.title := Some "Work";
                   LiveGroup.color := "blue"; LiveGroup.collapsed := false |}
  | c0 => showsWindows windows 0 c0 clock
  end.

Definition flakyBrowser (windows : list LiveWindow.t) : Browser Z :=
  {| answer := fun c clock => (fetchFailsOnce windows c clock, clock + 1);
     storageFault := fun _ clock => (None, clock) |}.

(** A session of two windows with one tab each, and a browser that opens
    the first window and rejects the second. *)
Definition oneTab (url : string) : TabData.t :=
  {| TabData.url := url; TabData.title := "Tab"; TabData.pinned := false;
     TabData.active := false; TabData.originalGroupId := None |}.

Definition twoWindows : Session.t :=
  {| Session.id := "42"; Session.name := "Two windows"; Session.timestamp := 42;
     Session.windows :=
       Some [ {| WindowData.id := 1; WindowData.tabs := Some [oneTab "https://a.example/"] |};
              {| WindowData.id := 2; WindowData.tabs := Some [oneTab "https://b.example/"] |} ];
     Session.groups := Some [] |}.

Definition twoWindowsWorld : World Z :=
  {| store := {| sessions := Some [twoWindows]; undoHistory := None; testKey := None |};
     env := 0 |}.

Definition opensFirstWindowOnly (c : ApiCall) (clock : Z) : ApiResult c :=
  match c as c0 return ApiResult c0 with
  | WindowsCreate url =>
      if String.eqb url "https://a.example/"
      then Done {| LiveWindow.id := 100; LiveWindow.tabs := None |}
      else Threw "Tabs cannot be edited right now."
  | TabsQuery _ => Done [ liveTab 101 (Some "https://a.example/") TAB_ID_NONE ]
  | c0 => refuse c0 clock
  end.

Definition secondWindowFails : Browser Z :=
  {| answer := fun c clock => (opensFirstWindowOnly c clock, clock + 1);
     storageFault := fun _ clock => (None, clock) |}.

(** The same session restored by a browser that opens every window and
    answers every query, but rejects every other change. *)
Definition opensWindows (c : ApiCall) (clock : Z) : ApiResult c :=
  match c as c0 return ApiResult c0 with
  | WindowsCreate url => Done {| LiveWindow.id := 100; LiveWindow.tabs := None |}
  | TabsQuery _ => Done [ liveTab 101 (Some "https://a.example/") TAB_ID_NONE ]
  | c0 => refuse c0 clock
  end.

Definition windowsOnlyBrowser : Browser Z :=
  {| answer := fun c clock => (opensWindows c clock, clock + 1);
     storageFault := fun _ clock => (None, clock) |}.

(** A stored list in which two sessions share an id: a session the user
    named and the oldest recovery session were saved in the same
    millisecond. *)
Definition sharedIdSessions : list Session.t :=
  [ emptySession "1" "Recovery (1/1/2026, 9:00:00 AM)" 1;
    emptySession "1" "Work" 1;
    emptySession "3" "Recovery (1/1/2026, 9:02:00 AM)" 3;
    emptySession "4" "Recovery (1/1/2026, 9:03:00 AM)" 4;
    emptySession "5" "Recovery (1/1/2026, 9:04:00 AM)" 5 ].

(** A stored list into which an export of two recovery sessions was
    imported next to the originals. *)
Definition importedTwice : list Session.t :=
  [ emptySession "3" "Recovery (1/1/2026, 9:02:00 AM)" 3;
    emptySession "4" "Recovery (1/1/2026, 9:03:00 AM)" 4;
    emptySession "3" "Recovery (1/1/2026, 9:02:00 AM)" 3;
    emptySession "4" "Recovery (1/1/2026, 9:03:00 AM)" 4 ].

(** ** utils/sessionManager.js: deleting a session *)

Definition FailedToDelete : string := "Failed to delete session. Please try again.".

(** [deleteSession(sessionId)], lines 440-449. *)
Definition deleteSession (sessionId : string) : M unit :=
  tryCatch
    (sessions <- getAllSessions ;;
     let filtered := filter (fun s => negb (String.eqb (Session.id s) sessionId)) sessions in
     await (Store (SetSessions filtered)))
    (fun _ => throw FailedToDelete).

(** ** The popup: what it shows of a session *)

(** [days > 1 ? 's' : ''] *)
Definition plural (n : Z) : string := if Z.gtb n 1 then "s" else EmptyString.

(** [formatTimestamp(timestamp)], lines 571-588; [now] is what its
    [Date.now()] reads. *)
Definition formatTimestamp (now timestamp : Z) : string :=
  let diff := now - timestamp in
  let seconds := diff / 1000 in
  let minutes := seconds / 60 in
  let hours := minutes / 66 in
  let days := hours / 24 in
  if Z.gtb days 0 then toString days ++ " day" ++ plural days ++ " ago"
  else if Z.gtb hours 0 then toString hours ++ " hour" ++ plural hours ++ " ago"
  else if Z.gtb minutes 0 then toString minutes ++ " minute" ++ plural minutes ++ " ago"
  else "Just now".

(** [countSessionTabs(session)], lines 595-601. *)
Definition countSessionTabs (session : Session.t) : nat :=
  fold_left
    (fun count window =>
       (count + List.length (match WindowData.tabs window with
                             | Some tabs => tabs
                             | None => []
                             end))%nat)
    (match Session.windows session with Some windows => windows | None => [] end)
    0%nat.

(** ** Sessions, as the properties speak of them *)

(** The sessions saved at time [t]. *)
Definition savedAt (t : Z) (s : Session.t) : bool := Z.eqb (Session.timestamp s) t.

(** The sessions whose id is not [sessionId]: the filter of line 443. *)
Definition otherThan (sessionId : string) (s : Session.t) : bool :=
  negb (String.eqb (Session.id s) sessionId).

(** The tabs a capture keeps. *)
Definition kept_tab (tab : LiveTab.t) : bool := negb (skipped tab).

(** [windowData.tabs] is set. *)
Definition hasTabList (windowData : WindowData.t) : bool :=
  match WindowData.tabs windowData with Some _ => true | None => false end.

(** ** What a restore may ask of the browser *)

(** The calls [restoreWindow] can issue once the tabs are requested: the
    polling of [waitForTabs]; pinning and activating tabs; grouping a
    non-empty list of tabs in a given window and naming the group. *)
Definition settlesWindow (c : Call) : Prop :=
  match c with
  | Api (TabsQuery _) | Api DateNow => True
  | Api (SetTimeout ms) => ms = 200
  | Api (TabsUpdatePinned _) | Api (TabsUpdateActive _) => True
  | Api (TabsGroup tabIds windowId) => tabIds <> [] /\ windowId <> None
  | Api (TabGroupsUpdate _ title color _) => truthyOpt title = true /\ truthy color = true
  | _ => False
  end.

(** The calls [restoreSession] can issue: one read of the session list;
    windows and tabs opened on restorable URLs; and the calls above. *)
Definition restoreCall (c : Call) : Prop :=
  match c with
  | Store GetSessions => True
  | Api (WindowsCreate url) => restorableUrl url = true
  | Api (TabsCreate _ url) => restorableUrl url = true
  | _ => settlesWindow c
  end.

(** The URLs a run asked the browser to open, in order. *)
Definition openedUrls (cs : list Call) : list string :=
  flat_map (fun c => match c with
                     | Api (WindowsCreate url) => [url]
                     | Api (TabsCreate _ url) => [url]
                     | _ => []
                     end) cs.

(** The URLs of a session that a restore opens: window by window, those
    that pass the filter of line 323. *)
Definition restorableUrlsOf (windows : list WindowData.t) : list string :=
  flat_map (fun windowData =>
              match WindowData.tabs windowData with
              | Some tabs => filter restorableUrl (map TabData.url tabs)
              | None => []
              end) windows.

(** The calls [restoreGroups] can issue in a window whose tabs are
    [updatedTabs]: grouping, in that window, tabs of the window that are
    not pinned; and naming a group. *)
Definition groupsUnpinnedTabs (updatedTabs : list LiveTab.t) (windowId : Z) (c : Call) : Prop :=
  match c with
  | Api (TabsGroup tabIds target) =>
      target = Some windowId /\ tabIds <> [] /\
      forall tabId, In tabId tabIds ->
                    exists tab, In tab updatedTabs /\ LiveTab.id tab = tabId /\
                                LiveTab.pinned tab = false
  | Api (TabGroupsUpdate _ _ _ _) => True
  | _ => False
  end.

(** The records that the loop of lines 412-420 can act on: marked active,
    with a tab that [findTabByUrl] finds for them. *)
Definition activatable (parseURL : string -> option (string * string * string))
           (updatedTabs : list LiveTab.t) (originalTab : TabData.t) : bool :=
  TabData.active originalTab &&
  match findTabByUrl parseURL updatedTabs (TabData.url originalTab) with
  | Some _ => true
  | None => false
  end.

(** ** Waiting for the tabs of a new window, as the properties speak of it *)

(** The calls of [waitForTabs]: queries of the window, the clock, and
    timers of 200 ms. *)
Definition pollsWindow (windowId : Z) (c : Call) : Prop :=
  c = Api (TabsQuery windowId) \/ c = Api DateNow \/ c = Api (SetTimeout 200).

(** The test of lines 230-236: all the expected tabs are there, each with a
    URL or a pending URL. *)
Definition allTabsThere (expectedCount : nat) (tabs : list LiveTab.t) : bool :=
  Nat.leb expectedCount (List.length tabs) &&
  Nat.leb expectedCount
          (List.length (filter (fun tab => truthyOpt (LiveTab.url tab) ||
                                           truthyOpt (LiveTab.pendingUrl tab)) tabs)).

(** One round of the loop: the clock, a query, a timer. *)
Definition pollRound (windowId : Z) : list Call :=
  [Api DateNow; Api (TabsQuery windowId); Api (SetTimeout 200)].

(** ** The groups of a window, as an undo entry records them *)

(** The ids of the tabs of [tabs] that belong to group [groupId]. *)
Definition memberIds (groupId : Z) (tabs : list LiveTab.t) : list Z :=
  map LiveTab.id (filter (fun t => Z.eqb (LiveTab.groupId t) groupId) tabs).

(** The groups of a window, in the order in which its tabs first show
    them. *)
Definition groupIdsOf (tabs : list LiveTab.t) : list Z :=
  setOf (filter (fun g => negb (Z.eqb g TAB_ID_NONE)) (map LiveTab.groupId tabs)).

(** ** Further example browsers and worlds *)

(** A browser that enumerates one window and whose storage never fails. *)
Definition undoBrowser : Browser Z := openBrowser [workWindow] 0.

(** A browser whose reads of the session list are rejected. *)
Definition readsFail : Browser Z :=
  {| answer := fun c clock => (refuse c clock, clock + 1);
     storageFault := fun op clock =>
       (match op with GetSessions => Some "storage unavailable" | _ => None end, clock) |}.

(** A browser that rejects the write of the probe key. *)
Definition probeFails : Browser Z :=
  {| answer := fun c clock => (showsWindows [workWindow] 0 c clock, clock + 1);
     storageFault := fun op clock =>
       (match op with SetTest => Some "Extension context invalidated." | _ => None end,
        clock) |}.

(** A browser whose clock stands still and whose windows show one tab. *)
Definition stillBrowser : Browser unit :=
  {| answer := fun c _ => (opensWindows c 0, tt);
     storageFault := fun _ _ => (None, tt) |}.

Definition stillWorld : World unit :=
  {| store := {| sessions := None; undoHistory := None; testKey := None |}; env := tt |}.

(** A session as an imported file can hold it: a group, and a window
    without tabs. *)
Definition groupsOnly : Session.t :=
  {| Session.id := "7"; Session.name := "Imported"; Session.timestamp := 7;
     Session.windows := Some [ {| WindowData.id := 1; WindowData.tabs := Some [] |} ];
     Session.groups :=
       Some [ {| GroupData.originalId := 3; GroupData.title := "Work";
                 GroupData.color := "blue"; GroupData.collapsed := false;
                 GroupData.tabUrls := Some ["https://a.example/"] |} ] |}.

Definition groupsOnlyWorld : World Z :=
  {| store := {| sessions := Some [groupsOnly]; undoHistory := None; testKey := None |};
     env := 0 |}.

(** A browser like the last, whose windows show no tab. *)
Definition showsNoTab (c : ApiCall) (clock : Z) : ApiResult c :=
  match c as c0 return ApiResult c0 with
  | TabsQuery _ => Done []
  | c0 => opensWindows c0 clock
  end.

Definition emptyStillBrowser : Browser unit :=
  {| answer := fun c _ => (showsNoTab c 0, tt);
     storageFault := fun _ _ => (None, tt) |}.

(** The time a call takes: a timer its delay, any other call a
    millisecond. *)
Definition elapsed (c : ApiCall) : Z :=
  match c with
  | SetTimeout ms => Z.max ms 0
  | _ => 1
  end.

(** A browser whose clock ticks, and that opens every window and answers
    every query but rejects every other change. *)
Definition tickingBrowser : Browser Z :=
  {| answer := fun c clock => (opensWindows c clock, clock + elapsed c);
     storageFault := fun _ clock => (None, clock) |}.

(** A stored list with a session of two windows and a session without
    windows. *)
Definition restoreWorld : World Z :=
  {| store := {| sessions := Some [twoWindows; emptySession "9" "Empty" 9];
                 undoHistory := None; testKey := None |};
     env := 0 |}.

(** A browser whose clock ticks and whose windows never show a tab. *)
Definition slowBrowser : Browser Z :=
  {| answer := fun c clock => (showsNoTab c clock, clock + elapsed c);
     storageFault := fun _ clock => (None, clock) |}.

(** A browser that rejects the creation of every window, with a message
    that holds one of the three phrases. *)
Definition rejectsUrls (c : ApiCall) (clock : Z) : ApiResult c :=
  match c as c0 return ApiResult c0 with
  | WindowsCreate url => Threw ("Invalid url: " ++ url)
  | c0 => refuse c0 clock
  end.

Definition invalidUrlBrowser : Browser Z :=
  {| answer := fun c clock => (rejectsUrls c clock, clock + 1);
     storageFault := fun _ clock => (None, clock) |}.

(** A session as the background worker stores it: its group has no list
    of URLs. *)
Definition workerSession : Session.t :=
  {| Session.id := "5"; Session.name := "Auto-save"; Session.timestamp := 5;
     Session.windows :=
       Some [ {| WindowData.id := 1; WindowData.tabs := Some [oneTab "https://a.example/"] |} ];
     Session.groups :=
       Some [ {| GroupData.originalId := 3; GroupData.title := "Work";
                 GroupData.color := "blue"; GroupData.collapsed := false;
                 GroupData.tabUrls := None |} ] |}.

Definition workerWorld : World Z :=
  {| store := {| sessions := Some [workerSession]; undoHistory := None; testKey := None |};
     env := 0 |}.

(** What [new URL] gives for a plain http or https URL, without port or
    credentials: the hostname runs up to the path, the path up to the
    query, the query up to the fragment; any other string is rejected. *)
Fixpoint upTo (stops : list ascii) (s : string) : string * string :=
  match s with
  | EmptyString => (EmptyString, EmptyString)
  | String c rest =>
      if existsb (Ascii.eqb c) stops then (EmptyString, s)
      else let (before, from) := upTo stops rest in (String c before, from)
  end.

Definition afterScheme (url : string) : option string :=
  if startsWith url "https://" then Some (substring 8 (String.length url - 8) url)
  else if startsWith url "http://" then Some (substring 7 (String.length url - 7) url)
  else None.

Definition plainHttpUrl (url : string) : option (string * string * string) :=
  match afterScheme url with
  | None => None
  | Some rest =>
      let (hostname, fromPath) := upTo ["/"; "?"; "#"]%char rest in
      let (pathname, fromQuery) := upTo ["?"; "#"]%char fromPath in
      let (search, _) := upTo ["#"]%char fromQuery in
      if truthy hostname
      then Some (hostname, if truthy pathname then pathname else "/", search)
      else None
  end.

(** A tab that is still loading [url]. *)
Definition pendingTab (id : Z) (url : string) : LiveTab.t :=
  {| LiveTab.id := id; LiveTab.url := Some EmptyString; LiveTab.pendingUrl := Some url;
     LiveTab.title := Some "Loading"; LiveTab.pinned := false; LiveTab.active := false;
     LiveTab.groupId := TAB_ID_NONE; LiveTab.index := 0 |}.

(** Three tabs: a settled one, one that loaded a page over http and
    scrolled to a fragment, and one that is still loading. *)
Definition browsingTabs : list LiveTab.t :=
  [ liveTab 30 (Some "https://example.com/b") TAB_ID_NONE;
    liveTab 31 (Some "http://example.com/a?x=1#top") TAB_ID_NONE;
    pendingTab 32 "https://example.com/a" ].

(** A browser like [windowsOnlyBrowser] that also groups tabs, always in
    group 55. *)
Definition groupsTabs (c : ApiCall) (clock : Z) : ApiResult c :=
  match c as c0 return ApiResult c0 with
  | TabsGroup _ _ => Done 55
  | c0 => opensWindows c0 clock
  end.

Definition groupingBrowser : Browser Z :=
  {| answer := fun c clock => (groupsTabs c clock, clock + 1);
     storageFault := fun _ clock => (None, clock) |}.

(** What an undo entry records of a window whose tab 10, on [url], was in
    group 7. *)
Definition demoWindowState (windowId : Z) (url : string) : WindowState.t :=
  {| WindowState.id := windowId;
     WindowState.tabs :=
       [ {| UndoTab.id := 10; UndoTab.url := Some url;
            UndoTab.title := Some "A"; UndoTab.groupId := Some 7;
            UndoTab.index := 0; UndoTab.pinned := None |} ];
     WindowState.groups := [] |}.

Definition demoGroup : UndoGroup.t :=
  {| UndoGroup.id := 7; UndoGroup.title := Some "Work";
     UndoGroup.color := "blue"; UndoGroup.collapsed := false;
     UndoGroup.tabIds := [10] |}.

(** * Properties *)

(** ** Runs *)

Section RunFacts.

Variable E : Type.
Variable b : Browser E.

Lemma run_bind (A B : Type) (p : Prog A) (f : A -> Prog B) (w : World E) :
  run b (bind p f) w =
  {| value := value (run b (f (value (run b p w))) (world (run b p w)));
     world := world (run b (f (value (run b p w))) (world (run b p w)));
     calls := calls (run b p w) ++ calls (run b (f (value (run b p w))) (world (run b p w))) |}.
Proof.
  revert w. induction p as [a | c k IH]; intro w; simpl.
  - destruct (run b (f a) w); reflexivity.
  - rewrite IH. reflexivity.
Qed.

Lemma run_ret (A : Type) (a : A) (w : World E) :
  run b (ret a) w = {| value := Done a; world := w; calls := [] |}.
Proof. reflexivity. Qed.

Lemma run_throw (A : Type) (m : string) (w : World E) :
  run b (@throw A m) w = {| value := Threw m; world := w; calls := [] |}.
Proof. reflexivity. Qed.

(** A sequence whose first part completes. *)
Lemma run_bindM_Done (A B : Type) (p : M A) (f : A -> M B) (w : World E) (a : A) :
  value (run b p w) = Done a ->
  run b (bindM p f) w =
  {| value := value (run b (f a) (world (run b p w)));
     world := world (run b (f a) (world (run b p w)));
     calls := calls (run b p w) ++ calls (run b (f a) (world (run b p w))) |}.
Proof. intro H. unfold bindM. rewrite run_bind, H. reflexivity. Qed.

(** A sequence whose first part throws. *)
Lemma run_bindM_Threw (A B : Type) (p : M A) (f : A -> M B) (w : World E) (m : string) :
  value (run b p w) = Threw m ->
  run b (bindM p f) w =
  {| value := Threw m; world := world (run b p w); calls := calls (run b p w) |}.
Proof.
  intro H. unfold bindM. rewrite run_bind, H. simpl. now rewrite app_nil_r.
Qed.

Lemma run_tryCatch_Done (A : Type) (p : M A) (h : string -> M A) (w : World E) (a : A) :
  value (run b p w) = Done a ->
  run b (tryCatch p h) w =
  {| value := Done a; world := world (run b p w); calls := calls (run b p w) |}.
Proof.
  intro H. unfold tryCatch. rewrite run_bind, H. simpl. now rewrite app_nil_r.
Qed.

Lemma run_tryCatch_Threw (A : Type) (p : M A) (h : string -> M A) (w : World E) (m : string) :
  value (run b p w) = Threw m ->
  run b (tryCatch p h) w =
  {| value := value (run b (h m) (world (run b p w)));
     world := world (run b (h m) (world (run b p w)));
     calls := calls (run b p w) ++ calls (run b (h m) (world (run b p w))) |}.
Proof. intro H. unfold tryCatch. rewrite run_bind, H. reflexivity. Qed.

(** A sequence and a [try], by the completion of their first part. *)
Lemma run_bindM_cases (A B : Type) (p : M A) (f : A -> M B) (w : World E) :
  run b (bindM p f) w =
  match value (run b p w) with
  | Done a =>
      {| value := value (run b (f a) (world (run b p w)));
         world := world (run b (f a) (world (run b p w)));
         calls := calls (run b p w) ++ calls (run b (f a) (world (run b p w))) |}
  | Threw m =>
      {| value := Threw m; world := world (run b p w); calls := calls (run b p w) |}
  end.
Proof.
  destruct (value (run b p w)) as [a | m] eqn:V;
    [apply run_bindM_Done | apply run_bindM_Threw]; exact V.
Qed.

Lemma run_tryCatch_cases (A : Type) (p : M A) (h : string -> M A) (w : World E) :
  run b (tryCatch p h) w =
  match value (run b p w) with
  | Done a =>
      {| value := Done a; world := world (run b p w); calls := calls (run b p w) |}
  | Threw m =>
      {| value := value (run b (h m) (world (run b p w)));
         world := world (run b (h m) (world (run b p w)));
         calls := calls (run b p w) ++ calls (run b (h m) (world (run b p w))) |}
  end.
Proof.
  destruct (value (run b p w)) as [a | m] eqn:V;
    [apply run_tryCatch_Done | apply run_tryCatch_Threw]; exact V.
Qed.

Lemma run_perform (A : Type) (p : Prog A) (w : World E) :
  run b (perform p) w =
  {| value := Done (value (run b p w)); world := world (run b p w); calls := calls (run b p w) |}.
Proof. unfold perform. rewrite run_bind. simpl. now rewrite app_nil_r. Qed.

Lemma run_await (c : Call) (w : World E) :
  run b (await c) w =
  {| value := fst (exec b c w); world := snd (exec b c w); calls := [c] |}.
Proof. reflexivity. Qed.

(** An [Api] call leaves the storage alone. *)
Lemma exec_Api (a : ApiCall) (w : World E) :
  exec b (Api a) w
  = (fst (answer b a (env w)), {| store := store w; env := snd (answer b a (env w)) |}).
Proof. unfold exec. destruct (answer b a (env w)); reflexivity. Qed.

Lemma exec_Api_store (a : ApiCall) (w : World E) :
  store (snd (exec b (Api a) w)) = store w.
Proof. unfold exec. destruct (answer b a (env w)); reflexivity. Qed.

End RunFacts.

(** ** Programs confined to a class of calls *)

Lemma Uses_bind (P : Call -> Prop) (A B : Type) (p : Prog A) (f : A -> Prog B) :
  Uses P p -> (forall a, Uses P (f a)) -> Uses P (bind p f).
Proof.
  intros Hp Hf. induction Hp as [a | c k Hc Hk IH]; simpl.
  - apply Hf.
  - constructor; assumption.
Qed.

Lemma Uses_ret (P : Call -> Prop) (A : Type) (a : A) : Uses P (ret a).
Proof. constructor. Qed.

Lemma Uses_throw (P : Call -> Prop) (A : Type) (m : string) : Uses P (@throw A m).
Proof. constructor. Qed.

Lemma Uses_await (P : Call -> Prop) (c : Call) : P c -> Uses P (await c).
Proof. intro H. constructor; [assumption | intro r; constructor]. Qed.

Lemma Uses_bindM (P : Call -> Prop) (A B : Type) (p : M A) (f : A -> M B) :
  Uses P p -> (forall a, Uses P (f a)) -> Uses P (bindM p f).
Proof.
  intros Hp Hf. apply Uses_bind; [assumption |].
  intros [a | m]; [apply Hf | constructor].
Qed.

Lemma Uses_tryCatch (P : Call -> Prop) (A : Type) (p : M A) (h : string -> M A) :
  Uses P p -> (forall m, Uses P (h m)) -> Uses P (tryCatch p h).
Proof.
  intros Hp Hh. apply Uses_bind; [assumption |].
  intros [a | m]; [constructor | apply Hh].
Qed.

Lemma Uses_perform (P : Call -> Prop) (A : Type) (p : Prog A) :
  Uses P p -> Uses P (perform p).
Proof. intro Hp. apply Uses_bind; [assumption | intro; constructor]. Qed.

Lemma Uses_forEach (P : Call -> Prop) (X S : Type) (items : list X)
      (body : X -> S -> M S) (s : S) :
  (forall x s', Uses P (body x s')) -> Uses P (forEach items body s).
Proof.
  intro Hb. revert s. induction items as [|x rest IH]; intro s; simpl.
  - constructor.
  - apply Uses_bindM; [apply Hb | intro; apply IH].
Qed.

Lemma Uses_calls (P : Call -> Prop) (E : Type) (b : Browser E) (A : Type)
      (p : Prog A) (w : World E) :
  Uses P p -> Forall P (calls (run b p w)).
Proof.
  intro Hp. revert w. induction Hp as [a | c k Hc Hk IH]; intro w; simpl.
  - constructor.
  - constructor; [assumption | apply IH].
Qed.

(** A program that only talks to the browser leaves every storage key as
    it was. *)
Lemma Uses_isApi_store (E : Type) (b : Browser E) (A : Type) (p : Prog A) (w : World E) :
  Uses isApi p -> store (world (run b p w)) = store w.
Proof.
  intro Hp. revert w. induction Hp as [a | c k Hc Hk IH]; intro w; simpl.
  - reflexivity.
  - rewrite IH. destruct c as [op | a]; [contradiction | apply exec_Api_store].
Qed.

Create HintDb uses.
#[local] Hint Resolve Uses_ret Uses_throw Uses_bindM Uses_tryCatch Uses_perform
  Uses_forEach Uses_await : uses.

(** ** Identity reconciliation *)

Lemma sameUrl_iff (o : option string) (targetUrl : string) :
  sameUrl o targetUrl = true <-> o = Some targetUrl.
Proof.
  destruct o as [u|]; simpl.
  - rewrite String.eqb_eq. split; [intros -> | intros [= ->]]; reflexivity.
  - split; discriminate.
Qed.

(** [tabs.find(pred)] finds a tab as soon as one satisfies [pred]. *)
Lemma find_exists (A : Type) (pred : A -> bool) (l : list A) :
  (exists x, In x l /\ pred x = true) ->
  exists y, find pred l = Some y /\ In y l /\ pred y = true.
Proof.
  intros [x [Hin Hp]]. destruct (find pred l) as [y|] eqn:F.
  - exists y. apply find_some in F. tauto.
  - exfalso. apply (find_none _ _ F) in Hin. congruence.
Qed.

Lemma find_absent (A : Type) (pred : A -> bool) (l : list A) :
  (forall x, In x l -> pred x <> true) -> find pred l = None.
Proof.
  intro H. destruct (find pred l) as [y|] eqn:F; [| reflexivity].
  apply find_some in F. destruct F as [Hin Hp]. now apply H in Hin.
Qed.

Lemma settledOrPending_cases (t : LiveTab.t) :
  settledOrPending t
  = match LiveTab.url t, LiveTab.pendingUrl t with
    | Some (String c u), _ => String c u
    | _, Some (String c p) => String c p
    | _, _ => EmptyString
    end.
Proof.
  unfold settledOrPending, orElse.
  destruct (LiveTab.url t) as [[|c u]|]; destruct (LiveTab.pendingUrl t) as [[|d p]|];
    reflexivity.
Qed.

(** C6.  [findTabByUrl] follows the three-tier chain: a tab whose [url]
    equals the recorded URL if there is one; otherwise a tab whose
    [pendingUrl] equals it; otherwise a tab whose normalized URL equals the
    normalized recorded URL; otherwise nothing.  The normalization of a
    string is the hostname, path and query that the URL parser gives for
    it, and the string itself when it does not parse; the URL of a tab is
    its settled [url], its [pendingUrl] when that is unset or empty, and
    the empty string when both are.  So, when no tab matches exactly, a tab
    whose URL parses to the hostname, path and query of the recorded URL
    makes the third tier find a tab, whatever their schemes and fragments.
    In particular the record https://example.com/a is matched to a live
    tab whose [pendingUrl] is that string when no tab has it as settled
    [url]. *)
Theorem findTabByUrl_fallback_chain
        (parseURL : string -> option (string * string * string))
        (tabs : list LiveTab.t) (targetUrl : string) :
  let exact t := LiveTab.url t = Some targetUrl in
  let pending t := LiveTab.pendingUrl t = Some targetUrl in
  let hostPathQuery url :=
    match parseURL url with
    | Some (hostname, pathname, search) => hostname ++ pathname ++ search
    | None => url
    end in
  let urlOfTab t :=
    match LiveTab.url t, LiveTab.pendingUrl t with
    | Some (String c u), _ => String c u
    | _, Some (String c p) => String c p
    | _, _ => EmptyString
    end in
  let normalized t := hostPathQuery (urlOfTab t) = hostPathQuery targetUrl in
  let found := findTabByUrl parseURL tabs targetUrl in
  ((exists t, In t tabs /\ exact t) ->
   exists t, found = Some t /\ In t tabs /\ exact t) /\
  ((forall t, In t tabs -> ~ exact t) ->
   (exists t, In t tabs /\ pending t) ->
   exists t, found = Some t /\ In t tabs /\ pending t) /\
  ((forall t, In t tabs -> ~ exact t) ->
   (forall t, In t tabs -> ~ pending t) ->
   (exists t, In t tabs /\ normalized t) ->
   exists t, found = Some t /\ In t tabs /\ normalized t) /\
  ((forall t, In t tabs -> ~ exact t) ->
   (forall t, In t tabs -> ~ pending t) ->
   (forall t, In t tabs -> ~ normalized t) ->
   found = None) /\
  (forall t hostname pathname search,
      (forall t', In t' tabs -> ~ exact t') ->
      (forall t', In t' tabs -> ~ pending t') ->
      In t tabs ->
      parseURL (urlOfTab t) = Some (hostname, pathname, search) ->
      parseURL targetUrl = Some (hostname, pathname, search) ->
      exists t', found = Some t' /\ In t' tabs /\
                 hostPathQuery (urlOfTab t') = hostname ++ pathname ++ search) /\
  ((forall t, In t tabs -> LiveTab.url t <> Some "https://example.com/a") ->
   (exists t, In t tabs /\ LiveTab.pendingUrl t = Some "https://example.com/a") ->
   exists t, findTabByUrl parseURL tabs "https://example.com/a" = Some t /\
             In t tabs /\ LiveTab.pendingUrl t = Some "https://example.com/a").
Proof.
  assert (chain2 : forall target,
    (forall t, In t tabs -> LiveTab.url t <> Some target) ->
    (exists t, In t tabs /\ LiveTab.pendingUrl t = Some target) ->
    exists t, findTabByUrl parseURL tabs target = Some t /\
              In t tabs /\ LiveTab.pendingUrl t = Some target).
  { intros target Hno [t [Hin Hp]]. unfold findTabByUrl.
    rewrite find_absent.
    - destruct (find_exists (fun t => sameUrl (LiveTab.pendingUrl t) target) tabs)
        as [y [Fy [Hy Py]]].
      + exists t. split; [assumption | now apply sameUrl_iff].
      + rewrite Fy. exists y. repeat split; [assumption | now apply sameUrl_iff].
    - intros x Hx Hc. apply sameUrl_iff in Hc. now apply (Hno x). }
  assert (chain3 :
    (forall t, In t tabs -> LiveTab.url t <> Some targetUrl) ->
    (forall t, In t tabs -> LiveTab.pendingUrl t <> Some targetUrl) ->
    (exists t, In t tabs /\
               normalizeUrl parseURL (settledOrPending t) = normalizeUrl parseURL targetUrl) ->
    exists t, findTabByUrl parseURL tabs targetUrl = Some t /\ In t tabs /\
              normalizeUrl parseURL (settledOrPending t) = normalizeUrl parseURL targetUrl).
  { intros Hno1 Hno2 [t [Hin Hn]]. unfold findTabByUrl.
    rewrite find_absent, find_absent.
    + destruct (find_exists
                  (fun t => String.eqb (normalizeUrl parseURL (settledOrPending t))
                                       (normalizeUrl parseURL targetUrl)) tabs)
        as [y [Fy [Hy Py]]].
      * exists t. split; [assumption | now apply String.eqb_eq].
      * exists y. repeat split; [assumption | assumption | now apply String.eqb_eq].
    + intros x Hx Hc. apply sameUrl_iff in Hc. now apply (Hno2 x).
    + intros x Hx Hc. apply sameUrl_iff in Hc. now apply (Hno1 x). }
  intros exact pending hostPathQuery urlOfTab normalized found.
  assert (Hshown : forall t, urlOfTab t = settledOrPending t)
    by (intro t; symmetry; apply settledOrPending_cases).
  assert (Hnorm : forall url, hostPathQuery url = normalizeUrl parseURL url)
    by (intro url; unfold hostPathQuery, normalizeUrl;
        destruct (parseURL url) as [[[h p] q]|]; reflexivity).
  subst exact pending normalized found. cbv beta.
  repeat apply conj.
  - intros [t [Hin Hx]]. unfold findTabByUrl.
    destruct (find_exists (fun t => sameUrl (LiveTab.url t) targetUrl) tabs)
      as [y [Fy [Hy Py]]].
    + exists t. split; [assumption | now apply sameUrl_iff].
    + rewrite Fy. exists y. repeat split; [assumption | now apply sameUrl_iff].
  - apply chain2.
  - intros Hno1 Hno2 [t [Hin Hn]].
    destruct (chain3 Hno1 Hno2) as [y [Fy [Hy Ny]]].
    + exists t. split; [assumption |]. now rewrite <- Hshown, <- !Hnorm.
    + exists y. repeat split; [assumption | assumption |]. now rewrite Hshown, !Hnorm.
  - intros Hno1 Hno2 Hno3. unfold findTabByUrl.
    rewrite find_absent, find_absent.
    + apply find_absent. intros x Hx Hc. apply String.eqb_eq in Hc.
      apply (Hno3 x Hx). now rewrite Hshown, !Hnorm.
    + intros x Hx Hc. apply sameUrl_iff in Hc. now apply (Hno2 x).
    + intros x Hx Hc. apply sameUrl_iff in Hc. now apply (Hno1 x).
  - intros t hostname pathname search Hno1 Hno2 Hin Ht Htarget.
    destruct (chain3 Hno1 Hno2) as [y [Fy [Hy Ny]]].
    + exists t. split; [assumption |]. rewrite <- Hshown.
      unfold normalizeUrl. now rewrite Ht, Htarget.
    + exists y. repeat split; [assumption | assumption |].
      rewrite Hshown, Hnorm, Ny. unfold normalizeUrl. now rewrite Htarget.
  - apply chain2.
Qed.

(** The witness of C6: a tab that loaded the recorded page over http and
    scrolled to a fragment is found in the third tier; so is a tab that is
    still loading it. *)
Lemma findTabByUrl_fallback_chain_witness :
  (exists t, findTabByUrl plainHttpUrl browsingTabs "https://example.com/a?x=1" = Some t /\
             In t browsingTabs /\
             match plainHttpUrl (match LiveTab.url t, LiveTab.pendingUrl t with
                                 | Some (String c u), _ => String c u
                                 | _, Some (String c p) => String c p
                                 | _, _ => EmptyString
                                 end) with
             | Some (hostname, pathname, search) => hostname ++ pathname ++ search
             | None => EmptyString
             end = "example.com/a?x=1") /\
  (exists t, findTabByUrl plainHttpUrl browsingTabs "https://example.com/a" = Some t /\
             In t browsingTabs /\ LiveTab.pendingUrl t = Some "https://example.com/a").
Proof.
  split.
  - destruct (findTabByUrl_fallback_chain plainHttpUrl browsingTabs "https://example.com/a?x=1")
      as [_ [_ [_ [_ [Hthird _]]]]].
    destruct (Hthird (liveTab 31 (Some "http://example.com/a?x=1#top") TAB_ID_NONE)
                     "example.com" "/a" "?x=1") as [t [Hfound [Hin Hnorm]]].
    + intros t' [<- | [<- | [<- | []]]]; discriminate.
    + intros t' [<- | [<- | [<- | []]]]; discriminate.
    + right. left. reflexivity.
    + reflexivity.
    + reflexivity.
    + exists t. split; [exact Hfound |]. split; [exact Hin |].
      destruct Hin as [<- | [<- | [<- | []]]]; try reflexivity; discriminate Hfound.
  - destruct (findTabByUrl_fallback_chain plainHttpUrl browsingTabs "https://example.com/a")
      as [_ [_ [_ [_ [_ Hexample]]]]].
    apply Hexample.
    + intros t' [<- | [<- | [<- | []]]]; discriminate.
    + exists (pendingTab 32 "https://example.com/a"). split; [| reflexivity].
      right. right. left. reflexivity.
Defined.

(** The three tiers, the failure of all three, and a string that is no
    URL, which is compared as it is. *)
Example findTabByUrl_tiers :
  option_map LiveTab.id (findTabByUrl plainHttpUrl browsingTabs "https://example.com/b")
  = Some 30 /\
  option_map LiveTab.id (findTabByUrl plainHttpUrl browsingTabs "https://example.com/a")
  = Some 32 /\
  option_map LiveTab.id (findTabByUrl plainHttpUrl browsingTabs "https://example.com/a?x=1")
  = Some 31 /\
  option_map LiveTab.id (findTabByUrl plainHttpUrl browsingTabs "ftp://example.com/b")
  = None /\
  option_map LiveTab.id (findTabByUrl plainHttpUrl browsingTabs "https://example.com/c")
  = None /\
  option_map LiveTab.id
    (findTabByUrl plainHttpUrl [liveTab 33 None TAB_ID_NONE] EmptyString)
  = Some 33.
Proof. vm_compute. repeat split. Qed.

(** ** Sorting *)

Section SortFacts.

Variable A : Type.
Variable compareFn : A -> A -> Z.

Lemma sortInsert_perm (a : A) (l : list A) :
  Permutation (sortInsert compareFn a l) (a :: l).
Proof.
  induction l as [|x l IH]; simpl.
  - apply Permutation_refl.
  - destruct (Z.gtb (compareFn a x) 0).
    + eapply perm_trans; [apply perm_skip, IH | apply perm_swap].
    + apply Permutation_refl.
Qed.

Lemma sort_perm (l : list A) : Permutation (sort compareFn l) l.
Proof.
  induction l as [|a l IH]; simpl.
  - constructor.
  - eapply perm_trans; [apply sortInsert_perm | now apply perm_skip].
Qed.

Lemma sort_In (l : list A) (x : A) : In x (sort compareFn l) <-> In x l.
Proof.
  split; apply Permutation_in; [| apply Permutation_sym]; apply sort_perm.
Qed.

Lemma sort_length (l : list A) : List.length (sort compareFn l) = List.length l.
Proof. apply Permutation_length, sort_perm. Qed.

End SortFacts.

Lemma Permutation_filter (A : Type) (f : A -> bool) (l l' : list A) :
  Permutation l l' -> Permutation (filter f l) (filter f l').
Proof.
  induction 1 as [| x l l' H IH | x y l | l l' l'' H1 IH1 H2 IH2]; simpl.
  - constructor.
  - destruct (f x); [now apply perm_skip | assumption].
  - destruct (f x), (f y); try apply Permutation_refl. apply perm_swap.
  - eapply perm_trans; eassumption.
Qed.

Lemma filter_comm (A : Type) (f g : A -> bool) (l : list A) :
  filter f (filter g l) = filter g (filter f l).
Proof.
  induction l as [|x l IH]; simpl; [reflexivity |].
  destruct (f x) eqn:Hf, (g x) eqn:Hg; simpl; rewrite ?Hf, ?Hg, IH; reflexivity.
Qed.

Lemma filter_all (A : Type) (f : A -> bool) (l : list A) :
  (forall x, In x l -> f x = true) -> filter f l = l.
Proof.
  induction l as [|x l IH]; simpl; intro H; [reflexivity |].
  rewrite (H x (or_introl eq_refl)), IH; [reflexivity | auto].
Qed.

Lemma filter_none (A : Type) (f : A -> bool) (l : list A) :
  (forall x, In x l -> f x = false) -> filter f l = [].
Proof.
  induction l as [|x l IH]; simpl; intro H; [reflexivity |].
  rewrite (H x (or_introl eq_refl)). auto.
Qed.

Lemma sortInsert_newestFirst (a : Session.t) (l : list Session.t) :
  StronglySorted notOlder l -> StronglySorted notOlder (sortInsert newestFirst a l).
Proof.
  induction 1 as [| x l Hs IH Hx]; simpl.
  - repeat constructor.
  - unfold newestFirst at 1. destruct (Z.gtb_spec (Session.timestamp x - Session.timestamp a) 0).
    + constructor; [assumption |].
      eapply Permutation_Forall; [apply Permutation_sym, sortInsert_perm |].
      constructor; [unfold notOlder; lia | assumption].
    + constructor; [now constructor |].
      constructor; [unfold notOlder; lia |].
      eapply Forall_impl; [| exact Hx]. unfold notOlder. intros; lia.
Qed.

Lemma sort_newestFirst (l : list Session.t) :
  StronglySorted notOlder (sort newestFirst l).
Proof.
  induction l as [|a l IH]; simpl; [constructor | now apply sortInsert_newestFirst].
Qed.

Lemma StronglySorted_app_inv (A : Type) (R : A -> A -> Prop) (l1 l2 : list A) :
  StronglySorted R (l1 ++ l2) -> forall x y, In x l1 -> In y l2 -> R x y.
Proof.
  induction l1 as [|a l1 IH]; simpl; intros Hs x y Hx Hy; [contradiction |].
  inversion Hs as [| ? ? Hs' Hall]; subst.
  destruct Hx as [-> | Hx].
  - rewrite Forall_forall in Hall. apply Hall, in_or_app. now right.
  - now apply IH.
Qed.

Lemma NoDup_app_disjoint (A : Type) (l1 l2 : list A) (x : A) :
  NoDup (l1 ++ l2) -> In x l1 -> In x l2 -> False.
Proof.
  induction l1 as [|a l1 IH]; simpl; intros Hn H1 H2; [contradiction |].
  inversion Hn as [| ? ? Hnot Hn']; subst.
  destruct H1 as [-> | H1].
  - apply Hnot, in_or_app. now right.
  - now apply IH.
Qed.

Lemma NoDup_map_eq (A B : Type) (f : A -> B) (l : list A) (x y : A) :
  NoDup (map f l) -> In x l -> In y l -> f x = f y -> x = y.
Proof.
  induction l as [|a l IH]; simpl; intros Hn Hx Hy Hf; [contradiction |].
  inversion Hn as [| ? ? Hnot Hn']; subst.
  destruct Hx as [-> | Hx], Hy as [-> | Hy]; try reflexivity.
  - exfalso. apply Hnot. rewrite Hf. now apply in_map.
  - exfalso. apply Hnot. rewrite <- Hf. now apply in_map.
  - now apply IH.
Qed.

(** ** Retention *)

Section PruneFacts.

Variable prefix : string.
Variable maxCount : nat.
Variable before : list Session.t.

Let matching : list Session.t := sort newestFirst (filter (named prefix) before).
Let toDelete : list Session.t := skipn maxCount matching.
Let keeps (s : Session.t) : bool :=
  negb (existsb (fun ds => String.eqb (Session.id ds) (Session.id s)) toDelete).

Lemma matching_In (s : Session.t) :
  In s matching <-> In s before /\ named prefix s = true.
Proof. unfold matching. rewrite sort_In, filter_In. tauto. Qed.

Lemma toDelete_In (s : Session.t) : In s toDelete -> In s matching.
Proof.
  unfold toDelete. intro H. rewrite <- (firstn_skipn maxCount matching).
  apply in_or_app. now right.
Qed.

Lemma pruneByPrefix_unfold :
  pruneByPrefix prefix maxCount before =
  if Nat.ltb maxCount (List.length matching) then Some (filter keeps before) else None.
Proof. reflexivity. Qed.

Hypothesis uniqueIds : NoDup (map Session.id before).

Lemma keeps_false_iff (s : Session.t) :
  In s before -> (keeps s = false <-> In s toDelete).
Proof.
  intro Hs. unfold keeps. rewrite negb_false_iff, existsb_exists. split.
  - intros [ds [Hds Heq]]. apply String.eqb_eq in Heq.
    assert (Hb : In ds before) by (apply toDelete_In, matching_In in Hds; tauto).
    now rewrite <- (NoDup_map_eq Session.id before ds s uniqueIds Hb Hs Heq).
  - intro Hd. exists s. split; [assumption | apply String.eqb_refl].
Qed.

Lemma matching_NoDup : NoDup matching.
Proof.
  unfold matching. eapply Permutation_NoDup; [apply Permutation_sym, sort_perm |].
  apply NoDup_filter. eapply NoDup_map_inv, uniqueIds.
Qed.

Lemma keeps_firstn (s : Session.t) : In s (firstn maxCount matching) -> keeps s = true.
Proof.
  intro Hs. destruct (keeps s) eqn:K; [reflexivity | exfalso].
  assert (Hm : In s matching).
  { rewrite <- (firstn_skipn maxCount matching). apply in_or_app. now left. }
  apply keeps_false_iff in K; [| apply matching_In in Hm; tauto].
  pose proof matching_NoDup as Hn.
  rewrite <- (firstn_skipn maxCount matching) in Hn.
  exact (NoDup_app_disjoint _ _ s Hn Hs K).
Qed.

Lemma kept_matching_perm :
  (maxCount < List.length matching)%nat ->
  Permutation (filter (named prefix) (filter keeps before)) (firstn maxCount matching).
Proof.
  intro Hlt. rewrite filter_comm.
  eapply perm_trans.
  { apply Permutation_filter, Permutation_sym, (sort_perm newestFirst). }
  fold matching.
  replace (filter keeps matching)
    with (filter keeps (firstn maxCount matching ++ skipn maxCount matching))
    by now rewrite firstn_skipn.
  rewrite filter_app, (filter_all keeps), (filter_none keeps), app_nil_r.
  - apply Permutation_refl.
  - intros x Hx. apply keeps_false_iff; [| exact Hx].
    apply toDelete_In, matching_In in Hx. tauto.
  - apply keeps_firstn.
Qed.

End PruneFacts.

Lemma named_startsWith (prefix : string) (s : Session.t) :
  truthy prefix = true -> named prefix s = startsWith (Session.name s) prefix.
Proof.
  intro Hp. unfold named, startsWith.
  destruct (Session.name s) as [|c n]; simpl; [| reflexivity].
  destruct prefix; [discriminate | reflexivity].
Qed.

Lemma filter_ext_named (prefix : string) (l : list Session.t) :
  truthy prefix = true ->
  filter (fun s => startsWith (Session.name s) prefix) l = filter (named prefix) l.
Proof.
  intro Hp. apply filter_ext. intro s. symmetry. now apply named_startsWith.
Qed.

(** On a list with pairwise distinct ids a prune does what the
    specification says. *)
Lemma kept_Pruned (prefix : string) (maxCount : nat) (before : list Session.t) :
  truthy prefix = true ->
  NoDup (map Session.id before) ->
  Pruned prefix maxCount before (kept prefix maxCount before).
Proof.
  intros Hp Hn. unfold kept. rewrite pruneByPrefix_unfold.
  set (matching := sort newestFirst (filter (named prefix) before)).
  set (keeps := fun s : Session.t =>
         negb (existsb (fun ds => String.eqb (Session.id ds) (Session.id s))
                       (skipn maxCount matching))).
  assert (Hlen : List.length (filter (named prefix) before) = List.length matching)
    by (symmetry; apply sort_length).
  destruct (Nat.ltb_spec maxCount (List.length matching)) as [Hlt | Hge].
  - repeat split.
    + intros s Hs. apply filter_In in Hs. tauto.
    + intros s Hs Hnot. apply filter_In. split; [assumption |].
      destruct (keeps s) eqn:K; [reflexivity | exfalso].
      apply (@keeps_false_iff prefix maxCount before Hn s Hs) in K.
      apply (@toDelete_In prefix maxCount before) in K.
      apply (@matching_In prefix maxCount before) in K. destruct K as [_ K].
      rewrite named_startsWith in K by assumption. congruence.
    + rewrite !filter_ext_named by assumption. rewrite Hlen.
      unfold keeps, matching.
      rewrite (Permutation_length (@kept_matching_perm prefix maxCount before Hn Hlt)).
      apply length_firstn.
    + intros k d Hk Hkn Hd Hdn Hgone.
      apply filter_In in Hk. destruct Hk as [Hk Kk].
      assert (Hd' : In d (skipn maxCount matching)).
      { apply (@keeps_false_iff prefix maxCount before Hn d Hd).
        destruct (negb (existsb (fun ds => String.eqb (Session.id ds) (Session.id d))
                                 (skipn maxCount (sort newestFirst (filter (named prefix) before)))))
                 eqn:K; [| reflexivity].
        exfalso. apply Hgone. apply filter_In. split; assumption. }
      assert (Hk' : In k (firstn maxCount matching)).
      { assert (Hm : In k matching).
        { apply (@matching_In prefix maxCount before). split; [assumption |].
          now rewrite named_startsWith. }
        rewrite <- (firstn_skipn maxCount matching) in Hm.
        apply in_app_or in Hm. destruct Hm as [Hm | Hm]; [assumption | exfalso].
        apply (@keeps_false_iff prefix maxCount before Hn k Hk) in Hm.
        unfold keeps in Kk. fold matching in Hm. congruence. }
      pose proof (sort_newestFirst (filter (named prefix) before)) as Hs.
      fold matching in Hs. rewrite <- (firstn_skipn maxCount matching) in Hs.
      exact (StronglySorted_app_inv _ _ Hs k d Hk' Hd').
  - repeat split; try tauto.
    rewrite !filter_ext_named by assumption. lia.
Qed.

Lemma filter_length_bound (A : Type) (f : A -> bool) (l : list A) :
  (List.length (filter f l) <= List.length l)%nat.
Proof.
  induction l as [|x l IH]; simpl; [lia |]. destruct (f x); simpl; lia.
Qed.

(** After a prune that wrote [remaining], at most [maxCount] sessions named
    with [prefix] are left, in whatever order the list is read back: a
    second prune writes nothing. *)
Lemma pruneByPrefix_again (prefix : string) (maxCount : nat)
      (before remaining again : list Session.t) :
  pruneByPrefix prefix maxCount before = Some remaining ->
  Permutation again remaining ->
  pruneByPrefix prefix maxCount again = None.
Proof.
  intros Hfirst Hperm. rewrite pruneByPrefix_unfold in *.
  set (matching := sort newestFirst (filter (named prefix) before)) in *.
  destruct (Nat.ltb maxCount (List.length matching)); [| discriminate].
  injection Hfirst as <-.
  set (keeps := fun s : Session.t =>
         negb (existsb (fun ds => String.eqb (Session.id ds) (Session.id s))
                       (skipn maxCount matching))) in *.
  assert (Hlen : (List.length (sort newestFirst (filter (named prefix) again)) <= maxCount)%nat).
  { rewrite sort_length.
    rewrite (Permutation_length (Permutation_filter (named prefix) Hperm)).
    rewrite filter_comm.
    rewrite (Permutation_length
               (Permutation_filter keeps
                  (Permutation_sym (sort_perm newestFirst (filter (named prefix) before))))).
    fold matching.
    replace (filter keeps matching)
      with (filter keeps (firstn maxCount matching ++ skipn maxCount matching))
      by now rewrite firstn_skipn.
    rewrite filter_app, (filter_none keeps (skipn maxCount matching)), app_nil_r.
    - etransitivity; [apply filter_length_bound |]. rewrite length_firstn. lia.
    - intros x Hx. unfold keeps. apply negb_false_iff, existsb_exists.
      exists x. split; [assumption | apply String.eqb_refl]. }
  destruct (Nat.ltb_spec maxCount
              (List.length (sort newestFirst (filter (named prefix) again))));
    [lia | reflexivity].
Qed.

Lemma Pruned_perm (prefix : string) (maxCount : nat)
      (before before' after after' : list Session.t) :
  Permutation before before' -> Permutation after after' ->
  Pruned prefix maxCount before' after' -> Pruned prefix maxCount before after.
Proof.
  intros Hb Ha [H1 [H2 [H3 H4]]].
  assert (Hin : forall s, In s before <-> In s before').
  { intro s. split; apply Permutation_in; [| apply Permutation_sym]; exact Hb. }
  assert (Hin' : forall s, In s after <-> In s after').
  { intro s. split; apply Permutation_in; [| apply Permutation_sym]; exact Ha. }
  repeat split.
  - intros s Hs. apply Hin, H1, Hin', Hs.
  - intros s Hs Hn. apply Hin', H2; [apply Hin, Hs | assumption].
  - rewrite (Permutation_length (Permutation_filter _ Ha)), H3.
    f_equal. apply Permutation_length, Permutation_filter, Permutation_sym, Hb.
  - intros k d Hk Hkn Hd Hdn Hgone. apply (H4 k d); try assumption.
    + now apply Hin'.
    + now apply Hin.
    + intro Hc. now apply Hgone, Hin'.
Qed.

Section StorageRuns.

Variable E : Type.
Variable b : Browser E.
Hypothesis storage_ok : reliable b.

Lemma exec_Store_reliable (op : StoreOp) (w : World E) :
  exec b (Store op) w =
  (Done (fst (storeStep op (store w))),
   {| store := snd (storeStep op (store w)); env := snd (storageFault b op (env w)) |}).
Proof.
  unfold exec. pose proof (storage_ok op (env w)) as H.
  destruct (storageFault b op (env w)) as [fault e]. simpl in H. subst fault.
  destruct (storeStep op (store w)); reflexivity.
Qed.

Lemma run_getAllSessions (w : World E) :
  value (run b getAllSessions w) = Done (sort newestFirst (storedSessions w)) /\
  store (world (run b getAllSessions w)) = store w /\
  calls (run b getAllSessions w) = [Store GetSessions].
Proof.
  unfold getAllSessions, storedSessions. simpl.
  rewrite exec_Store_reliable. simpl.
  destruct (sessions (store w)); simpl; auto.
Qed.

(** What [cleanupRecoverySessions] leaves in storage, and what it calls. *)
Lemma run_cleanupRecoverySessions (maxCount : nat) (w : World E) :
  let r := run b (cleanupRecoverySessions maxCount) w in
  match pruneByPrefix "Recovery (" maxCount (sort newestFirst (storedSessions w)) with
  | Some remaining =>
      sessions (store (world r)) = Some remaining /\
      calls r = [Store GetSessions; Store (SetSessions remaining)]
  | None =>
      sessions (store (world r)) = sessions (store w) /\
      calls r = [Store GetSessions]
  end.
Proof.
  unfold cleanupRecoverySessions, getAllSessions, storedSessions. simpl.
  rewrite exec_Store_reliable. simpl.
  destruct (sessions (store w)) as [l|] eqn:S; simpl.
  - destruct (pruneByPrefix "Recovery (" maxCount (sort newestFirst l)); simpl.
    + rewrite exec_Store_reliable. simpl. split; reflexivity.
    + rewrite ?S. split; reflexivity.
  - rewrite ?S. split; reflexivity.
Qed.

Lemma run_cleanupRecoverySessionsInline (w : World E) :
  let r := run b cleanupRecoverySessionsInline w in
  match pruneByPrefix "Recovery (" 3 (storedSessions w) with
  | Some remaining =>
      sessions (store (world r)) = Some remaining /\
      calls r = [Store GetSessions; Store (SetSessions remaining)]
  | None =>
      sessions (store (world r)) = sessions (store w) /\
      calls r = [Store GetSessions]
  end.
Proof.
  unfold cleanupRecoverySessionsInline, storedSessions. simpl.
  rewrite exec_Store_reliable. simpl.
  destruct (sessions (store w)) as [l|] eqn:S; simpl.
  - destruct (pruneByPrefix "Recovery (" 3 l); simpl.
    + rewrite exec_Store_reliable. simpl. split; reflexivity.
    + rewrite ?S. split; reflexivity.
  - rewrite ?S. split; reflexivity.
Qed.

End StorageRuns.

(** C8, amended.  A prune removes only sessions named with the prefix,
    provided the stored sessions have pairwise distinct ids: then every
    session whose name does not start with the prefix is still stored
    afterwards, and of those whose name starts with it exactly the
    [maxCount] newest by timestamp (all of them if there are at most
    [maxCount]) remain.  This holds of the shared pruning step for every
    prefix, and of [cleanupRecoverySessions] and
    [cleanupRecoverySessionsInline] when the storage accesses succeed. *)
Theorem prune_removes_only_prefixed
        (E : Type) (b : Browser E) (w : World E) (prefix : string) (maxCount : nat) :
  reliable b ->
  truthy prefix = true ->
  NoDup (map Session.id (storedSessions w)) ->
  Pruned prefix maxCount (storedSessions w) (kept prefix maxCount (storedSessions w)) /\
  Pruned "Recovery (" maxCount (storedSessions w)
         (storedSessions (world (run b (cleanupRecoverySessions maxCount) w))) /\
  Pruned "Recovery (" 3 (storedSessions w)
         (storedSessions (world (run b cleanupRecoverySessionsInline w))).
Proof.
  intros Hrel Hp Hn. split; [now apply kept_Pruned |]. split.
  - pose proof (run_cleanupRecoverySessions Hrel maxCount w) as Hrun.
    assert (Hsorted : Pruned "Recovery (" maxCount (sort newestFirst (storedSessions w))
                             (kept "Recovery (" maxCount (sort newestFirst (storedSessions w)))).
    { apply kept_Pruned; [reflexivity |].
      eapply Permutation_NoDup; [| exact Hn].
      apply Permutation_map, Permutation_sym, sort_perm. }
    unfold kept in Hsorted.
    destruct (pruneByPrefix "Recovery (" maxCount (sort newestFirst (storedSessions w)))
      as [remaining|]; cbv zeta in Hrun; destruct Hrun as [Hst _].
    + eapply Pruned_perm; [apply Permutation_sym, sort_perm | apply Permutation_refl |].
      unfold storedSessions at 2. rewrite Hst. exact Hsorted.
    + replace (storedSessions (world (run b (cleanupRecoverySessions maxCount) w)))
        with (storedSessions w) by (unfold storedSessions; now rewrite Hst).
      eapply Pruned_perm;
        [apply Permutation_sym, sort_perm | apply Permutation_sym, sort_perm |].
      exact Hsorted.
  - pose proof (run_cleanupRecoverySessionsInline Hrel w) as Hrun.
    assert (Hplain : Pruned "Recovery (" 3 (storedSessions w)
                            (kept "Recovery (" 3 (storedSessions w)))
      by (apply kept_Pruned; [reflexivity | assumption]).
    unfold kept in Hplain.
    destruct (pruneByPrefix "Recovery (" 3 (storedSessions w))
      as [remaining|]; cbv zeta in Hrun; destruct Hrun as [Hst _].
    + unfold storedSessions at 2. rewrite Hst. exact Hplain.
    + unfold storedSessions at 2. rewrite Hst. exact Hplain.
Qed.

(** The witness of the amended C8: the demo list, pruned to three
    recovery sessions. *)
Lemma prune_removes_only_prefixed_witness :
  Pruned "Recovery (" 3 (storedSessions demoWorld)
         (kept "Recovery (" 3 (storedSessions demoWorld)) /\
  Pruned "Recovery (" 3 (storedSessions demoWorld)
         (storedSessions (world (run idleBrowser (cleanupRecoverySessions 3) demoWorld))) /\
  Pruned "Recovery (" 3 (storedSessions demoWorld)
         (storedSessions (world (run idleBrowser cleanupRecoverySessionsInline demoWorld))).
Proof.
  apply (@prune_removes_only_prefixed Z idleBrowser demoWorld "Recovery (" 3%nat).
  - intros op e. reflexivity.
  - reflexivity.
  - simpl. repeat (constructor; [simpl; intuition discriminate |]). constructor.
Defined.

(** C8 as stated fails on a list with a shared id, because the sessions
    to delete are matched by id: pruning to three leaves two of the four
    recovery sessions. *)
Lemma prune_with_shared_ids :
  ~ Pruned "Recovery (" 3 importedTwice (kept "Recovery (" 3 importedTwice).
Proof.
  intros [_ [_ [Hcount _]]]. vm_compute in Hcount. discriminate.
Qed.

(** When the id is shared with a session the user named, that session is
    removed with the recovery session. *)
Example prune_removes_user_session :
  kept "Recovery (" 3 sharedIdSessions =
  [ emptySession "3" "Recovery (1/1/2026, 9:02:00 AM)" 3;
    emptySession "4" "Recovery (1/1/2026, 9:03:00 AM)" 4;
    emptySession "5" "Recovery (1/1/2026, 9:04:00 AM)" 5 ].
Proof. vm_compute. reflexivity. Qed.

(** C7.  Retention is idempotent: pruning a pruned list changes nothing;
    and after [cleanupRecoverySessions] has run (with the recovery prefix
    and any [maxCount], 3 by default), a second run with the same argument
    reads the list and writes nothing, so the stored list is the one the
    first run left.  The same holds of [cleanupRecoverySessionsInline].
    The storage accesses are assumed to succeed. *)
Theorem prune_twice_is_noop (E : Type) (b : Browser E) (w : World E) (maxCount : nat) :
  reliable b ->
  let w1 := world (run b (cleanupRecoverySessions maxCount) w) in
  let again := run b (cleanupRecoverySessions maxCount) w1 in
  let v1 := world (run b cleanupRecoverySessionsInline w) in
  let againInline := run b cleanupRecoverySessionsInline v1 in
  (forall stored,
      kept "Recovery (" maxCount (kept "Recovery (" maxCount stored)
      = kept "Recovery (" maxCount stored) /\
  (sessions (store (world again)) = sessions (store w1) /\
   calls again = [Store GetSessions]) /\
  (sessions (store (world againInline)) = sessions (store v1) /\
   calls againInline = [Store GetSessions]).
Proof.
  intros Hrel w1 again v1 againInline. split.
  { intro stored.
    assert (Hinner : kept "Recovery (" maxCount stored
                     = match pruneByPrefix "Recovery (" maxCount stored with
                       | Some remaining => remaining
                       | None => stored
                       end) by reflexivity.
    destruct (pruneByPrefix "Recovery (" maxCount stored) as [remaining|] eqn:P;
      rewrite Hinner; unfold kept.
    - now rewrite (@pruneByPrefix_again "Recovery (" maxCount stored remaining remaining
                     P (Permutation_refl remaining)).
    - now rewrite P. }
  split.
  - pose proof (run_cleanupRecoverySessions Hrel maxCount w) as H1.
    pose proof (run_cleanupRecoverySessions Hrel maxCount w1) as H2.
    cbv zeta in H1, H2. fold w1 in H1. fold again in H2.
    destruct (pruneByPrefix "Recovery (" maxCount (sort newestFirst (storedSessions w)))
      as [remaining|] eqn:P1.
    + destruct H1 as [Hst _].
      assert (P2 : pruneByPrefix "Recovery (" maxCount (sort newestFirst (storedSessions w1))
                   = None).
      { eapply pruneByPrefix_again; [exact P1 |].
        unfold storedSessions. rewrite Hst. apply sort_perm. }
      rewrite P2 in H2. exact H2.
    + destruct H1 as [Hst _].
      assert (Hsame : storedSessions w1 = storedSessions w)
        by (unfold storedSessions; now rewrite Hst).
      rewrite Hsame, P1 in H2. exact H2.
  - pose proof (run_cleanupRecoverySessionsInline Hrel w) as H1.
    pose proof (run_cleanupRecoverySessionsInline Hrel v1) as H2.
    cbv zeta in H1, H2. fold v1 in H1. fold againInline in H2.
    destruct (pruneByPrefix "Recovery (" 3 (storedSessions w)) as [remaining|] eqn:P1.
    + destruct H1 as [Hst _].
      assert (P2 : pruneByPrefix "Recovery (" 3 (storedSessions v1) = None).
      { eapply pruneByPrefix_again; [exact P1 |].
        unfold storedSessions. rewrite Hst. apply Permutation_refl. }
      rewrite P2 in H2. exact H2.
    + destruct H1 as [Hst _].
      assert (Hsame : storedSessions v1 = storedSessions w)
        by (unfold storedSessions; now rewrite Hst).
      rewrite Hsame, P1 in H2. exact H2.
Qed.

(** The witness of C7: two prunes to three recovery sessions of the demo
    list. *)
Lemma prune_twice_is_noop_witness :
  let w1 := world (run idleBrowser (cleanupRecoverySessions 3) demoWorld) in
  let again := run idleBrowser (cleanupRecoverySessions 3) w1 in
  let v1 := world (run idleBrowser cleanupRecoverySessionsInline demoWorld) in
  let againInline := run idleBrowser cleanupRecoverySessionsInline v1 in
  (forall stored,
      kept "Recovery (" 3 (kept "Recovery (" 3 stored) = kept "Recovery (" 3 stored) /\
  (sessions (store (world again)) = sessions (store w1) /\
   calls again = [Store GetSessions]) /\
  (sessions (store (world againInline)) = sessions (store v1) /\
   calls againInline = [Store GetSessions]).
Proof.
  apply (@prune_twice_is_noop Z idleBrowser demoWorld 3%nat).
  intros op e. reflexivity.
Defined.

(** The first prune of the demo list does remove the oldest recovery
    session, and keeps the session the user named. *)
Example prune_demo :
  storedSessions (world (run idleBrowser (cleanupRecoverySessions 3) demoWorld)) =
  [ emptySession "5" "Recovery (1/1/2026, 9:04:00 AM)" 5;
    emptySession "4" "Recovery (1/1/2026, 9:03:00 AM)" 4;
    emptySession "3" "Recovery (1/1/2026, 9:02:00 AM)" 3;
    emptySession "2" "Work" 2 ].
Proof. vm_compute. reflexivity. Qed.

(** ** Storage invariants *)

Section StoreFacts.

Variable E : Type.
Variable b : Browser E.

(** A storage access is rejected, leaving the store alone, or goes
    through. *)
Lemma exec_Store_cases (op : StoreOp) (w : World E) :
  (exists m, fst (exec b (Store op) w) = Threw m /\
             store (snd (exec b (Store op) w)) = store w) \/
  (fst (exec b (Store op) w) = Done (fst (storeStep op (store w))) /\
   store (snd (exec b (Store op) w)) = snd (storeStep op (store w))).
Proof.
  unfold exec. destruct (storageFault b op (env w)) as [[m|] e].
  - left. exists m. split; reflexivity.
  - right. destruct (storeStep op (store w)). split; reflexivity.
Qed.

(** A property of the store that every write a program can issue
    preserves holds after the program has run. *)
Lemma Uses_store_invariant (I : Storage -> Prop) (P : Call -> Prop) (A : Type)
      (p : Prog A) (w : World E) :
  (forall op, P (Store op) -> forall s, I s -> I (snd (storeStep op s))) ->
  Uses P p -> I (store w) -> I (store (world (run b p w))).
Proof.
  intros HP Hp. revert w. induction Hp as [a | c k Hc Hk IH]; intros w Hw; simpl.
  - assumption.
  - apply IH. destruct c as [op | a].
    + destruct (exec_Store_cases op w) as [[m [_ Hs]] | [_ Hs]]; rewrite Hs.
      * assumption.
      * now apply HP.
    + now rewrite exec_Api_store.
Qed.

Lemma world_tryCatch_quiet (A : Type) (p : M A) (a : A) (w : World E) :
  world (run b (tryCatch p (fun _ => ret a)) w) = world (run b p w) /\
  calls (run b (tryCatch p (fun _ => ret a)) w) = calls (run b p w) /\
  exists a', value (run b (tryCatch p (fun _ => ret a)) w) = Done a'.
Proof.
  unfold tryCatch. rewrite run_bind.
  destruct (value (run b p w)) as [a0 | m]; simpl; rewrite app_nil_r; eauto.
Qed.

End StoreFacts.

(** ** The undo bound *)

Lemma pushUndo_bound (history : list UndoEntry.t) (entry : UndoEntry.t) :
  (List.length history <= 20)%nat ->
  (List.length (pushUndo history entry) <= 20)%nat.
Proof.
  intro H. unfold pushUndo.
  destruct (Nat.ltb_spec 20 (List.length (history ++ [entry]))) as [Hlt | Hge].
  - rewrite length_app in Hlt. simpl in Hlt.
    destruct history as [|x rest]; simpl in *; [lia |].
    rewrite length_app. simpl. lia.
  - assumption.
Qed.

(** A push keeps the newest 20 of the entries pushed so far. *)
Lemma pushUndo_skipn (history : list UndoEntry.t) (entry : UndoEntry.t) :
  (List.length history <= 20)%nat ->
  pushUndo history entry = skipn (List.length history + 1 - 20) (history ++ [entry]).
Proof.
  intro H. unfold pushUndo. rewrite length_app. simpl.
  destruct (Nat.ltb_spec 20 (List.length history + 1)) as [Hlt | Hge].
  - assert (Hl : List.length history = 20%nat) by lia. rewrite Hl. simpl.
    destruct history; [discriminate | reflexivity].
  - replace (List.length history + 1 - 20)%nat with 0%nat by lia. reflexivity.
Qed.

Lemma skipn_skipn_app (A : Type) (n m : nat) (l : list A) (x : A) :
  (n <= List.length l)%nat ->
  skipn m (skipn n l ++ [x]) = skipn (m + n) (l ++ [x]).
Proof.
  intro H. rewrite <- (skipn_skipn m n (l ++ [x])). f_equal.
  rewrite skipn_app. replace (n - List.length l)%nat with 0%nat by lia. reflexivity.
Qed.

Lemma fold_pushUndo (entries : list UndoEntry.t) :
  fold_left pushUndo entries [] = skipn (List.length entries - 20) entries.
Proof.
  induction entries as [|e entries IH] using rev_ind; [reflexivity |].
  rewrite fold_left_app. simpl. rewrite IH.
  assert (Hlen : (List.length (skipn (List.length entries - 20) entries) <= 20)%nat)
    by (rewrite length_skipn; lia).
  rewrite (pushUndo_skipn _ e Hlen), length_skipn, length_app. simpl.
  rewrite skipn_skipn_app by lia. f_equal. lia.
Qed.

Lemma Uses_weaken (P Q : Call -> Prop) (A : Type) (p : Prog A) :
  (forall c, P c -> Q c) -> Uses P p -> Uses Q p.
Proof.
  intros HPQ Hp. induction Hp as [a | c k Hc Hk IH]; constructor; auto.
Qed.

(** Decompose a program along its sequencing, handlers, loops and
    branches. *)
Ltac uses :=
  repeat first
    [ apply Uses_ret | apply Uses_throw
    | match goal with |- Uses ?P (await ?c) => apply (@Uses_await P c) end
    | apply Uses_bindM | apply Uses_tryCatch | apply Uses_perform
    | apply Uses_forEach | intro
    | match goal with
      | |- Uses _ (match ?x with _ => _ end) => destruct x
      | |- Uses _ (let (_, _) := ?x in _) => destruct x
      end
    | exact I ].

Lemma Uses_captureUndoWindows (withPinned : bool) (windows : list LiveWindow.t) :
  Uses isApi (captureUndoWindows withPinned windows).
Proof. unfold captureUndoWindows, captureUndoGroups. uses. Qed.

Section UndoRuns.

Variable E : Type.
Variable b : Browser E.

Lemma pushesOnto_preserves (history : list UndoEntry.t) (actionType : string) (op : StoreOp) :
  pushesOnto history actionType (Store op) ->
  forall s, pushedAtMostOnce history actionType s ->
            pushedAtMostOnce history actionType (snd (storeStep op s)).
Proof.
  intros [[] | [entry [Ht Hc]]] s _. injection Hc as ->. simpl.
  right. exists entry. split; [assumption | reflexivity].
Qed.

Lemma store_tryCatch_quiet (A : Type) (p : M A) (a : A) (w : World E) (Q : Storage -> Prop) :
  Q (store (world (run b p w))) ->
  Q (store (world (run b (tryCatch p (fun _ => ret a)) w))).
Proof.
  intro H. destruct (world_tryCatch_quiet b p a w) as [Hw _]. now rewrite Hw.
Qed.

(** Reading the undo history: the read is rejected and the program stops,
    or it goes on with what the store holds. *)
Lemma store_after_read_undo (A : Type) (K : option (list UndoEntry.t) -> M A)
      (w : World E) (Q : Storage -> Prop) :
  Q (store w) ->
  (forall w', store w' = store w ->
              Q (store (world (run b (K (undoHistory (store w))) w')))) ->
  Q (store (world (run b (bindM (await (Store GetUndoHistory)) K) w))).
Proof.
  intros H0 HK. unfold bindM. rewrite run_bind. simpl.
  pose proof (exec_Store_cases b GetUndoHistory w) as Hc.
  destruct (exec b (Store GetUndoHistory) w) as [r w1]. simpl in Hc |- *.
  destruct Hc as [[m [-> Hs]] | [-> Hs]].
  - simpl. now rewrite Hs.
  - apply HK. exact Hs.
Qed.

Lemma saveUndoState_history (actionType : string) (w : World E) :
  pushedAtMostOnce (storedUndo w) actionType
                   (store (world (run b (saveUndoState actionType) w))).
Proof.
  unfold saveUndoState. apply store_tryCatch_quiet, store_after_read_undo.
  - left. reflexivity.
  - intros w' Hw'. cbv zeta.
    apply Uses_store_invariant with (P := pushesOnto (storedUndo w) actionType).
    + apply pushesOnto_preserves.
    + uses; try (left; exact I).
      right. eexists. split; [| reflexivity]. reflexivity.
    + rewrite Hw'. left. reflexivity.
Qed.

Lemma saveUndoStateInline_history (actionType : string) (w : World E) :
  pushedAtMostOnce (storedUndo w) actionType
                   (store (world (run b (saveUndoStateInline actionType) w))).
Proof.
  unfold saveUndoStateInline. apply store_tryCatch_quiet, store_after_read_undo.
  - left. reflexivity.
  - intros w' Hw'. cbv zeta.
    apply Uses_store_invariant with (P := pushesOnto (storedUndo w) actionType).
    + apply pushesOnto_preserves.
    + unfold captureCurrentGroupsInline. uses; try (left; exact I).
      right. eexists. split; [| reflexivity]. reflexivity.
    + rewrite Hw'. left. reflexivity.
Qed.

End UndoRuns.

(** ** Undo consumes its entry before the replay *)

Lemma Uses_replayWindow (guarded : bool) (windowState : WindowState.t) :
  Uses isApi (replayWindow guarded windowState).
Proof. unfold replayWindow, windowOrNull, ungroupAll, regroup. uses. Qed.

Section PopRuns.

Variable E : Type.
Variable b : Browser E.
Hypothesis storage_ok : reliable b.

(** A handler that only talks to the browser adds browser calls and leaves
    the store alone. *)
Lemma run_tryCatch_api (A : Type) (p : M A) (h : string -> M A) (w : World E) :
  (forall m, Uses isApi (h m)) ->
  store (world (run b (tryCatch p h) w)) = store (world (run b p w)) /\
  exists extra, calls (run b (tryCatch p h) w) = (calls (run b p w) ++ extra)%list /\
                Forall isApi extra.
Proof.
  intro Hh. unfold tryCatch. rewrite run_bind. simpl.
  destruct (value (run b p w)) as [a | m]; simpl.
  - split; [reflexivity |]. exists []. split; [reflexivity | constructor].
  - split; [now apply Uses_isApi_store |].
    eexists. split; [reflexivity | now apply Uses_calls].
Qed.

(** Read the history, write it back without its last entry, then run a
    program that only talks to the browser. *)
Lemma run_pop_then (A : Type) (rest : M A) (K : option (list UndoEntry.t) -> M A)
      (w : World E) (history : list UndoEntry.t) :
  undoHistory (store w) = Some history ->
  K (Some history) = (await (Store (SetUndoHistory (removelast history))) ;; rest) ->
  Uses isApi rest ->
  let r := run b (bindM (await (Store GetUndoHistory)) K) w in
  undoHistory (store (world r)) = Some (removelast history) /\
  exists replay,
    calls r = Store GetUndoHistory :: Store (SetUndoHistory (removelast history)) :: replay /\
    Forall isApi replay.
Proof.
  intros Hh HK Hrest. unfold bindM at 1. rewrite run_bind. simpl.
  rewrite exec_Store_reliable by assumption. simpl. rewrite Hh, HK.
  unfold bindM. rewrite run_bind. simpl.
  rewrite exec_Store_reliable by assumption. simpl. split.
  - rewrite Uses_isApi_store by assumption. reflexivity.
  - eexists. split; [reflexivity | now apply Uses_calls].
Qed.

End PopRuns.

(** C10.  Undo consumes its entry before it replays it.  When the history
    read from storage is not empty and the storage accesses succeed,
    [performUndo] and [undoLastActionInline] first read the history, then
    write it back without its last entry, and only then talk to the
    browser; nothing else is written, so the shortened history is what
    storage holds at the end, whether the replay succeeded or not. *)
Theorem undo_pops_before_replay
        (E : Type) (b : Browser E) (w : World E) (history : list UndoEntry.t) :
  reliable b ->
  undoHistory (store w) = Some history ->
  history <> [] ->
  (undoHistory (store (world (run b performUndo w))) = Some (removelast history) /\
   exists replay,
     calls (run b performUndo w) =
     Store GetUndoHistory :: Store (SetUndoHistory (removelast history)) :: replay /\
     Forall isApi replay) /\
  (undoHistory (store (world (run b undoLastActionInline w))) = Some (removelast history) /\
   exists replay,
     calls (run b undoLastActionInline w) =
     Store GetUndoHistory :: Store (SetUndoHistory (removelast history)) :: replay /\
     Forall isApi replay).
Proof.
  intros Hrel Hh Hne. destruct history as [|first others]; [contradiction |]. split.
  - unfold performUndo.
    match goal with
    | |- context [run b (tryCatch ?p ?h) w] =>
        destruct (@run_tryCatch_api E b bool p h w) as [Hs [extra [Hc Hx]]]
    end.
    { intro m. uses. }
    rewrite Hs, Hc.
    match goal with
    | |- context [run b (bindM (await (Store GetUndoHistory)) ?K) w] =>
        destruct (@run_pop_then E b Hrel bool
                    (forEach (UndoEntry.previousGroups (last (first :: others) first))
                             (fun windowState _ => replayWindow false windowState) tt ;;
                     await (Api LoadActiveGroups) ;;
                     perform (await (Api (ShowToast "Action undone" "success"))) ;;
                     ret true)
                    K w (first :: others) Hh eq_refl) as [Hu [replay [Hr Hf]]]
    end.
    { uses. }
    split; [exact Hu |].
    exists (replay ++ extra)%list. rewrite Hr. split; [reflexivity |].
    apply Forall_app. split; assumption.
  - unfold undoLastActionInline.
    match goal with
    | |- context [run b (tryCatch ?p ?h) w] =>
        destruct (@run_tryCatch_api E b bool p h w) as [Hs [extra [Hc Hx]]]
    end.
    { intro m. uses. }
    rewrite Hs, Hc.
    match goal with
    | |- context [run b (bindM (await (Store GetUndoHistory)) ?K) w] =>
        destruct (@run_pop_then E b Hrel bool
                    (restoreUndoStateInline
                       (UndoEntry.previousGroups (last (first :: others) first)) ;;
                     ret true)
                    K w (first :: others) Hh eq_refl) as [Hu [replay [Hr Hf]]]
    end.
    { unfold restoreUndoStateInline. uses. }
    split; [exact Hu |].
    exists (replay ++ extra)%list. rewrite Hr. split; [reflexivity |].
    apply Forall_app. split; assumption.
Qed.

(** The witness of C10: the demo history of two entries. *)
Lemma undo_pops_before_replay_witness :
  (undoHistory (store (world (run idleBrowser performUndo undoWorld))) =
     Some (removelast [demoUndoEntry 1; demoUndoEntry 2]) /\
   exists replay,
     calls (run idleBrowser performUndo undoWorld) =
     Store GetUndoHistory ::
     Store (SetUndoHistory (removelast [demoUndoEntry 1; demoUndoEntry 2])) :: replay /\
     Forall isApi replay) /\
  (undoHistory (store (world (run idleBrowser undoLastActionInline undoWorld))) =
     Some (removelast [demoUndoEntry 1; demoUndoEntry 2]) /\
   exists replay,
     calls (run idleBrowser undoLastActionInline undoWorld) =
     Store GetUndoHistory ::
     Store (SetUndoHistory (removelast [demoUndoEntry 1; demoUndoEntry 2])) :: replay /\
     Forall isApi replay).
Proof.
  apply (@undo_pops_before_replay Z idleBrowser undoWorld [demoUndoEntry 1; demoUndoEntry 2]).
  - intros op e. reflexivity.
  - reflexivity.
  - discriminate.
Defined.

(** A replay that fails partway: the window is found, the query of its
    tabs is rejected.  [performUndo] answers [false]; the entry is gone
    from storage all the same. *)
Example undo_failed_replay :
  value (run queryFailsBrowser performUndo undoWorld) = Done false /\
  undoHistory (store (world (run queryFailsBrowser performUndo undoWorld))) =
    Some [demoUndoEntry 1] /\
  calls (run queryFailsBrowser performUndo undoWorld) =
    [ Store GetUndoHistory; Store (SetUndoHistory [demoUndoEntry 1]);
      Api (WindowsGet 1); Api (TabsQuery 1);
      Api (ShowToast "Failed to undo action. Please try again." "error") ].
Proof. vm_compute. repeat split. Qed.

(** ** Capture *)

Lemma mapGet_mapSet_same (m : GroupMap) (k : Z) (v : GroupData.t) :
  mapGet (mapSet m k v) k = Some v.
Proof.
  induction m as [|[k' v'] m IH]; simpl.
  - now rewrite Z.eqb_refl.
  - destruct (Z.eqb k' k) eqn:K; simpl; rewrite K; [reflexivity | exact IH].
Qed.

Lemma mapGet_mapSet_other (m : GroupMap) (k k' : Z) (v : GroupData.t) :
  k <> k' -> mapGet (mapSet m k v) k' = mapGet m k'.
Proof.
  intro Hne. induction m as [|[k0 v0] m IH]; simpl.
  - destruct (Z.eqb_spec k k'); [contradiction | reflexivity].
  - destruct (Z.eqb_spec k0 k) as [-> |]; simpl.
    + destruct (Z.eqb_spec k k'); [contradiction | reflexivity].
    + destruct (Z.eqb k0 k'); [reflexivity | exact IH].
Qed.

Lemma mapGet_mapPushUrl_same (m : GroupMap) (k : Z) (u : string) :
  mapGet (mapPushUrl m k u) k = option_map (fun g => GroupData.pushUrl g u) (mapGet m k).
Proof.
  induction m as [|[k' v'] m IH]; simpl; [reflexivity |].
  destruct (Z.eqb k' k) eqn:K; simpl; rewrite K; [reflexivity | exact IH].
Qed.

Lemma mapGet_mapPushUrl_other (m : GroupMap) (k k' : Z) (u : string) :
  k <> k' -> mapGet (mapPushUrl m k u) k' = mapGet m k'.
Proof.
  intro Hne. induction m as [|[k0 v0] m IH]; simpl; [reflexivity |].
  destruct (Z.eqb_spec k0 k) as [-> |]; simpl.
  - destruct (Z.eqb_spec k k'); [contradiction | reflexivity].
  - destruct (Z.eqb k0 k'); [reflexivity | exact IH].
Qed.

Section CaptureRuns.

Variable E : Type.
Variable b : Browser E.

(** [collectGroup], case by case. *)
Lemma run_collectGroup (groupId : Z) (groupMap : GroupMap) (w : World E) :
  let r := run b (collectGroup groupId groupMap) w in
  if mapHas groupMap groupId then
    value r = Done groupMap /\ world r = w /\ calls r = []
  else
    calls r = [Api (TabGroupsGet groupId)] /\
    world r = snd (exec b (Api (TabGroupsGet groupId)) w) /\
    match fst (answer b (TabGroupsGet groupId) (env w)) with
    | Done group => value r = Done (mapSet groupMap groupId (groupDataOf group))
    | Threw _ => value r = Done groupMap
    end.
Proof.
  unfold collectGroup. destruct (mapHas groupMap groupId); simpl.
  - repeat split.
  - unfold exec. destruct (answer b (TabGroupsGet groupId) (env w)) as [[group | m] e]; simpl;
      repeat split.
Qed.

(** [captureTab], case by case. *)
Lemma run_captureTab (tab : LiveTab.t) (tabs : list TabData.t) (groupMap : GroupMap)
      (w : World E) :
  let r := run b (captureTab tab (tabs, groupMap)) w in
  let g := LiveTab.groupId tab in
  let c := run b (collectGroup g groupMap) w in
  if skipped tab then
    value r = Done (tabs, groupMap) /\ world r = w /\ calls r = []
  else if Z.eqb g TAB_ID_NONE then
    value r = Done ((tabs ++ [tabDataOf tab (urlOf tab)])%list, groupMap) /\
    world r = w /\ calls r = []
  else
    exists groupMap1,
      value c = Done groupMap1 /\ world r = world c /\ calls r = calls c /\
      value r = Done ((tabs ++ [tabDataOf tab (urlOf tab)])%list,
                      match mapGet groupMap1 g with
                      | Some _ => mapPushUrl groupMap1 g (urlOf tab)
                      | None => groupMap1
                      end).
Proof.
  unfold captureTab. destruct (skipped tab); [simpl; repeat split |].
  destruct (Z.eqb (LiveTab.groupId tab) TAB_ID_NONE); [simpl; repeat split |].
  pose proof (run_collectGroup (LiveTab.groupId tab) groupMap w) as Hc. cbv zeta in Hc |- *.
  assert (Hv : exists groupMap1,
             value (run b (collectGroup (LiveTab.groupId tab) groupMap) w) = Done groupMap1).
  { destruct (mapHas groupMap (LiveTab.groupId tab)).
    - exists groupMap. tauto.
    - destruct Hc as [_ [_ Hc]].
      destruct (fst (answer b (TabGroupsGet (LiveTab.groupId tab)) (env w))); eauto. }
  destruct Hv as [groupMap1 Hv]. exists groupMap1.
  rewrite (run_bindM_Done _ _ _ _ Hv). simpl.
  fold (urlOf tab).
  destruct (mapGet groupMap1 (LiveTab.groupId tab)); simpl; rewrite app_nil_r; repeat split;
    assumption.
Qed.

End CaptureRuns.

Lemma tabRecords_app (l1 l2 : list LiveTab.t) :
  tabRecords (l1 ++ l2) = (tabRecords l1 ++ tabRecords l2)%list.
Proof. unfold tabRecords. now rewrite filter_app, map_app. Qed.

Lemma tabRecords_one (tab : LiveTab.t) :
  tabRecords [tab] = if skipped tab then [] else [tabDataOf tab (urlOf tab)].
Proof. unfold tabRecords. simpl. destruct (skipped tab); reflexivity. Qed.

(** A capture threads an invariant [G] of the tabs seen so far, the group
    map and the calls issued so far through its two loops. *)
Section CaptureInvariant.

Variable E : Type.
Variable b : Browser E.
Variable G : list LiveTab.t -> GroupMap -> list Call -> Prop.

Hypothesis G_step :
  forall seen groupMap cs tab tabs (w : World E),
    G seen groupMap cs ->
    exists groupMap1,
      value (run b (captureTab tab (tabs, groupMap)) w)
      = Done ((tabs ++ tabRecords [tab])%list, groupMap1) /\
      G (seen ++ [tab]) groupMap1 (cs ++ calls (run b (captureTab tab (tabs, groupMap)) w)).

Lemma run_captureTabs (live : list LiveTab.t) :
  forall seen groupMap cs tabs (w : World E),
    G seen groupMap cs ->
    exists groupMap1,
      value (run b (forEach live captureTab (tabs, groupMap)) w)
      = Done ((tabs ++ tabRecords live)%list, groupMap1) /\
      G (seen ++ live) groupMap1
        (cs ++ calls (run b (forEach live captureTab (tabs, groupMap)) w)).
Proof.
  induction live as [|tab live IH]; intros seen groupMap cs tabs w HG.
  - exists groupMap. simpl. rewrite !app_nil_r. split; [reflexivity | assumption].
  - destruct (G_step tab tabs w HG) as [groupMap1 [Hv HG1]].
    destruct (IH _ _ _ (tabs ++ tabRecords [tab])%list
                 (world (run b (captureTab tab (tabs, groupMap)) w)) HG1)
      as [groupMap2 [Hv2 HG2]].
    exists groupMap2. simpl forEach. rewrite (run_bindM_Done _ _ _ _ Hv).
    cbn [value world calls].
    split.
    + rewrite Hv2. change (tab :: live) with ([tab] ++ live)%list.
      now rewrite tabRecords_app, app_assoc.
    + change (tab :: live) with ([tab] ++ live)%list.
      rewrite !app_assoc. rewrite <- !app_assoc in HG2 |- *. exact HG2.
Qed.

Lemma run_captureWindow (window : LiveWindow.t) :
  forall seen groupMap cs windows (w : World E),
    G seen groupMap cs ->
    exists groupMap1,
      value (run b (captureWindow window (windows, groupMap)) w)
      = Done ((windows ++ windowRecords [window])%list, groupMap1) /\
      G (seen ++ tabsOf window) groupMap1
        (cs ++ calls (run b (captureWindow window (windows, groupMap)) w)).
Proof.
  intros seen groupMap cs windows w HG. unfold captureWindow, tabsOf, windowRecords.
  simpl flat_map. rewrite app_nil_r. unfold tabsOf.
  destruct (LiveWindow.tabs window) as [live|].
  - destruct (run_captureTabs live [] w HG) as [groupMap1 [Hv HG1]].
    exists groupMap1. rewrite (run_bindM_Done _ _ _ _ Hv). simpl in *.
    destruct (tabRecords live); simpl; rewrite ?app_nil_r; split; try reflexivity; assumption.
  - exists groupMap. simpl. rewrite !app_nil_r. split; [reflexivity | assumption].
Qed.

Lemma windowRecords_app (l1 l2 : list LiveWindow.t) :
  windowRecords (l1 ++ l2) = (windowRecords l1 ++ windowRecords l2)%list.
Proof. unfold windowRecords. apply flat_map_app. Qed.

Lemma run_captureWindows (live : list LiveWindow.t) :
  forall seen groupMap cs windows (w : World E),
    G seen groupMap cs ->
    exists groupMap1,
      value (run b (forEach live captureWindow (windows, groupMap)) w)
      = Done ((windows ++ windowRecords live)%list, groupMap1) /\
      G (seen ++ allTabs live) groupMap1
        (cs ++ calls (run b (forEach live captureWindow (windows, groupMap)) w)).
Proof.
  induction live as [|window live IH]; intros seen groupMap cs windows w HG.
  - exists groupMap. simpl. rewrite !app_nil_r. split; [reflexivity | assumption].
  - destruct (run_captureWindow window windows w HG) as [groupMap1 [Hv HG1]].
    destruct (IH _ _ _ (windows ++ windowRecords [window])%list
                 (world (run b (captureWindow window (windows, groupMap)) w)) HG1)
      as [groupMap2 [Hv2 HG2]].
    exists groupMap2. simpl forEach. rewrite (run_bindM_Done _ _ _ _ Hv).
    cbn [value world calls].
    split.
    + rewrite Hv2. change (window :: live) with ([window] ++ live)%list.
      now rewrite windowRecords_app, app_assoc.
    + unfold allTabs in *. simpl flat_map.
      rewrite !app_assoc. rewrite <- !app_assoc in HG2 |- *. exact HG2.
Qed.

(** The whole capture, once the windows are enumerated. *)
Lemma run_captureSession (sessionName : string) (w : World E) (windows : list LiveWindow.t) :
  fst (answer b WindowsGetAll (env w)) = Done windows ->
  G [] [] [] ->
  exists sessionData groupMap cs,
    value (run b (captureSession sessionName) w) = Done sessionData /\
    Session.name sessionData = sessionName /\
    Session.windows sessionData = Some (windowRecords windows) /\
    Session.groups sessionData = Some (map snd groupMap) /\
    calls (run b (captureSession sessionName) w)
    = Api WindowsGetAll :: Api DateNow :: Api DateNow :: cs /\
    G (allTabs windows) groupMap cs.
Proof.
  intros Hw HG. unfold captureSession.
  unfold bindM at 1. rewrite run_bind. simpl.
  assert (Hx : exists w1, exec b (Api WindowsGetAll) w = (Done windows, w1)).
  { unfold exec. destruct (answer b WindowsGetAll (env w)) as [r e].
    simpl in Hw. subst r. eauto. }
  destruct Hx as [w1 Hx]. rewrite Hx. unfold perform, await. simpl.
  set (w2 := snd (exec b (Api DateNow) (snd (exec b (Api DateNow) w1)))).
  destruct (run_captureWindows windows [] w2 HG) as [groupMap [Hv HG1]].
  simpl in Hv, HG1.
  rewrite (run_bindM_Done _ _ _ _ Hv). cbn [value world calls]. simpl.
  eexists. exists groupMap. eexists.
  repeat split; try reflexivity. rewrite app_nil_r. exact HG1.
Qed.

End CaptureInvariant.

Lemma skipped_false_url (tab : LiveTab.t) :
  skipped tab = false ->
  LiveTab.url tab = Some (urlOf tab) /\ restorableUrl (urlOf tab) = true.
Proof.
  unfold skipped, urlOf, restorableUrl, orElse. destruct (LiveTab.url tab) as [u|]; [| discriminate].
  intro H. apply orb_false_elim in H. destruct H as [H H2].
  apply orb_false_elim in H. destruct H as [H0 H1].
  apply negb_false_iff in H0. rewrite H0. cbn iota. rewrite ?H0, ?H1, ?H2. split; reflexivity.
Qed.

Lemma In_mapSet (m : GroupMap) (k k' : Z) (v r : GroupData.t) :
  In (k', r) (mapSet m k v) -> In (k', r) m \/ r = v.
Proof.
  induction m as [|[k0 v0] m IH]; simpl.
  - intros [[= _ <-] | []]. now right.
  - destruct (Z.eqb k0 k); simpl.
    + intros [[= _ <-] | H]; [now right | left; now right].
    + intros [H | H]; [left; now left |]. destruct (IH H); [left; now right | now right].
Qed.

Lemma In_mapPushUrl (m : GroupMap) (k k' : Z) (u : string) (r : GroupData.t) :
  In (k', r) (mapPushUrl m k u) ->
  In (k', r) m \/ exists r0, In (k', r0) m /\ r = GroupData.pushUrl r0 u.
Proof.
  induction m as [|[k0 v0] m IH]; simpl; [tauto |].
  destruct (Z.eqb k0 k); simpl.
  - intros [[= <- <-] | H]; [right; exists v0; split; [now left | reflexivity] | left; now right].
  - intros [H | H]; [left; now left |].
    destruct (IH H) as [H' | [r0 [H' Hr]]]; [left; now right |].
    right. exists r0. split; [now right | assumption].
Qed.

Lemma fromEligibleTab_more (seen more : list LiveTab.t) (u : string) :
  fromEligibleTab seen u -> fromEligibleTab (seen ++ more) u.
Proof.
  intros [tab [Hin H]]. exists tab. split; [apply in_or_app; now left | assumption].
Qed.

Section CaptureEligible.

Variable E : Type.
Variable b : Browser E.

(** Whatever the browser answers, a capture step keeps the URLs of the
    groups within those of the tabs that are not skipped. *)
Lemma eligible_step :
  forall seen groupMap (cs : list Call) tab tabs (w : World E),
    groupsFromEligibleTabs seen groupMap ->
    exists groupMap1,
      value (run b (captureTab tab (tabs, groupMap)) w)
      = Done ((tabs ++ tabRecords [tab])%list, groupMap1) /\
      groupsFromEligibleTabs (seen ++ [tab]) groupMap1.
Proof.
  intros seen groupMap cs tab tabs w HG.
  assert (Hmono : groupsFromEligibleTabs (seen ++ [tab]) groupMap).
  { intros k group Hk. destruct (HG k group Hk) as [tabUrls [Hsome Hfrom]].
    exists tabUrls. split; [assumption |].
    intros u Hu. apply fromEligibleTab_more. now apply Hfrom. }
  pose proof (run_captureTab b tab tabs groupMap w) as Hr. cbv zeta in Hr.
  rewrite tabRecords_one.
  destruct (skipped tab) eqn:Hs.
  { exists groupMap. rewrite app_nil_r. split; [tauto | assumption]. }
  destruct (Z.eqb (LiveTab.groupId tab) TAB_ID_NONE).
  { exists groupMap. split; [tauto | assumption]. }
  destruct Hr as [groupMap1 [Hc [_ [_ Hv]]]].
  eexists. split; [exact Hv |].
  assert (H1 : groupsFromEligibleTabs (seen ++ [tab]) groupMap1).
  { pose proof (run_collectGroup b (LiveTab.groupId tab) groupMap w) as Hg. cbv zeta in Hg.
    destruct (mapHas groupMap (LiveTab.groupId tab)).
    - destruct Hg as [Hg _]. rewrite Hg in Hc. injection Hc as <-. assumption.
    - destruct Hg as [_ [_ Hg]].
      destruct (fst (answer b (TabGroupsGet (LiveTab.groupId tab)) (env w))) as [group | m];
        rewrite Hg in Hc; injection Hc as <-; [| assumption].
      intros k g Hk. apply In_mapSet in Hk. destruct Hk as [Hk | ->].
      + exact (Hmono k g Hk).
      + exists []. split; [reflexivity | intros u []]. }
  destruct (mapGet groupMap1 (LiveTab.groupId tab)); [| assumption].
  intros k g Hk. apply In_mapPushUrl in Hk. destruct Hk as [Hk | [r0 [Hk ->]]].
  - exact (H1 k g Hk).
  - destruct (H1 k r0 Hk) as [tabUrls [Hsome Hfrom]].
    exists (tabUrls ++ [urlOf tab])%list. split; [simpl; now rewrite Hsome |].
    intros u Hu. apply in_app_or in Hu. destruct Hu as [Hu | [<- | []]].
    + now apply Hfrom.
    + exists tab. split; [apply in_or_app; right; now left |].
      split; [assumption | apply skipped_false_url; assumption].
Qed.

End CaptureEligible.

Lemma In_tabRecords (tabs : list LiveTab.t) (record : TabData.t) :
  In record (tabRecords tabs) ->
  exists tab, In tab tabs /\ skipped tab = false /\ record = tabDataOf tab (urlOf tab).
Proof.
  unfold tabRecords. rewrite in_map_iff. intros [tab [<- Hin]].
  apply filter_In in Hin. destruct Hin as [Hin Hs]. apply negb_true_iff in Hs.
  exists tab. auto.
Qed.

Lemma In_windowRecords (windows : list LiveWindow.t) (record : WindowData.t) :
  In record (windowRecords windows) ->
  exists window,
    In window windows /\ tabRecords (tabsOf window) <> [] /\
    record = {| WindowData.id := LiveWindow.id window;
                WindowData.tabs := Some (tabRecords (tabsOf window)) |}.
Proof.
  unfold windowRecords. rewrite in_flat_map. intros [window [Hin Hr]].
  exists window. destruct (tabRecords (tabsOf window)) as [|r rs]; [contradiction |].
  destruct Hr as [<- | []]. repeat split; [assumption | discriminate].
Qed.

Lemma tabRecords_all_skipped (tabs : list LiveTab.t) :
  (forall tab, In tab tabs -> skipped tab = true) -> tabRecords tabs = [].
Proof.
  intro H. unfold tabRecords. rewrite filter_none; [reflexivity |].
  intros tab Hin. now rewrite (H tab Hin).
Qed.

Lemma In_allTabs (windows : list LiveWindow.t) (window : LiveWindow.t) (tab : LiveTab.t) :
  In window windows -> In tab (tabsOf window) -> In tab (allTabs windows).
Proof. intros Hw Ht. unfold allTabs. apply in_flat_map. eauto. Qed.

(** C4.  For every capture: once the windows are enumerated, the snapshot
    holds one window record per window with a tab that is not skipped, and
    that record holds one tab record per such tab; so every tab record and
    every URL of a group record comes from a tab whose URL is present and
    not on an internal scheme, and a window all of whose tabs are skipped
    has no record at all. *)
Theorem capture_skips_internal_tabs
        (E : Type) (b : Browser E) (w : World E) (sessionName : string)
        (windows : list LiveWindow.t) :
  fst (answer b WindowsGetAll (env w)) = Done windows ->
  exists sessionData groups,
    value (run b (captureSession sessionName) w) = Done sessionData /\
    Session.windows sessionData = Some (windowRecords windows) /\
    Session.groups sessionData = Some groups /\
    (forall record,
        In record (windowRecords windows) ->
        exists tabs,
          WindowData.tabs record = Some tabs /\ tabs <> [] /\
          forall tabRecord,
            In tabRecord tabs ->
            restorableUrl (TabData.url tabRecord) = true /\
            fromEligibleTab (allTabs windows) (TabData.url tabRecord)) /\
    (forall group,
        In group groups ->
        exists tabUrls,
          GroupData.tabUrls group = Some tabUrls /\
          forall u, In u tabUrls ->
                    restorableUrl u = true /\ fromEligibleTab (allTabs windows) u) /\
    (forall before window after,
        windows = (before ++ window :: after)%list ->
        (forall tab, In tab (tabsOf window) -> skipped tab = true) ->
        windowRecords windows = windowRecords (before ++ after)) /\
    (forall window,
        (forall tab, In tab (tabsOf window) -> skipped tab = true) ->
        windowRecords [window] = []).
Proof.
  intro Hw.
  destruct (@run_captureSession E b (fun seen groupMap _ => groupsFromEligibleTabs seen groupMap)
              (fun seen groupMap cs tab tabs w0 HG =>
                 eligible_step b (seen := seen) cs tab tabs w0 HG)
              sessionName w windows Hw)
    as [sessionData [groupMap [cs [Hv [_ [Hwin [Hgr [_ HG]]]]]]]].
  { intros k group []. }
  exists sessionData, (map snd groupMap).
  split; [exact Hv |]. split; [exact Hwin |]. split; [exact Hgr |].
  split; [| split; [| split]].
  - intros record H. apply In_windowRecords in H. destruct H as [window [Hin [Hne ->]]].
    exists (tabRecords (tabsOf window)).
    split; [reflexivity |]. split; [assumption |].
    intros tabRecord H. apply In_tabRecords in H. destruct H as [tab [Ht [Hs ->]]]. split.
    + apply skipped_false_url, Hs.
    + exists tab. split; [eapply In_allTabs; eassumption |].
      split; [assumption | apply skipped_false_url, Hs].
  - intros group H. apply in_map_iff in H. destruct H as [[k g] [<- Hk]].
    destruct (HG k g Hk) as [tabUrls [Hsome Hfrom]].
    exists tabUrls. split; [exact Hsome |].
    intros u Hu. split; [| now apply Hfrom].
    destruct (Hfrom u Hu) as [tab [_ [Hs Hu0]]].
    destruct (skipped_false_url tab Hs) as [Hu' Hr]. congruence.
  - intros before window after -> Hall.
    rewrite !windowRecords_app. f_equal.
    change (window :: after) with ([window] ++ after)%list.
    rewrite windowRecords_app. unfold windowRecords at 1. simpl.
    now rewrite (tabRecords_all_skipped _ Hall).
  - intros window Hall. unfold windowRecords. simpl.
    now rewrite (tabRecords_all_skipped _ Hall).
Qed.

(** The witness of C4: a window holding one internal page next to an
    ordinary window. *)
Lemma capture_skips_internal_tabs_witness :
  exists sessionData groups,
    value (run (openBrowser [internalWindow; workWindow] 0) (captureSession "Monday") freshWorld)
    = Done sessionData /\
    Session.windows sessionData = Some (windowRecords [internalWindow; workWindow]) /\
    Session.groups sessionData = Some groups /\
    (forall record,
        In record (windowRecords [internalWindow; workWindow]) ->
        exists tabs,
          WindowData.tabs record = Some tabs /\ tabs <> [] /\
          forall tabRecord,
            In tabRecord tabs ->
            restorableUrl (TabData.url tabRecord) = true /\
            fromEligibleTab (allTabs [internalWindow; workWindow]) (TabData.url tabRecord)) /\
    (forall group,
        In group groups ->
        exists tabUrls,
          GroupData.tabUrls group = Some tabUrls /\
          forall u, In u tabUrls ->
                    restorableUrl u = true /\
                    fromEligibleTab (allTabs [internalWindow; workWindow]) u) /\
    (forall before window after,
        [internalWindow; workWindow] = (before ++ window :: after)%list ->
        (forall tab, In tab (tabsOf window) -> skipped tab = true) ->
        windowRecords [internalWindow; workWindow] = windowRecords (before ++ after)) /\
    (forall window,
        (forall tab, In tab (tabsOf window) -> skipped tab = true) ->
        windowRecords [window] = []).
Proof.
  apply (@capture_skips_internal_tabs Z (openBrowser [internalWindow; workWindow] 0)
           freshWorld "Monday" [internalWindow; workWindow]).
  reflexivity.
Defined.

(** What that capture records: the internal window is absent; the tab
    without URL is in no record. *)
Example capture_demo :
  option_map (fun s => (Session.windows s, Session.groups s))
    match value (run (openBrowser [internalWindow; workWindow] 0)
                     (captureSession "Monday") freshWorld) with
    | Done s => Some s
    | Threw _ => None
    end
  = Some
      (Some [ {| WindowData.id := 2;
                 WindowData.tabs :=
                   Some [ {| TabData.url := "https://mail.x.com"; TabData.title := "Tab";
                             TabData.pinned := false; TabData.active := false;
                             TabData.originalGroupId := Some 7 |};
                          {| TabData.url := "https://docs.x.com"; TabData.title := "Tab";
                             TabData.pinned := false; TabData.active := false;
                             TabData.originalGroupId := Some 7 |};
                          {| TabData.url := "https://news.x.com"; TabData.title := "Tab";
                             TabData.pinned := false; TabData.active := false;
                             TabData.originalGroupId := None |} ] |} ],
       Some [ {| GroupData.originalId := 7; GroupData.title := "Work";
                 GroupData.color := "blue"; GroupData.collapsed := false;
                 GroupData.tabUrls := Some ["https://mail.x.com"; "https://docs.x.com"] |} ]).
Proof. vm_compute. reflexivity. Qed.

(** ** Group bookkeeping of a capture *)

Lemma mapHas_mapPushUrl (m : GroupMap) (k g : Z) (u : string) :
  mapHas (mapPushUrl m k u) g = mapHas m g.
Proof.
  unfold mapHas. destruct (Z.eq_dec k g) as [-> | Hne].
  - rewrite mapGet_mapPushUrl_same. destruct (mapGet m g); reflexivity.
  - now rewrite mapGet_mapPushUrl_other.
Qed.

Lemma mapHas_mapSet (m : GroupMap) (k g : Z) (v : GroupData.t) :
  mapHas (mapSet m k v) g = Z.eqb k g || mapHas m g.
Proof.
  unfold mapHas. destruct (Z.eqb_spec k g) as [-> | Hne].
  - now rewrite mapGet_mapSet_same.
  - now rewrite mapGet_mapSet_other.
Qed.

Lemma memberUrls_app (g : Z) (l1 l2 : list LiveTab.t) :
  memberUrls g (l1 ++ l2) = (memberUrls g l1 ++ memberUrls g l2)%list.
Proof. unfold memberUrls. now rewrite filter_app, map_app. Qed.

Lemma memberUrls_one (g : Z) (tab : LiveTab.t) :
  memberUrls g [tab] =
  if negb (skipped tab) && Z.eqb (LiveTab.groupId tab) g then [urlOf tab] else [].
Proof.
  unfold memberUrls. simpl.
  destruct (negb (skipped tab) && Z.eqb (LiveTab.groupId tab) g); reflexivity.
Qed.

Lemma fetches_app (g : Z) (l1 l2 : list Call) :
  fetches g (l1 ++ l2) = (fetches g l1 + fetches g l2)%nat.
Proof. unfold fetches. now rewrite filter_app, length_app. Qed.

Lemma mapGet_In (m : GroupMap) (k : Z) (v : GroupData.t) :
  mapGet m k = Some v -> In v (map snd m).
Proof.
  induction m as [|[k' v'] m IH]; simpl; [discriminate |].
  destruct (Z.eqb k' k); [intros [= ->]; now left | intro H; right; auto].
Qed.

Section CaptureFetches.

Variable E : Type.
Variable b : Browser E.
Hypothesis fetch_ok : fetchable b.

Lemma fetches_step :
  forall seen groupMap cs tab tabs (w : World E),
    fetchedOncePerGroup seen groupMap cs ->
    exists groupMap1,
      value (run b (captureTab tab (tabs, groupMap)) w)
      = Done ((tabs ++ tabRecords [tab])%list, groupMap1) /\
      fetchedOncePerGroup (seen ++ [tab]) groupMap1
        (cs ++ calls (run b (captureTab tab (tabs, groupMap)) w)).
Proof.
  intros seen groupMap cs tab tabs w [Hcount Hurls].
  pose proof (run_captureTab b tab tabs groupMap w) as Hr. cbv zeta in Hr.
  rewrite tabRecords_one.
  destruct (skipped tab) eqn:Hs.
  { destruct Hr as [Hv [_ Hc]]. exists groupMap. rewrite Hc, !app_nil_r.
    split; [assumption |]. split; [assumption |].
    intros g Hg. rewrite memberUrls_app, memberUrls_one, Hs. simpl. rewrite app_nil_r.
    now apply Hurls. }
  destruct (Z.eqb_spec (LiveTab.groupId tab) TAB_ID_NONE) as [Hnone | Hgrouped].
  { destruct Hr as [Hv [_ Hc]]. exists groupMap. rewrite Hc, !app_nil_r.
    split; [assumption |]. split; [assumption |].
    intros g Hg. rewrite memberUrls_app, memberUrls_one, Hs. simpl.
    destruct (Z.eqb_spec (LiveTab.groupId tab) g); [congruence |].
    rewrite app_nil_r. now apply Hurls. }
  destruct Hr as [groupMap1 [Hc [_ [Hcalls Hv]]]].
  eexists. split; [exact Hv |]. rewrite Hcalls.
  set (gt := LiveTab.groupId tab) in *.
  pose proof (run_collectGroup b gt groupMap w) as Hg. cbv zeta in Hg.
  pose proof (Hurls gt Hgrouped) as Hmine.
  destruct (mapHas groupMap gt) eqn:Hhas.
  - destruct Hg as [Hg [_ Hcs]]. rewrite Hg in Hc. injection Hc as <-. rewrite Hcs, app_nil_r.
    unfold mapHas in Hhas. destruct (mapGet groupMap gt) as [group|] eqn:Hget; [| discriminate].
    split.
    + intro g. rewrite mapHas_mapPushUrl. apply Hcount.
    + intros g Hne. rewrite memberUrls_app, memberUrls_one, Hs. simpl. fold gt.
      destruct (Z.eqb_spec gt g) as [<- | Hother].
      * rewrite mapGet_mapPushUrl_same, Hget. simpl. now rewrite Hmine.
      * rewrite mapGet_mapPushUrl_other by assumption. rewrite app_nil_r. now apply Hurls.
  - destruct Hg as [Hcs [_ Hg]]. destruct (fetch_ok gt (env w)) as [group Hans].
    rewrite Hans in Hg. rewrite Hg in Hc. injection Hc as <-. rewrite Hcs.
    rewrite mapGet_mapSet_same.
    unfold mapHas in Hhas. destruct (mapGet groupMap gt) eqn:Hget; [discriminate |].
    split.
    + intro g. rewrite fetches_app, mapHas_mapPushUrl, mapHas_mapSet, Hcount.
      unfold fetches. simpl. destruct (Z.eqb_spec gt g) as [<- | Hother]; simpl.
      * unfold mapHas. rewrite Hget. reflexivity.
      * destruct (mapHas groupMap g); reflexivity.
    + intros g Hne. rewrite memberUrls_app, memberUrls_one, Hs. simpl. fold gt.
      destruct (Z.eqb_spec gt g) as [<- | Hother].
      * rewrite mapGet_mapPushUrl_same, mapGet_mapSet_same. simpl. now rewrite Hmine.
      * rewrite mapGet_mapPushUrl_other, mapGet_mapSet_other by assumption.
        rewrite app_nil_r. now apply Hurls.
Qed.

End CaptureFetches.

(** C5, amended.  In a capture pass during which no fetch of a group is
    rejected, every group is fetched at most once, and the URL of every
    member tab that is not skipped is appended to the [tabUrls] of that
    group's record, which lists exactly the URLs of those members in tab
    order. *)
Theorem capture_fetches_group_once
        (E : Type) (b : Browser E) (w : World E) (sessionName : string)
        (windows : list LiveWindow.t) :
  fetchable b ->
  fst (answer b WindowsGetAll (env w)) = Done windows ->
  fetchedOnceAndRecorded b w sessionName windows.
Proof.
  intros Hfetch Hw.
  destruct (@run_captureSession E b fetchedOncePerGroup (fetches_step Hfetch)
              sessionName w windows Hw)
    as [sessionData [groupMap [cs [Hv [_ [_ [Hgr [Hcalls [Hcount Hurls]]]]]]]]].
  { split; [reflexivity | intros g _; reflexivity]. }
  intro g. split.
  - rewrite Hcalls. unfold fetches. simpl. fold (fetches g cs). rewrite Hcount.
    destruct (mapHas groupMap g); lia.
  - intros tab Hin Hs Hg Hne.
    assert (Hmember : In (urlOf tab) (memberUrls g (allTabs windows))).
    { unfold memberUrls. apply in_map, filter_In. split; [assumption |].
      rewrite Hs, Hg, Z.eqb_refl. reflexivity. }
    pose proof (Hurls g Hne) as Hrec.
    destruct (mapGet groupMap g) as [group|] eqn:Hget.
    + exists sessionData, (map snd groupMap), group.
      split; [assumption |]. split; [assumption |].
      split; [eapply mapGet_In; eassumption |].
      split; assumption.
    + rewrite Hrec in Hmember. contradiction.
Qed.

(** The witness of the amended C5: the browser that knows every group. *)
Lemma capture_fetches_group_once_witness :
  fetchedOnceAndRecorded (openBrowser [internalWindow; workWindow] 0) freshWorld "Monday"
                         [internalWindow; workWindow].
Proof.
  apply (@capture_fetches_group_once Z (openBrowser [internalWindow; workWindow] 0)
           freshWorld "Monday" [internalWindow; workWindow]).
  - intros groupId e. eexists. reflexivity.
  - reflexivity.
Defined.

(** C5 as stated fails when a fetch is rejected: the group of the two tabs
    of the work window is fetched once per tab. *)
Lemma capture_refetches_after_rejection :
  ~ fetchedOnceAndRecorded (flakyBrowser [workWindow]) freshWorld "Monday" [workWindow].
Proof.
  intro H. destruct (H 7) as [Hle _]. vm_compute in Hle. lia.
Qed.

(** In that run the group is fetched twice, and the tab seen before the
    fetch that succeeded is missing from the group's record. *)
Example capture_with_rejected_fetch :
  let r := run (flakyBrowser [workWindow]) (captureSession "Monday") freshWorld in
  calls r = [ Api WindowsGetAll; Api DateNow; Api DateNow;
              Api (TabGroupsGet 7); Api (TabGroupsGet 7) ] /\
  match value r with
  | Done s => Session.groups s
  | Threw _ => None
  end
  = Some [ {| GroupData.originalId := 7; GroupData.title := "Work";
              GroupData.color := "blue"; GroupData.collapsed := false;
              GroupData.tabUrls := Some ["https://docs.x.com"] |} ].
Proof. vm_compute. split; reflexivity. Qed.

(** ** Saving under a quota *)

(** Run a program as far as its calls are known, without unfolding the
    data it computes. *)
Ltac run_simpl :=
  cbn [run bind bindM tryCatch await ret throw perform value world calls fst snd].

Lemma Uses_storageAccessTest : Uses touchesTestKeyOnly storageAccessTest.
Proof. unfold storageAccessTest. uses; [left | right]; reflexivity. Qed.

Lemma Uses_captureSession (sessionName : string) : Uses isApi (captureSession sessionName).
Proof. unfold captureSession, captureWindow, captureTab, collectGroup. uses. Qed.

Lemma Uses_checkStorageQuota : Uses isApi checkStorageQuota.
Proof. unfold checkStorageQuota. uses. Qed.

Lemma isApi_no_write (l : list Call) :
  Forall isApi l -> Forall (fun c => writesSessions c = false) l.
Proof.
  apply Forall_impl. intros [op | a] H; [contradiction | reflexivity].
Qed.

Section SaveRuns.

Variable E : Type.
Variable b : Browser E.

Lemma storageAccessTest_frame (w : World E) :
  sessions (store (world (run b storageAccessTest w))) = sessions (store w) /\
  undoHistory (store (world (run b storageAccessTest w))) = undoHistory (store w) /\
  Forall (fun c => writesSessions c = false) (calls (run b storageAccessTest w)).
Proof.
  split; [| split].
  - apply (Uses_store_invariant b (fun s => sessions s = sessions (store w))
             (P := touchesTestKeyOnly)); [| apply Uses_storageAccessTest | reflexivity].
    intros op [[= ->] | [= ->]] s Hs; exact Hs.
  - apply (Uses_store_invariant b (fun s => undoHistory s = undoHistory (store w))
             (P := touchesTestKeyOnly)); [| apply Uses_storageAccessTest | reflexivity].
    intros op [[= ->] | [= ->]] s Hs; exact Hs.
  - eapply Forall_impl; [| apply Uses_calls, Uses_storageAccessTest].
    intros c [-> | ->]; reflexivity.
Qed.

(** [checkStorageQuota] never throws, and reports what is left of the
    quota. *)
Lemma run_checkStorageQuota (w : World E) :
  exists used,
    value (run b checkStorageQuota w) = Done (used, STORAGE_QUOTA - used) /\
    (used = 0 \/ fst (answer b StorageGetBytesInUse (env w)) = Done used).
Proof.
  unfold checkStorageQuota. run_simpl. unfold exec.
  destruct (answer b StorageGetBytesInUse (env w)) as [[used | m] e]; run_simpl.
  - exists used. split; [reflexivity | now right].
  - exists 0. split; [reflexivity | now left].
Qed.

(** The three steps of [saveCurrentSession] before the write, and the
    world they leave. *)
Lemma run_save_until_quota (sessionName : string) (w : World E)
      (sessionData : Session.t) :
  value (run b storageAccessTest w) = Done tt ->
  value (run b (captureSession sessionName) (world (run b storageAccessTest w)))
  = Done sessionData ->
  let w2 := world (run b (captureSession sessionName) (world (run b storageAccessTest w))) in
  let w3 := world (run b checkStorageQuota w2) in
  sessions (store w3) = sessions (store w) /\
  Forall (fun c => writesSessions c = false)
         (calls (run b storageAccessTest w) ++
          calls (run b (captureSession sessionName) (world (run b storageAccessTest w))) ++
          calls (run b checkStorageQuota w2)).
Proof.
  intros Htest Hcap w2 w3. split.
  - unfold w3, w2.
    rewrite (Uses_isApi_store b _ Uses_checkStorageQuota).
    rewrite (Uses_isApi_store b _ (Uses_captureSession sessionName)).
    apply storageAccessTest_frame.
  - apply Forall_app. split; [apply storageAccessTest_frame |].
    apply Forall_app. split; apply isApi_no_write, Uses_calls.
    + apply Uses_captureSession.
    + apply Uses_checkStorageQuota.
Qed.

End SaveRuns.

(** C1.  Whenever [saveCurrentSession] reaches the quota check, that is,
    the storage probe passed and the capture produced [sessionData]: the
    estimate is twice the length of the JSON text; [available] is the
    quota minus the bytes in use; and when the estimate exceeds
    [available] the call fails with the quota error, writes no session
    list and leaves the stored list as it was. *)
Theorem save_fails_over_quota
        (E : Type) (b : Browser E) (w : World E) (sessionName : string)
        (sessionData : Session.t) (used available : Z) :
  value (run b storageAccessTest w) = Done tt ->
  value (run b (captureSession sessionName) (world (run b storageAccessTest w)))
  = Done sessionData ->
  value (run b checkStorageQuota
             (world (run b (captureSession sessionName) (world (run b storageAccessTest w)))))
  = Done (used, available) ->
  estimateSessionSize sessionData > available ->
  estimateSessionSize sessionData
  = 2 * Z.of_nat (String.length (JSON.stringify (sessionJSON sessionData))) /\
  available = STORAGE_QUOTA - used /\
  value (run b (saveCurrentSession sessionName) w) = Threw QuotaExceeded /\
  sessions (store (world (run b (saveCurrentSession sessionName) w))) = sessions (store w) /\
  Forall (fun c => writesSessions c = false) (calls (run b (saveCurrentSession sessionName) w)).
Proof.
  intros Htest Hcap Hquota Hover.
  split; [unfold estimateSessionSize; lia |].
  split.
  { destruct (run_checkStorageQuota b
                (world (run b (captureSession sessionName) (world (run b storageAccessTest w)))))
      as [used' [Hv _]].
    rewrite Hv in Hquota. congruence. }
  destruct (run_save_until_quota b sessionName w Htest Hcap) as [Hstore Hcalls].
  assert (Hput : run b (putSession sessionData)
                     (world (run b (captureSession sessionName)
                                 (world (run b storageAccessTest w))))
                 = {| value := Threw QuotaExceeded;
                      world := world (run b checkStorageQuota
                                 (world (run b (captureSession sessionName)
                                             (world (run b storageAccessTest w)))));
                      calls := calls (run b checkStorageQuota
                                 (world (run b (captureSession sessionName)
                                             (world (run b storageAccessTest w))))) |}).
  { unfold putSession. rewrite (run_bindM_Done _ _ _ _ Hquota).
    apply Z.gtb_gt in Hover. rewrite Hover. run_simpl. now rewrite app_nil_r. }
  assert (Hbody : run b (storageAccessTest ;;
                         sessionData <- captureSession sessionName ;;
                         putSession sessionData) w
                  = {| value := Threw QuotaExceeded;
                       world := world (run b checkStorageQuota
                                  (world (run b (captureSession sessionName)
                                              (world (run b storageAccessTest w)))));
                       calls := (calls (run b storageAccessTest w) ++
                                 calls (run b (captureSession sessionName)
                                            (world (run b storageAccessTest w))) ++
                                 calls (run b checkStorageQuota
                                   (world (run b (captureSession sessionName)
                                               (world (run b storageAccessTest w)))))) |}).
  { rewrite (run_bindM_Done _ _ _ _ Htest), (run_bindM_Done _ _ _ _ Hcap), Hput.
    reflexivity. }
  unfold saveCurrentSession.
  rewrite (@run_tryCatch_Threw E b string _ _ w QuotaExceeded) by (now rewrite Hbody).
  rewrite Hbody. cbn [value world calls].
  replace (truthy QuotaExceeded &&
           (includes QuotaExceeded "Could not" || includes QuotaExceeded "Storage" ||
            includes QuotaExceeded "quota")) with true by (vm_compute; reflexivity).
  run_simpl. rewrite app_nil_r. repeat split; assumption.
Qed.

(** The witness of C1: no window is open, and storage has ten bytes left.
    The snapshot serializes to 65 characters, an estimate of 130 bytes. *)
Lemma save_fails_over_quota_witness :
  let b := openBrowser [] (STORAGE_QUOTA - 10) in
  let sessionData :=
    {| Session.id := "1"; Session.name := "Monday"; Session.timestamp := 2;
       Session.windows := Some []; Session.groups := Some [] |} in
  estimateSessionSize sessionData
  = 2 * Z.of_nat (String.length (JSON.stringify (sessionJSON sessionData))) /\
  10 = STORAGE_QUOTA - (STORAGE_QUOTA - 10) /\
  value (run b (saveCurrentSession "Monday") freshWorld) = Threw QuotaExceeded /\
  sessions (store (world (run b (saveCurrentSession "Monday") freshWorld)))
  = sessions (store freshWorld) /\
  Forall (fun c => writesSessions c = false)
         (calls (run b (saveCurrentSession "Monday") freshWorld)).
Proof.
  apply (@save_fails_over_quota Z (openBrowser [] (STORAGE_QUOTA - 10)) freshWorld "Monday"
           {| Session.id := "1"; Session.name := "Monday"; Session.timestamp := 2;
              Session.windows := Some []; Session.groups := Some [] |}
           (STORAGE_QUOTA - 10) 10).
  - vm_compute. reflexivity.
  - vm_compute. reflexivity.
  - vm_compute. reflexivity.
  - vm_compute. reflexivity.
Defined.

(** The JSON text of that snapshot. *)
Example stringify_demo :
  JSON.stringify
    (sessionJSON {| Session.id := "1"; Session.name := "Monday"; Session.timestamp := 2;
                    Session.windows := Some []; Session.groups := Some [] |})
  = "{" ++ JSON.quote "id" ++ ":" ++ JSON.quote "1" ++ "," ++
    JSON.quote "name" ++ ":" ++ JSON.quote "Monday" ++ "," ++
    JSON.quote "timestamp" ++ ":2," ++
    JSON.quote "windows" ++ ":[]," ++
    JSON.quote "groups" ++ ":[]}".
Proof. vm_compute. reflexivity. Qed.

(** ** An empty snapshot is saved, and refused only on restore *)

Lemma windowRecords_all_skipped (windows : list LiveWindow.t) :
  (forall tab, In tab (allTabs windows) -> skipped tab = true) -> windowRecords windows = [].
Proof.
  intro Hall. induction windows as [|window windows IH]; [reflexivity |].
  change (window :: windows) with ([window] ++ windows)%list.
  rewrite windowRecords_app, IH.
  - unfold windowRecords. simpl. rewrite tabRecords_all_skipped; [reflexivity |].
    intros tab Hin. apply Hall. unfold allTabs. simpl. apply in_or_app. now left.
  - intros tab Hin. apply Hall. unfold allTabs. simpl. apply in_or_app. now right.
Qed.

Section EmptySnapshot.

Variable E : Type.
Variable b : Browser E.

Lemma nothingCollected_step :
  forall seen groupMap cs tab tabs (w : World E),
    nothingCollected seen groupMap cs ->
    exists groupMap1,
      value (run b (captureTab tab (tabs, groupMap)) w)
      = Done ((tabs ++ tabRecords [tab])%list, groupMap1) /\
      nothingCollected (seen ++ [tab]) groupMap1
        (cs ++ calls (run b (captureTab tab (tabs, groupMap)) w)).
Proof.
  intros seen groupMap cs tab tabs w HG.
  pose proof (run_captureTab b tab tabs groupMap w) as Hr. cbv zeta in Hr.
  rewrite tabRecords_one.
  destruct (skipped tab) eqn:Hs.
  - destruct Hr as [Hv [_ Hc]]. exists groupMap. rewrite Hc, !app_nil_r.
    split; [assumption |]. intro Hall. apply HG.
    intros t Hin. apply Hall, in_or_app. now left.
  - assert (Hvac : forall groupMap1 cs1, nothingCollected (seen ++ [tab]) groupMap1 cs1).
    { intros groupMap1 cs1 Hall.
      rewrite (Hall tab) in Hs; [discriminate | apply in_or_app; right; now left]. }
    destruct (Z.eqb (LiveTab.groupId tab) TAB_ID_NONE).
    + exists groupMap. split; [tauto | apply Hvac].
    + destruct Hr as [groupMap1 [_ [_ [_ Hv]]]]. eexists. split; [exact Hv | apply Hvac].
Qed.

Hypothesis storage_ok : reliable b.

Lemma storageAccessTest_ok (w : World E) :
  value (run b storageAccessTest w) = Done tt.
Proof.
  unfold storageAccessTest. simpl.
  rewrite exec_Store_reliable by assumption. simpl.
  rewrite exec_Store_reliable by assumption. reflexivity.
Qed.

Lemma run_appendSession (sessionData : Session.t) (w : World E) :
  value (run b (appendSession sessionData) w) = Done (Session.id sessionData) /\
  sessions (store (world (run b (appendSession sessionData) w)))
  = Some (storedSessions w ++ [sessionData])%list.
Proof.
  unfold appendSession, storedSessions. simpl.
  rewrite exec_Store_reliable by assumption. simpl.
  rewrite exec_Store_reliable by assumption. simpl.
  destruct (sessions (store w)); split; reflexivity.
Qed.

End EmptySnapshot.

(** ** Restore: the two early failures *)

Section RestoreEarly.

Variable E : Type.
Variable b : Browser E.
Variable parseURL : string -> option (string * string * string).
Variable rounds : nat.

(** [getAllSessions] never throws: it yields the stored list, newest
    first, or [[]] when the read is rejected. *)
Lemma run_getAllSessions_any (w : World E) :
  (value (run b getAllSessions w) = Done (sort newestFirst (storedSessions w)) \/
   value (run b getAllSessions w) = Done []) /\
  store (world (run b getAllSessions w)) = store w /\
  calls (run b getAllSessions w) = [Store GetSessions].
Proof.
  unfold getAllSessions, storedSessions. simpl.
  pose proof (exec_Store_cases b GetSessions w) as Hc.
  destruct (exec b (Store GetSessions) w) as [r w1]. simpl in Hc |- *.
  destruct Hc as [[m [-> Hs]] | [-> Hs]]; simpl; rewrite Hs.
  - split; [now right | split; reflexivity].
  - split; [left | split; reflexivity].
    destruct (sessions (store w)); reflexivity.
Qed.

Lemma run_restoreSession_not_found (sessionId : string) (w : World E)
      (stored : list Session.t) :
  value (run b getAllSessions w) = Done stored ->
  find (fun s => String.eqb (Session.id s) sessionId) stored = None ->
  value (run b (restoreSession parseURL rounds sessionId) w) = Threw SessionNotFound /\
  calls (run b (restoreSession parseURL rounds sessionId) w) = [Store GetSessions] /\
  store (world (run b (restoreSession parseURL rounds sessionId) w)) = store w.
Proof.
  intros Hget Hfind. destruct (run_getAllSessions_any w) as [_ [Hs Hc]].
  unfold restoreSession.
  rewrite (@run_tryCatch_Threw E b (option unit) _ _ w SessionNotFound).
  - rewrite (run_bindM_Done _ _ _ _ Hget), Hfind. cbn [value world calls].
    replace (rethrown SessionNotFound) with SessionNotFound by (vm_compute; reflexivity).
    run_simpl. rewrite !app_nil_r. repeat split; assumption.
  - rewrite (run_bindM_Done _ _ _ _ Hget), Hfind. reflexivity.
Qed.

Lemma run_restoreSession_invalid (sessionId : string) (w : World E)
      (stored : list Session.t) (session : Session.t) :
  value (run b getAllSessions w) = Done stored ->
  find (fun s => String.eqb (Session.id s) sessionId) stored = Some session ->
  validateSession session = false ->
  value (run b (restoreSession parseURL rounds sessionId) w) = Threw InvalidSession /\
  calls (run b (restoreSession parseURL rounds sessionId) w) = [Store GetSessions] /\
  store (world (run b (restoreSession parseURL rounds sessionId) w)) = store w.
Proof.
  intros Hget Hfind Hinvalid. destruct (run_getAllSessions_any w) as [_ [Hs Hc]].
  unfold restoreSession.
  rewrite (@run_tryCatch_Threw E b (option unit) _ _ w InvalidSession).
  - rewrite (run_bindM_Done _ _ _ _ Hget), Hfind, Hinvalid. cbn [value world calls negb].
    replace (rethrown InvalidSession) with InvalidSession by (vm_compute; reflexivity).
    run_simpl. rewrite !app_nil_r. repeat split; assumption.
  - rewrite (run_bindM_Done _ _ _ _ Hget), Hfind, Hinvalid. reflexivity.
Qed.

End RestoreEarly.

(** C9.  Nothing validates a snapshot on the save path.  When every
    enumerated tab is skipped, the captured snapshot has no window and no
    group, [validateSession] rejects it, and yet [saveCurrentSession]
    succeeds and appends it to the stored list, provided the storage
    accesses succeed and the estimate fits what is left of the quota; the
    snapshot is refused only when [restoreSession] is asked for it. *)
Theorem save_accepts_empty_snapshot
        (E : Type) (b : Browser E) (w : World E) (sessionName : string)
        (windows : list LiveWindow.t) (sessionData : Session.t) (used available : Z)
        (parseURL : string -> option (string * string * string)) (rounds : nat) :
  reliable b ->
  fst (answer b WindowsGetAll (env (world (run b storageAccessTest w)))) = Done windows ->
  (forall tab, In tab (allTabs windows) -> skipped tab = true) ->
  value (run b (captureSession sessionName) (world (run b storageAccessTest w)))
  = Done sessionData ->
  value (run b checkStorageQuota
             (world (run b (captureSession sessionName) (world (run b storageAccessTest w)))))
  = Done (used, available) ->
  estimateSessionSize sessionData <= available ->
  (forall s, In s (storedSessions w) -> Session.id s <> Session.id sessionData) ->
  Session.windows sessionData = Some [] /\
  Session.groups sessionData = Some [] /\
  validateSession sessionData = false /\
  value (run b (saveCurrentSession sessionName) w) = Done (Session.id sessionData) /\
  sessions (store (world (run b (saveCurrentSession sessionName) w)))
  = Some (storedSessions w ++ [sessionData])%list /\
  value (run b (restoreSession parseURL rounds (Session.id sessionData))
             (world (run b (saveCurrentSession sessionName) w)))
  = Threw InvalidSession.
Proof.
  intros Hrel Hwin Hall Hcap Hquota Hfits Hfresh.
  destruct (@run_captureSession E b nothingCollected (nothingCollected_step b)
              sessionName _ windows Hwin)
    as [sessionData' [groupMap [cs [Hv [_ [Hw [Hg [_ HG]]]]]]]].
  { intros _. split; reflexivity. }
  rewrite Hcap in Hv. injection Hv as <-.
  destruct (HG Hall) as [-> _]. rewrite windowRecords_all_skipped in Hw by assumption.
  simpl in Hg.
  assert (Hinvalid : validateSession sessionData = false)
    by (unfold validateSession; rewrite Hw, Hg; reflexivity).
  pose proof (storageAccessTest_ok Hrel w) as Htest.
  destruct (run_save_until_quota b sessionName w Htest Hcap) as [Hstore _].
  cbv zeta in Hstore.
  set (w3 := world (run b checkStorageQuota
                (world (run b (captureSession sessionName)
                            (world (run b storageAccessTest w)))))) in *.
  destruct (run_appendSession Hrel sessionData w3) as [Hav Has].
  assert (Hstored3 : storedSessions w3 = storedSessions w)
    by (unfold storedSessions; now rewrite Hstore).
  rewrite Hstored3 in Has.
  assert (Hput : value (run b (putSession sessionData)
                            (world (run b (captureSession sessionName)
                                        (world (run b storageAccessTest w)))))
                 = Done (Session.id sessionData) /\
                 world (run b (putSession sessionData)
                            (world (run b (captureSession sessionName)
                                        (world (run b storageAccessTest w)))))
                 = world (run b (appendSession sessionData) w3)).
  { unfold putSession. rewrite (run_bindM_Done _ _ _ _ Hquota).
    assert (Hle : Z.gtb (estimateSessionSize sessionData) available = false)
      by (rewrite Z.gtb_ltb; apply Z.ltb_ge; lia).
    rewrite Hle. cbn [value world]. fold w3. split; [exact Hav | reflexivity]. }
  destruct Hput as [Hpv Hpw].
  assert (Hbody : value (run b (storageAccessTest ;;
                                sessionData <- captureSession sessionName ;;
                                putSession sessionData) w)
                  = Done (Session.id sessionData) /\
                  world (run b (storageAccessTest ;;
                                sessionData <- captureSession sessionName ;;
                                putSession sessionData) w)
                  = world (run b (appendSession sessionData) w3)).
  { rewrite (run_bindM_Done _ _ _ _ Htest), (run_bindM_Done _ _ _ _ Hcap).
    cbn [value world]. split; assumption. }
  destruct Hbody as [Hbv Hbw].
  assert (Hsave : value (run b (saveCurrentSession sessionName) w)
                  = Done (Session.id sessionData) /\
                  world (run b (saveCurrentSession sessionName) w)
                  = world (run b (appendSession sessionData) w3)).
  { unfold saveCurrentSession. rewrite (run_tryCatch_Done _ _ _ _ Hbv).
    cbn [value world]. split; [reflexivity | assumption]. }
  destruct Hsave as [Hsv Hsw].
  split; [assumption |]. split; [assumption |]. split; [assumption |].
  split; [assumption |]. rewrite Hsw. split; [assumption |].
  set (w4 := world (run b (appendSession sessionData) w3)) in *.
  destruct (run_getAllSessions Hrel w4) as [Hget _].
  assert (Hstored4 : storedSessions w4 = (storedSessions w ++ [sessionData])%list)
    by (unfold storedSessions; now rewrite Has).
  rewrite Hstored4 in Hget.
  destruct (find (fun s => String.eqb (Session.id s) (Session.id sessionData))
                 (sort newestFirst (storedSessions w ++ [sessionData])%list))
    as [session|] eqn:Hfind.
  - apply (run_restoreSession_invalid b parseURL rounds _ w4 Hget Hfind).
    apply find_some in Hfind. destruct Hfind as [Hin Hid].
    apply sort_In, in_app_or in Hin. apply String.eqb_eq in Hid.
    destruct Hin as [Hin | [<- | []]]; [| assumption].
    exfalso. exact (Hfresh session Hin Hid).
  - exfalso.
    assert (Hin : In sessionData (sort newestFirst (storedSessions w ++ [sessionData])%list))
      by (apply sort_In, in_or_app; right; now left).
    pose proof (find_none _ _ Hfind sessionData Hin) as Hx. simpl in Hx.
    rewrite String.eqb_refl in Hx. discriminate.
Qed.

(** The witness of C9: the only open window holds one internal page. *)
Lemma save_accepts_empty_snapshot_witness :
  let b := openBrowser [internalWindow] 0 in
  let sessionData :=
    {| Session.id := "1"; Session.name := "Monday"; Session.timestamp := 2;
       Session.windows := Some []; Session.groups := Some [] |} in
  Session.windows sessionData = Some [] /\
  Session.groups sessionData = Some [] /\
  validateSession sessionData = false /\
  value (run b (saveCurrentSession "Monday") freshWorld) = Done (Session.id sessionData) /\
  sessions (store (world (run b (saveCurrentSession "Monday") freshWorld)))
  = Some (storedSessions freshWorld ++ [sessionData])%list /\
  value (run b (restoreSession (fun _ => None) enoughRounds (Session.id sessionData))
             (world (run b (saveCurrentSession "Monday") freshWorld)))
  = Threw InvalidSession.
Proof.
  apply (@save_accepts_empty_snapshot Z (openBrowser [internalWindow] 0) freshWorld "Monday"
           [internalWindow]
           {| Session.id := "1"; Session.name := "Monday"; Session.timestamp := 2;
              Session.windows := Some []; Session.groups := Some [] |}
           0 STORAGE_QUOTA (fun _ => None) enoughRounds).
  - intros op e. reflexivity.
  - reflexivity.
  - intros tab [<- | []]. vm_compute. reflexivity.
  - vm_compute. reflexivity.
  - vm_compute. reflexivity.
  - vm_compute. discriminate.
  - intros s [].
Defined.

(** ** Programs that never throw *)

Section Completes.

Variable E : Type.
Variable b : Browser E.

Lemma completes_ret (A : Type) (a : A) : completes b (ret a).
Proof. intro w. exists a. reflexivity. Qed.

Lemma completes_bindM (A B : Type) (p : M A) (f : A -> M B) :
  completes b p -> (forall a, completes b (f a)) -> completes b (bindM p f).
Proof.
  intros Hp Hf w. destruct (Hp w) as [a Ha].
  rewrite (run_bindM_Done _ _ _ _ Ha). cbn [value]. apply Hf.
Qed.

Lemma completes_tryCatch (A : Type) (p : M A) (h : string -> M A) :
  (forall m, completes b (h m)) -> completes b (tryCatch p h).
Proof.
  intros Hh w. destruct (value (run b p w)) as [a | m] eqn:V.
  - rewrite (run_tryCatch_Done _ _ _ _ V). exists a. reflexivity.
  - rewrite (run_tryCatch_Threw _ _ _ _ V). cbn [value]. apply Hh.
Qed.

Lemma completes_perform (A : Type) (p : Prog A) : completes b (perform p).
Proof. intro w. rewrite run_perform. eexists. reflexivity. Qed.

Lemma completes_forEach (X S : Type) (items : list X) (body : X -> S -> M S) (s : S) :
  (forall x s', completes b (body x s')) -> completes b (forEach items body s).
Proof.
  intro Hb. revert s. induction items as [|x rest IH]; intro s; simpl.
  - apply completes_ret.
  - apply completes_bindM; [apply Hb | intro; apply IH].
Qed.

Lemma completes_forEach_In (X S : Type) (items : list X) (body : X -> S -> M S) (s : S) :
  (forall x, In x items -> forall s', completes b (body x s')) ->
  completes b (forEach items body s).
Proof.
  revert s. induction items as [|x rest IH]; intros s Hb; simpl.
  - apply completes_ret.
  - apply completes_bindM; [apply Hb; now left |].
    intro s1. apply IH. intros y Hy. apply Hb. now right.
Qed.

End Completes.

(** ** Reading and deleting sessions *)

Lemma sortInsert_savedAt (t : Z) (a : Session.t) (l : list Session.t) :
  filter (savedAt t) (sortInsert newestFirst a l) = filter (savedAt t) (a :: l).
Proof.
  induction l as [|x l IH]; [reflexivity |].
  cbn [sortInsert]. unfold newestFirst at 1.
  destruct (Z.gtb_spec (Session.timestamp x - Session.timestamp a) 0) as [Hgt | Hle];
    [| reflexivity].
  cbn [filter] in *. rewrite IH. unfold savedAt.
  destruct (Z.eqb_spec (Session.timestamp x) t), (Z.eqb_spec (Session.timestamp a) t);
    try reflexivity. lia.
Qed.

Lemma sort_savedAt (t : Z) (l : list Session.t) :
  filter (savedAt t) (sort newestFirst l) = filter (savedAt t) l.
Proof.
  induction l as [|a l IH]; [reflexivity |].
  cbn [sort]. rewrite sortInsert_savedAt. cbn [filter]. now rewrite IH.
Qed.

Lemma sortInsert_filter (p : Session.t -> bool) (a : Session.t) (l : list Session.t) :
  StronglySorted notOlder l ->
  filter p (sortInsert newestFirst a l) =
  if p a then sortInsert newestFirst a (filter p l) else filter p l.
Proof.
  induction 1 as [| x l Hs IH Hx]; cbn [sortInsert filter].
  - destruct (p a); reflexivity.
  - unfold newestFirst at 1.
    destruct (Z.gtb_spec (Session.timestamp x - Session.timestamp a) 0) as [Hgt | Hle].
    + cbn [filter]. rewrite IH. destruct (p x) eqn:Px, (p a) eqn:Pa; try reflexivity.
      cbn [sortInsert]. unfold newestFirst at 2.
      destruct (Z.gtb_spec (Session.timestamp x - Session.timestamp a) 0); [reflexivity | lia].
    + cbn [filter]. destruct (p a) eqn:Pa; [| reflexivity].
      destruct (p x) eqn:Px.
      * cbn [sortInsert]. unfold newestFirst at 1.
        destruct (Z.gtb_spec (Session.timestamp x - Session.timestamp a) 0); [lia | reflexivity].
      * assert (Hall : Forall (fun y => Session.timestamp y <= Session.timestamp a) (filter p l)).
        { apply Forall_forall. intros y Hy. apply filter_In in Hy. destruct Hy as [Hy _].
          rewrite Forall_forall in Hx. specialize (Hx y Hy). unfold notOlder in Hx. lia. }
        destruct (filter p l) as [|y rest]; [reflexivity |].
        cbn [sortInsert]. unfold newestFirst at 1. inversion Hall; subst.
        destruct (Z.gtb_spec (Session.timestamp y - Session.timestamp a) 0); [lia | reflexivity].
Qed.

Lemma sort_filter (p : Session.t -> bool) (l : list Session.t) :
  filter p (sort newestFirst l) = sort newestFirst (filter p l).
Proof.
  induction l as [|a l IH]; [reflexivity |].
  cbn [sort filter]. rewrite sortInsert_filter by apply sort_newestFirst.
  rewrite IH. destruct (p a); reflexivity.
Qed.

Lemma sort_sorted (l : list Session.t) :
  StronglySorted notOlder l -> sort newestFirst l = l.
Proof.
  induction 1 as [| x l Hs IH Hx]; [reflexivity |].
  cbn [sort]. rewrite IH. destruct l as [|y l]; [reflexivity |].
  cbn [sortInsert]. unfold newestFirst. inversion Hx; subst. unfold notOlder in *.
  destruct (Z.gtb_spec (Session.timestamp y - Session.timestamp x) 0); [lia | reflexivity].
Qed.

Section StorageFaults.
Variable E : Type.
Variable b : Browser E.

Lemma exec_Store_rejected (op : StoreOp) (w : World E) (m : string) :
  fst (storageFault b op (env w)) = Some m ->
  exec b (Store op) w =
  (Threw m, {| store := store w; env := snd (storageFault b op (env w)) |}).
Proof.
  unfold exec. destruct (storageFault b op (env w)) as [fault e]. simpl. now intros ->.
Qed.

Lemma exec_Store_accepted (op : StoreOp) (w : World E) :
  fst (storageFault b op (env w)) = None ->
  exec b (Store op) w =
  (Done (fst (storeStep op (store w))),
   {| store := snd (storeStep op (store w)); env := snd (storageFault b op (env w)) |}).
Proof.
  unfold exec. destruct (storageFault b op (env w)) as [fault e]. simpl. intros ->.
  destruct (storeStep op (store w)); reflexivity.
Qed.

End StorageFaults.

(** X1.  [getAllSessions] never throws, issues one read of the session
    list and leaves the store as it was.  What it returns is ordered newest
    first.  When the read is accepted the result is a rearrangement of the
    stored list in which sessions saved at the same time keep their stored
    order; when the read is rejected the result is the empty list. *)
Theorem getAllSessions_newest_first (E : Type) (b : Browser E) (w : World E) :
  let r := run b getAllSessions w in
  exists sessions,
    value r = Done sessions /\
    store (world r) = store w /\
    calls r = [Store GetSessions] /\
    StronglySorted notOlder sessions /\
    (fst (storageFault b GetSessions (env w)) = None ->
     Permutation sessions (storedSessions w) /\
     forall t, filter (savedAt t) sessions = filter (savedAt t) (storedSessions w)) /\
    (fst (storageFault b GetSessions (env w)) <> None -> sessions = []).
Proof.
  unfold getAllSessions, storedSessions. run_simpl.
  destruct (fst (storageFault b GetSessions (env w))) as [m|] eqn:F.
  - rewrite (exec_Store_rejected b GetSessions w F). run_simpl.
    exists []. repeat split; try constructor; try discriminate.
  - rewrite (exec_Store_accepted b GetSessions w F). run_simpl. cbn [storeStep fst snd store].
    eexists. split; [reflexivity |]. split; [reflexivity |]. split; [reflexivity |].
    split; [apply sort_newestFirst |]. split; [| congruence].
    intros _. split; [apply sort_perm | intro t; apply sort_savedAt].
Qed.

Lemma StronglySorted_filter_notOlder (p : Session.t -> bool) (l : list Session.t) :
  StronglySorted notOlder l -> StronglySorted notOlder (filter p l).
Proof.
  induction 1 as [| x l Hs IH Hx]; cbn [filter]; [constructor |].
  destruct (p x); [| assumption]. constructor; [assumption |].
  apply Forall_forall. intros y Hy. apply filter_In in Hy.
  rewrite Forall_forall in Hx. now apply Hx.
Qed.

Lemma filter_filter_same (A : Type) (p : A -> bool) (l : list A) :
  filter p (filter p l) = filter p l.
Proof.
  induction l as [|x l IH]; [reflexivity |]. cbn [filter].
  destruct (p x) eqn:Px; [cbn [filter]; rewrite Px, IH; reflexivity | exact IH].
Qed.

Section DeleteRuns.
Variable E : Type.
Variable b : Browser E.
Hypothesis storage_ok : reliable b.

Lemma run_deleteSession (sessionId : string) (w : World E) :
  let r := run b (deleteSession sessionId) w in
  value r = Done tt /\
  store (world r) =
    {| sessions := Some (filter (otherThan sessionId) (sort newestFirst (storedSessions w)));
       undoHistory := undoHistory (store w);
       testKey := testKey (store w) |} /\
  calls r = [ Store GetSessions;
              Store (SetSessions (filter (otherThan sessionId)
                                         (sort newestFirst (storedSessions w)))) ].
Proof.
  unfold deleteSession, getAllSessions, storedSessions, otherThan. run_simpl.
  rewrite (exec_Store_reliable storage_ok). run_simpl. cbn [storeStep fst snd store].
  rewrite (exec_Store_reliable storage_ok). run_simpl. cbn [storeStep fst snd store].
  repeat split.
Qed.

End DeleteRuns.

(** X2.  Under reliable storage [deleteSession] succeeds and stores the
    list that [getAllSessions] returned, without every session whose id is
    the given one: a session is stored afterwards exactly when it was
    stored before under another id.  The stored list is then ordered newest
    first, the undo history is untouched, and deleting the same id again
    changes nothing. *)
Theorem deleteSession_removes_every_match
        (E : Type) (b : Browser E) (w : World E) (sessionId : string) :
  reliable b ->
  let r := run b (deleteSession sessionId) w in
  let again := run b (deleteSession sessionId) (world r) in
  value r = Done tt /\
  sessions (store (world r))
  = Some (filter (otherThan sessionId) (sort newestFirst (storedSessions w))) /\
  undoHistory (store (world r)) = undoHistory (store w) /\
  (forall s, In s (storedSessions (world r)) <->
             In s (storedSessions w) /\ Session.id s <> sessionId) /\
  StronglySorted notOlder (storedSessions (world r)) /\
  storedSessions (world again) = storedSessions (world r).
Proof.
  intros Hrel r again.
  destruct (run_deleteSession Hrel sessionId w) as [Hv [Hs _]]. fold r in Hv, Hs.
  destruct (run_deleteSession Hrel sessionId (world r)) as [_ [Hs2 _]]. fold again in Hs2.
  assert (Hstored : storedSessions (world r)
                    = filter (otherThan sessionId) (sort newestFirst (storedSessions w)))
    by (unfold storedSessions at 1; now rewrite Hs).
  split; [exact Hv |]. split; [now rewrite Hs |]. split; [now rewrite Hs |].
  split; [| split].
  - intro s. rewrite Hstored, filter_In, sort_In. unfold otherThan.
    rewrite negb_true_iff. split; intros [Hin Hid]; (split; [assumption |]).
    + intro Heq. apply String.eqb_eq in Heq. congruence.
    + apply String.eqb_neq. assumption.
  - rewrite Hstored. apply StronglySorted_filter_notOlder, sort_newestFirst.
  - unfold storedSessions at 1. rewrite Hs2. cbn [sessions]. rewrite Hstored.
    rewrite (sort_sorted (StronglySorted_filter_notOlder _ (sort_newestFirst _))).
    apply filter_filter_same.
Qed.

Lemma deleteSession_removes_every_match_witness :
  let r := run idleBrowser (deleteSession "1") demoWorld in
  let again := run idleBrowser (deleteSession "1") (world r) in
  value r = Done tt /\
  sessions (store (world r))
  = Some (filter (otherThan "1") (sort newestFirst (storedSessions demoWorld))) /\
  undoHistory (store (world r)) = undoHistory (store demoWorld) /\
  (forall s, In s (storedSessions (world r)) <->
             In s (storedSessions demoWorld) /\ Session.id s <> "1") /\
  StronglySorted notOlder (storedSessions (world r)) /\
  storedSessions (world again) = storedSessions (world r).
Proof.
  apply (@deleteSession_removes_every_match Z idleBrowser demoWorld "1").
  intros op e. reflexivity.
Defined.

(** X3.  A rejected read of the session list is taken for an empty
    list: [getAllSessions] returns [[]], [restoreSession] reports that the
    session was not found, [cleanupRecoverySessions] does nothing, and
    [deleteSession], when its write is accepted, replaces the stored list,
    whatever it held, by the empty list. *)
Theorem rejected_read_is_taken_for_no_sessions
        (E : Type) (b : Browser E) (parseURL : string -> option (string * string * string))
        (rounds : nat) (w : World E) (sessionId : string) (maxCount : nat) (m : string) :
  fst (storageFault b GetSessions (env w)) = Some m ->
  value (run b getAllSessions w) = Done [] /\
  value (run b (restoreSession parseURL rounds sessionId) w) = Threw SessionNotFound /\
  (value (run b (cleanupRecoverySessions maxCount) w) = Done tt /\
   calls (run b (cleanupRecoverySessions maxCount) w) = [Store GetSessions] /\
   store (world (run b (cleanupRecoverySessions maxCount) w)) = store w) /\
  (fst (storageFault b (SetSessions []) (snd (storageFault b GetSessions (env w)))) = None ->
   value (run b (deleteSession sessionId) w) = Done tt /\
   sessions (store (world (run b (deleteSession sessionId) w))) = Some []).
Proof.
  intro Hread.
  assert (Hget : run b getAllSessions w
                 = {| value := Done [];
                      world := {| store := store w;
                                  env := snd (storageFault b GetSessions (env w)) |};
                      calls := [Store GetSessions] |}).
  { unfold getAllSessions. run_simpl. rewrite (exec_Store_rejected b GetSessions w Hread).
    reflexivity. }
  split; [now rewrite Hget |]. split; [| split].
  - apply (run_restoreSession_not_found b parseURL rounds sessionId w (stored := []));
      [now rewrite Hget | reflexivity].
  - unfold cleanupRecoverySessions.
    assert (Hnone : pruneByPrefix "Recovery (" maxCount [] = None).
    { unfold pruneByPrefix. cbn [filter sort List.length].
      destruct (Nat.ltb_spec maxCount 0); [lia | reflexivity]. }
    assert (Hbody : run b (sessions <- getAllSessions ;;
                           match pruneByPrefix "Recovery (" maxCount sessions with
                           | Some remainingSessions =>
                               await (Store (SetSessions remainingSessions))
                           | None => ret tt
                           end) w
                    = {| value := Done tt;
                         world := {| store := store w;
                                     env := snd (storageFault b GetSessions (env w)) |};
                         calls := [Store GetSessions] |}).
    { rewrite (@run_bindM_Done E b _ _ getAllSessions _ w []) by now rewrite Hget.
      rewrite Hget, Hnone. reflexivity. }
    rewrite (@run_tryCatch_Done E b unit _ _ w tt) by now rewrite Hbody.
    rewrite Hbody. repeat split.
  - intro Hwrite. unfold deleteSession. cbv zeta.
    assert (Hbody : run b (sessions <- getAllSessions ;;
                           await (Store (SetSessions
                                           (filter (fun s => negb (String.eqb (Session.id s)
                                                                              sessionId))
                                                   sessions)))) w
                    = {| value := Done tt;
                         world := {| store := {| sessions := Some [];
                                                 undoHistory := undoHistory (store w);
                                                 testKey := testKey (store w) |};
                                     env := snd (storageFault b (SetSessions [])
                                                   (snd (storageFault b GetSessions (env w)))) |};
                         calls := [Store GetSessions; Store (SetSessions [])] |}).
    { rewrite (@run_bindM_Done E b _ _ getAllSessions _ w []) by now rewrite Hget.
      rewrite Hget. cbn [filter value world calls]. run_simpl.
      rewrite (exec_Store_accepted b (SetSessions [])
                 {| store := store w; env := snd (storageFault b GetSessions (env w)) |}
                 Hwrite).
      reflexivity. }
    rewrite (@run_tryCatch_Done E b unit _ _ w tt) by now rewrite Hbody.
    rewrite Hbody. split; reflexivity.
Qed.

Lemma rejected_read_is_taken_for_no_sessions_witness :
  value (run readsFail getAllSessions demoWorld) = Done [] /\
  value (run readsFail (restoreSession (fun _ => None) enoughRounds "2") demoWorld) = Threw SessionNotFound /\
  (value (run readsFail (cleanupRecoverySessions 3) demoWorld) = Done tt /\
   calls (run readsFail (cleanupRecoverySessions 3) demoWorld) = [Store GetSessions] /\
   store (world (run readsFail (cleanupRecoverySessions 3) demoWorld)) = store demoWorld) /\
  (fst (storageFault readsFail (SetSessions [])
          (snd (storageFault readsFail GetSessions (env demoWorld)))) = None ->
   value (run readsFail (deleteSession "2") demoWorld) = Done tt /\
   sessions (store (world (run readsFail (deleteSession "2") demoWorld))) = Some []).
Proof.
  apply (@rejected_read_is_taken_for_no_sessions Z readsFail (fun _ => None) enoughRounds
           demoWorld "2" 3%nat
           "storage unavailable").
  reflexivity.
Defined.

(** In that world the five stored sessions are gone after the deletion of
    one. *)
Example delete_after_rejected_read :
  List.length (storedSessions demoWorld) = 5%nat /\
  value (run readsFail (deleteSession "2") demoWorld) = Done tt /\
  storedSessions (world (run readsFail (deleteSession "2") demoWorld)) = [].
Proof. vm_compute. repeat split. Qed.

(** ** Saving: what is stored, and what is reported *)

Section SaveOutcome.
Variable E : Type.
Variable b : Browser E.

(** A handler that only rethrows adds no call and leaves the world alone. *)
Lemma run_tryCatch_rethrow (A : Type) (p : M A) (h : string -> M A) (w : World E) :
  (forall m, exists m', h m = throw m') ->
  world (run b (tryCatch p h) w) = world (run b p w) /\
  calls (run b (tryCatch p h) w) = calls (run b p w) /\
  match value (run b p w) with
  | Done a => value (run b (tryCatch p h) w) = Done a
  | Threw m => h m = throw (match value (run b (tryCatch p h) w) with
                            | Threw m' => m'
                            | Done _ => m
                            end) /\
               exists m', value (run b (tryCatch p h) w) = Threw m'
  end.
Proof.
  intro Hh. destruct (value (run b p w)) as [a | m] eqn:V.
  - rewrite (run_tryCatch_Done _ _ _ _ V). repeat split.
  - rewrite (run_tryCatch_Threw _ _ _ _ V). destruct (Hh m) as [m' Hm]. rewrite Hm.
    cbn [run throw value world calls]. rewrite app_nil_r. repeat split. now exists m'.
Qed.

(** The write of [saveCurrentSession]: the session is appended, or the
    call throws and nothing is stored. *)
Lemma appendSession_cases (sessionData : Session.t) (w : World E) :
  let r := run b (appendSession sessionData) w in
  undoHistory (store (world r)) = undoHistory (store w) /\
  match value r with
  | Done id =>
      id = Session.id sessionData /\
      sessions (store (world r)) = Some (storedSessions w ++ [sessionData])%list
  | Threw m =>
      (m = QuotaExceededOnWrite \/ m = CouldNotSave) /\
      sessions (store (world r)) = sessions (store w)
  end.
Proof.
  unfold appendSession, storedSessions.
  match goal with
  | |- context [tryCatch ?p ?h] =>
      destruct (@run_tryCatch_rethrow string p h w) as [Hw [_ Hv]]
  end.
  { intro m. destruct (truthy m && (includes m "QUOTA" || includes m "quota")); eauto. }
  cbv zeta. rewrite Hw.
  match goal with
  | |- context [match value (run b (tryCatch ?p ?h) w) with _ => _ end] =>
      set (r := run b (tryCatch p h) w) in *
  end.
  revert Hv. run_simpl.
  destruct (fst (storageFault b GetSessions (env w))) as [m|] eqn:F.
  - rewrite (exec_Store_rejected b GetSessions w F). run_simpl.
    intros [Hh [m' Hm]]. rewrite Hm in *. split; [reflexivity |]. split; [| reflexivity].
    destruct (truthy m && (includes m "QUOTA" || includes m "quota"));
      injection Hh as <-; auto.
  - rewrite (exec_Store_accepted b GetSessions w F). run_simpl. cbn [storeStep fst snd store].
    set (l := match sessions (store w) with Some l => l | None => [] end).
    set (w1 := {| store := store w; env := snd (storageFault b GetSessions (env w)) |}).
    destruct (fst (storageFault b (SetSessions (l ++ [sessionData])%list) (env w1)))
      as [m|] eqn:F2.
    + rewrite (exec_Store_rejected b _ w1 F2). run_simpl.
      intros [Hh [m' Hm]]. rewrite Hm in *. split; [reflexivity |]. split; [| reflexivity].
      destruct (truthy m && (includes m "QUOTA" || includes m "quota"));
        injection Hh as <-; auto.
    + rewrite (exec_Store_accepted b _ w1 F2). run_simpl. cbn [storeStep fst snd store].
      intro Hv. rewrite Hv. repeat split.
Qed.

Lemma captureTab_value (tab : LiveTab.t) (tabs : list TabData.t) (groupMap : GroupMap)
      (w : World E) :
  exists groupMap1,
    value (run b (captureTab tab (tabs, groupMap)) w)
    = Done ((tabs ++ tabRecords [tab])%list, groupMap1).
Proof.
  pose proof (run_captureTab b tab tabs groupMap w) as Hr. cbv zeta in Hr.
  rewrite tabRecords_one. destruct (skipped tab).
  - exists groupMap. rewrite app_nil_r. tauto.
  - destruct (Z.eqb (LiveTab.groupId tab) TAB_ID_NONE).
    + exists groupMap. tauto.
    + destruct Hr as [groupMap1 [_ [_ [_ Hv]]]]. eauto.
Qed.

(** A capture that completes has enumerated the windows, and names the
    session as asked. *)
Lemma captureSession_Done (sessionName : string) (w : World E) (sessionData : Session.t) :
  value (run b (captureSession sessionName) w) = Done sessionData ->
  exists windows (groupMap : GroupMap),
    fst (answer b WindowsGetAll (env w)) = Done windows /\
    Session.name sessionData = sessionName /\
    Session.windows sessionData = Some (windowRecords windows) /\
    Session.groups sessionData = Some (map snd groupMap).
Proof.
  intro Hv. destruct (fst (answer b WindowsGetAll (env w))) as [windows | m] eqn:Hw.
  - destruct (@run_captureSession E b (fun _ _ _ => True)
                (fun seen groupMap cs tab tabs w0 _ =>
                   match captureTab_value tab tabs groupMap w0 with
                   | ex_intro _ g H => ex_intro _ g (conj H I)
                   end)
                sessionName w windows Hw I)
      as [sessionData' [groupMap [cs [Hv' [Hn [Hwin [Hgr _]]]]]]].
    rewrite Hv in Hv'. injection Hv' as <-. exists windows, groupMap. auto.
  - exfalso. revert Hv. unfold captureSession. unfold bindM at 1. rewrite run_bind.
    run_simpl. unfold exec. destruct (answer b WindowsGetAll (env w)) as [r e].
    simpl in Hw. subst r. run_simpl. discriminate.
Qed.

Lemma putSession_cases (sessionData : Session.t) (w : World E) :
  let r := run b (putSession sessionData) w in
  undoHistory (store (world r)) = undoHistory (store w) /\
  match value r with
  | Done id =>
      id = Session.id sessionData /\
      sessions (store (world r)) = Some (storedSessions w ++ [sessionData])%list
  | Threw m =>
      (m = QuotaExceeded \/ m = QuotaExceededOnWrite \/ m = CouldNotSave) /\
      sessions (store (world r)) = sessions (store w)
  end.
Proof.
  unfold putSession. destruct (run_checkStorageQuota b w) as [used [Hq _]].
  cbv zeta. rewrite (run_bindM_Done _ _ _ _ Hq).
  assert (Hs : store (world (run b checkStorageQuota w)) = store w)
    by apply (Uses_isApi_store b _ Uses_checkStorageQuota).
  destruct (Z.gtb (estimateSessionSize sessionData) (STORAGE_QUOTA - used)).
  - cbn [run throw value world]. rewrite Hs. auto.
  - cbn [value world].
    pose proof (appendSession_cases sessionData (world (run b checkStorageQuota w))) as Ha.
    cbv zeta in Ha. unfold storedSessions in *. rewrite Hs in Ha.
    destruct Ha as [Hu Ha]. split; [exact Hu |].
    destruct (value (run b (appendSession sessionData) (world (run b checkStorageQuota w))));
      [exact Ha | tauto].
Qed.

End SaveOutcome.

Section SaveBody.
Variable E : Type.
Variable b : Browser E.

(** The body of [saveCurrentSession], before its handler. *)
Lemma save_body_cases (sessionName : string) (w : World E) :
  let r := run b (storageAccessTest ;;
                  sessionData <- captureSession sessionName ;;
                  putSession sessionData) w in
  undoHistory (store (world r)) = undoHistory (store w) /\
  match value r with
  | Done id =>
      exists sessionData,
        Session.id sessionData = id /\ Session.name sessionData = sessionName /\
        sessions (store (world r)) = Some (storedSessions w ++ [sessionData])%list
  | Threw _ => sessions (store (world r)) = sessions (store w)
  end.
Proof.
  cbv zeta. destruct (storageAccessTest_frame b w) as [Hs1 [Hu1 _]].
  destruct (value (run b storageAccessTest w)) as [[] | m] eqn:Vtest.
  2: { rewrite (run_bindM_Threw _ _ _ _ Vtest). cbn [value world]. auto. }
  rewrite (run_bindM_Done _ _ _ _ Vtest). cbn [value world].
  set (w1 := world (run b storageAccessTest w)) in *.
  assert (Hs2 : store (world (run b (captureSession sessionName) w1)) = store w1)
    by apply (Uses_isApi_store b _ (Uses_captureSession sessionName)).
  destruct (value (run b (captureSession sessionName) w1)) as [sessionData | m] eqn:Vcap.
  2: { rewrite (run_bindM_Threw _ _ _ _ Vcap). cbn [value world]. rewrite Hs2. auto. }
  rewrite (run_bindM_Done _ _ _ _ Vcap). cbn [value world].
  set (w2 := world (run b (captureSession sessionName) w1)) in *.
  destruct (captureSession_Done b sessionName w1 Vcap) as [windows [groupMap [_ [Hname _]]]].
  pose proof (putSession_cases b sessionData w2) as Hput. cbv zeta in Hput.
  unfold storedSessions in *. rewrite Hs2, Hs1, Hu1 in Hput.
  destruct Hput as [Hu Hput]. split; [exact Hu |].
  destruct (value (run b (putSession sessionData) w2)) as [id | m].
  - destruct Hput as [-> Hput]. exists sessionData. auto.
  - tauto.
Qed.

End SaveBody.

Section SaveCases.
Variable E : Type.
Variable b : Browser E.

(** [saveCurrentSession] as a whole: its handler only renames the
    failure. *)
Lemma saveCurrentSession_cases (sessionName : string) (w : World E) :
  let r := run b (saveCurrentSession sessionName) w in
  undoHistory (store (world r)) = undoHistory (store w) /\
  match value r with
  | Done id =>
      exists sessionData,
        Session.id sessionData = id /\ Session.name sessionData = sessionName /\
        sessions (store (world r)) = Some (storedSessions w ++ [sessionData])%list
  | Threw _ => sessions (store (world r)) = sessions (store w)
  end.
Proof.
  cbv zeta. unfold saveCurrentSession.
  match goal with
  | |- context [tryCatch ?p ?h] =>
      destruct (@run_tryCatch_rethrow E b string p h w) as [Hw [_ Hv]]
  end.
  { intro m.
    destruct (truthy m &&
              (includes m "Could not" || includes m "Storage" || includes m "quota")); eauto. }
  rewrite Hw. pose proof (save_body_cases b sessionName w) as Hb. cbv zeta in Hb.
  destruct Hb as [Hu Hb]. split; [exact Hu |].
  match type of Hv with
  | match value ?rb with _ => _ end => destruct (value rb) as [id | m]
  end.
  - rewrite Hv. exact Hb.
  - destruct Hv as [_ [m' ->]]. exact Hb.
Qed.

End SaveCases.

(** X4.  Whatever the browser does, [saveCurrentSession] leaves the undo
    history alone and either returns an id, having appended to the stored
    list exactly one session, of that id and of the given name, or fails
    and leaves the session list as it was. *)
Theorem save_appends_or_leaves_untouched
        (E : Type) (b : Browser E) (w : World E) (sessionName : string) :
  let r := run b (saveCurrentSession sessionName) w in
  undoHistory (store (world r)) = undoHistory (store w) /\
  match value r with
  | Done id =>
      exists sessionData,
        Session.id sessionData = id /\ Session.name sessionData = sessionName /\
        sessions (store (world r)) = Some (storedSessions w ++ [sessionData])%list
  | Threw _ => sessions (store (world r)) = sessions (store w)
  end.
Proof. exact (saveCurrentSession_cases b sessionName w). Qed.

(** X5.  Under reliable storage, deleting the id that
    [saveCurrentSession] returned succeeds and leaves the sessions that
    were stored before the save under another id, ordered newest first; if
    no stored session had that id, these are all the sessions stored before
    the save.  Restoring that id then reports that the session was not
    found. *)
Theorem delete_undoes_save
        (E : Type) (b : Browser E) (parseURL : string -> option (string * string * string))
        (rounds : nat) (w : World E) (sessionName id : string) :
  reliable b ->
  value (run b (saveCurrentSession sessionName) w) = Done id ->
  let saved := world (run b (saveCurrentSession sessionName) w) in
  let r := run b (deleteSession id) saved in
  value r = Done tt /\
  storedSessions (world r) = sort newestFirst (filter (otherThan id) (storedSessions w)) /\
  (forall s, In s (storedSessions (world r)) <->
             In s (storedSessions w) /\ Session.id s <> id) /\
  ((forall s, In s (storedSessions w) -> Session.id s <> id) ->
   storedSessions (world r) = sort newestFirst (storedSessions w)) /\
  value (run b (restoreSession parseURL rounds id) (world r)) = Threw SessionNotFound.
Proof.
  intros Hrel Hsave saved r.
  pose proof (saveCurrentSession_cases b sessionName w) as Hcases. cbv zeta in Hcases.
  rewrite Hsave in Hcases. destruct Hcases as [_ [sessionData [Hid [_ Hsaved]]]].
  fold saved in Hsaved.
  destruct (run_deleteSession Hrel id saved) as [Hv [Hs _]]. fold r in Hv, Hs.
  assert (Hstored : storedSessions (world r)
                    = sort newestFirst (filter (otherThan id) (storedSessions w))).
  { unfold storedSessions at 1. rewrite Hs. cbn [sessions].
    unfold storedSessions at 1. rewrite Hsaved.
    rewrite sort_filter, filter_app. cbn [filter]. unfold otherThan at 2.
    rewrite Hid, String.eqb_refl. cbn [negb]. now rewrite app_nil_r. }
  assert (Hin : forall s, In s (storedSessions (world r)) <->
                          In s (storedSessions w) /\ Session.id s <> id).
  { intro s. rewrite Hstored, sort_In, filter_In. unfold otherThan.
    rewrite negb_true_iff. split; intros [Hi Hne]; (split; [assumption |]).
    - intro Heq. apply String.eqb_eq in Heq. congruence.
    - apply String.eqb_neq. assumption. }
  split; [exact Hv |]. split; [exact Hstored |]. split; [exact Hin |]. split.
  - intro Hfresh. rewrite Hstored. f_equal.
    apply forallb_filter_id, forallb_forall. intros s Hs'. unfold otherThan.
    apply negb_true_iff, String.eqb_neq. now apply Hfresh.
  - destruct (run_getAllSessions Hrel (world r)) as [Hget _].
    apply (run_restoreSession_not_found b parseURL rounds id (world r) Hget).
    apply find_absent. intros s Hs' Heq. apply sort_In, Hin in Hs'.
    apply String.eqb_eq in Heq. tauto.
Qed.

Lemma delete_undoes_save_witness :
  let saved := world (run undoBrowser (saveCurrentSession "Work") demoWorld) in
  let r := run undoBrowser (deleteSession "1") saved in
  value r = Done tt /\
  storedSessions (world r) = sort newestFirst (filter (otherThan "1") (storedSessions demoWorld)) /\
  (forall s, In s (storedSessions (world r)) <->
             In s (storedSessions demoWorld) /\ Session.id s <> "1") /\
  ((forall s, In s (storedSessions demoWorld) -> Session.id s <> "1") ->
   storedSessions (world r) = sort newestFirst (storedSessions demoWorld)) /\
  value (run undoBrowser (restoreSession (fun _ => None) enoughRounds "1") (world r)) = Threw SessionNotFound.
Proof.
  apply (@delete_undoes_save Z undoBrowser (fun _ => None) enoughRounds demoWorld "Work" "1").
  - intros op e. reflexivity.
  - vm_compute. reflexivity.
Defined.

(** X6.  When the storage probe fails, it fails with the message that
    storage cannot be accessed; [saveCurrentSession] replaces it by the
    generic message that the session could not be saved, and has issued no
    call but those of the probe.  No run of [saveCurrentSession] fails with
    the message of the probe. *)
Theorem save_reports_probe_failure_as_full
        (E : Type) (b : Browser E) (w : World E) (sessionName : string) :
  value (run b storageAccessTest w) <> Done tt ->
  value (run b storageAccessTest w) = Threw CannotAccessStorage /\
  value (run b (saveCurrentSession sessionName) w) = Threw CouldNotSave /\
  calls (run b (saveCurrentSession sessionName) w) = calls (run b storageAccessTest w) /\
  Forall (fun c => c = Store SetTest \/ c = Store RemoveTest)
         (calls (run b (saveCurrentSession sessionName) w)) /\
  (forall (b' : Browser E) (w' : World E) sessionName',
      value (run b' (saveCurrentSession sessionName') w') <> Threw CannotAccessStorage).
Proof.
  intro Hfail.
  assert (Htest : value (run b storageAccessTest w) = Threw CannotAccessStorage).
  { revert Hfail. unfold storageAccessTest.
    match goal with
    | |- context [tryCatch ?p ?h] =>
        destruct (@run_tryCatch_rethrow E b _ p h w) as [_ [_ Hv]]; [intro; eauto |]
    end.
    match type of Hv with
    | match value ?rb with _ => _ end => destruct (value rb) as [a | m0]
    end.
    - intro Hc. exfalso. apply Hc. destruct a. exact Hv.
    - destruct Hv as [Hh [m' Hval]]. rewrite Hval in Hh. injection Hh as <-.
      intros _. exact Hval. }
  split; [exact Htest |].
  assert (Hbody : run b (storageAccessTest ;;
                         sessionData <- captureSession sessionName ;;
                         putSession sessionData) w
                  = {| value := Threw CannotAccessStorage;
                       world := world (run b storageAccessTest w);
                       calls := calls (run b storageAccessTest w) |})
    by apply (run_bindM_Threw _ _ _ _ Htest).
  assert (Hsave : run b (saveCurrentSession sessionName) w
                  = {| value := Threw CouldNotSave;
                       world := world (run b storageAccessTest w);
                       calls := calls (run b storageAccessTest w) |}).
  { unfold saveCurrentSession.
    rewrite (@run_tryCatch_Threw E b string _ _ w CannotAccessStorage) by now rewrite Hbody.
    rewrite Hbody. cbn [value world calls].
    replace (truthy CannotAccessStorage &&
             (includes CannotAccessStorage "Could not" ||
              includes CannotAccessStorage "Storage" ||
              includes CannotAccessStorage "quota")) with false by (vm_compute; reflexivity).
    cbn [run throw value world calls]. now rewrite app_nil_r. }
  rewrite Hsave. cbn [value calls].
  split; [reflexivity |]. split; [reflexivity |].
  split; [apply Uses_calls, Uses_storageAccessTest |].
  intros b' w' sessionName' Hthrown. revert Hthrown. unfold saveCurrentSession.
  match goal with
  | |- context [tryCatch ?p ?h] =>
      destruct (@run_tryCatch_rethrow E b' string p h w') as [_ [_ Hv]]
  end.
  { intro m.
    destruct (truthy m &&
              (includes m "Could not" || includes m "Storage" || includes m "quota"));
      eauto. }
  match type of Hv with
  | match value ?rb with _ => _ end => destruct (value rb) as [a | m0]
  end.
  - rewrite Hv. discriminate.
  - destruct Hv as [Hh _]. intro Hval. rewrite Hval in Hh.
    destruct (truthy m0 &&
              (includes m0 "Could not" || includes m0 "Storage" || includes m0 "quota"))
      eqn:Hpass.
    + injection Hh as Hh. subst m0. vm_compute in Hpass. discriminate.
    + discriminate Hh.
Qed.

Lemma save_reports_probe_failure_as_full_witness :
  value (run probeFails storageAccessTest freshWorld) = Threw CannotAccessStorage /\
  value (run probeFails (saveCurrentSession "Monday") freshWorld) = Threw CouldNotSave /\
  calls (run probeFails (saveCurrentSession "Monday") freshWorld)
  = calls (run probeFails storageAccessTest freshWorld) /\
  Forall (fun c => c = Store SetTest \/ c = Store RemoveTest)
         (calls (run probeFails (saveCurrentSession "Monday") freshWorld)) /\
  (forall (b' : Browser Z) (w' : World Z) sessionName',
      value (run b' (saveCurrentSession sessionName') w') <> Threw CannotAccessStorage).
Proof.
  apply (@save_reports_probe_failure_as_full Z probeFails freshWorld "Monday").
  vm_compute. discriminate.
Defined.

(** ** The tab count of a captured session *)

Lemma fold_left_count (records : list WindowData.t) (n : nat) :
  fold_left
    (fun count window =>
       (count + List.length (match WindowData.tabs window with
                             | Some tabs => tabs
                             | None => []
                             end))%nat) records n
  = (n + List.length (flat_map (fun window => match WindowData.tabs window with
                                                | Some tabs => tabs
                                                | None => []
                                                end) records))%nat.
Proof.
  revert n. induction records as [|r records IH]; intro n; cbn [fold_left flat_map].
  - simpl. lia.
  - rewrite IH, length_app. lia.
Qed.

Lemma tabs_of_windowRecords (windows : list LiveWindow.t) :
  flat_map (fun window => match WindowData.tabs window with
                          | Some tabs => tabs
                          | None => []
                          end) (windowRecords windows)
  = tabRecords (allTabs windows).
Proof.
  induction windows as [|window windows IH]; [reflexivity |].
  change (window :: windows) with ([window] ++ windows)%list.
  rewrite windowRecords_app, flat_map_app, IH.
  unfold allTabs. rewrite flat_map_app, tabRecords_app. f_equal.
  unfold windowRecords. cbn [flat_map]. rewrite !app_nil_r.
  destruct (tabRecords (tabsOf window)); [reflexivity |].
  cbn [flat_map WindowData.tabs]. apply app_nil_r.
Qed.

Lemma tabRecords_length (tabs : list LiveTab.t) :
  List.length (tabRecords tabs) = List.length (filter kept_tab tabs).
Proof. unfold tabRecords. apply length_map. Qed.

Lemma hasTabs_windowRecords (windows : list LiveWindow.t) :
  existsb (fun windowData => match WindowData.tabs windowData with
                             | Some (_ :: _) => true
                             | _ => false
                             end) (windowRecords windows)
  = existsb kept_tab (allTabs windows).
Proof.
  induction windows as [|window windows IH]; [reflexivity |].
  change (window :: windows) with ([window] ++ windows)%list.
  rewrite windowRecords_app. unfold allTabs. rewrite flat_map_app, !existsb_app.
  fold (allTabs windows). rewrite IH. f_equal.
  unfold windowRecords. cbn [flat_map]. rewrite !app_nil_r.
  unfold tabRecords. fold kept_tab.
  induction (tabsOf window) as [|tab tabs IHt]; [reflexivity |].
  cbn [filter existsb]. destruct (kept_tab tab); [reflexivity |]. exact IHt.
Qed.

Lemma existsb_filter_length (A : Type) (p : A -> bool) (l : list A) :
  existsb p l = true <-> (0 < List.length (filter p l))%nat.
Proof.
  induction l as [|x l IH]; cbn [existsb filter].
  - simpl. split; [discriminate | lia].
  - destruct (p x); simpl; [split; [lia | reflexivity] | exact IH].
Qed.

(** X7.  When the browser enumerates its windows, the session that
    [captureSession] builds holds as many tabs, by [countSessionTabs], as
    the windows show tabs that are not skipped; it passes [validateSession]
    exactly when there is such a tab, that is, when its tab count is
    positive. *)
Theorem captured_session_is_valid_iff_a_tab_is_kept
        (E : Type) (b : Browser E) (w : World E) (sessionName : string)
        (windows : list LiveWindow.t) :
  fst (answer b WindowsGetAll (env w)) = Done windows ->
  exists sessionData,
    value (run b (captureSession sessionName) w) = Done sessionData /\
    countSessionTabs sessionData = List.length (filter kept_tab (allTabs windows)) /\
    validateSession sessionData = existsb kept_tab (allTabs windows) /\
    (validateSession sessionData = true <-> (0 < countSessionTabs sessionData)%nat).
Proof.
  intro Hw.
  destruct (@run_captureSession E b nothingCollected (nothingCollected_step b)
              sessionName w windows Hw)
    as [sessionData [groupMap [cs [Hv [_ [Hwin [Hgr [_ HG]]]]]]]].
  { intros _. split; reflexivity. }
  exists sessionData. split; [exact Hv |].
  assert (Hcount : countSessionTabs sessionData
                   = List.length (filter kept_tab (allTabs windows))).
  { unfold countSessionTabs. rewrite Hwin, fold_left_count, tabs_of_windowRecords.
    now rewrite tabRecords_length. }
  assert (Hvalid : validateSession sessionData = existsb kept_tab (allTabs windows)).
  { unfold validateSession. rewrite Hwin, Hgr, hasTabs_windowRecords.
    destruct (existsb kept_tab (allTabs windows)) eqn:Hany; [reflexivity |].
    assert (Hall : forall tab, In tab (allTabs windows) -> skipped tab = true).
    { intros tab Hin. destruct (skipped tab) eqn:Hs; [reflexivity | exfalso].
      assert (Ht : existsb kept_tab (allTabs windows) = true)
        by (apply existsb_exists; exists tab; unfold kept_tab; now rewrite Hs).
      congruence. }
    destruct (HG Hall) as [-> _]. reflexivity. }
  split; [exact Hcount |]. split; [exact Hvalid |].
  rewrite Hvalid, Hcount. apply existsb_filter_length.
Qed.

Lemma captured_session_is_valid_iff_a_tab_is_kept_witness :
  exists sessionData,
    value (run (openBrowser [internalWindow; workWindow] 0) (captureSession "Monday") freshWorld)
    = Done sessionData /\
    countSessionTabs sessionData
    = List.length (filter kept_tab (allTabs [internalWindow; workWindow])) /\
    validateSession sessionData = existsb kept_tab (allTabs [internalWindow; workWindow]) /\
    (validateSession sessionData = true <-> (0 < countSessionTabs sessionData)%nat).
Proof.
  apply (@captured_session_is_valid_iff_a_tab_is_kept Z
           (openBrowser [internalWindow; workWindow] 0) freshWorld "Monday"
           [internalWindow; workWindow]).
  reflexivity.
Defined.

(** ** Undo: record, then undo *)

Lemma removelast_pushUndo (history : list UndoEntry.t) (entry : UndoEntry.t) :
  removelast (pushUndo history entry)
  = if Nat.ltb (List.length history) 20 then history else tl history.
Proof.
  unfold pushUndo. rewrite length_app. cbn [List.length].
  destruct (Nat.ltb_spec (List.length history) 20) as [Hlt | Hge].
  - destruct (Nat.ltb_spec 20 (List.length history + 1)); [lia |]. apply removelast_last.
  - destruct (Nat.ltb_spec 20 (List.length history + 1)); [| lia].
    destruct history as [|x t]; [simpl in Hge; lia |]. cbn [app tl]. apply removelast_last.
Qed.

Lemma last_pushUndo (history : list UndoEntry.t) (entry d : UndoEntry.t) :
  last (pushUndo history entry) d = entry /\ pushUndo history entry <> [].
Proof.
  unfold pushUndo. rewrite length_app. cbn [List.length].
  destruct (Nat.ltb_spec 20 (List.length history + 1)) as [Hlt | Hge].
  - destruct history as [|x t]; [simpl in Hlt; lia |]. cbn [app tl].
    split; [apply last_last |]. destruct t; discriminate.
  - split; [apply last_last |]. destruct history; discriminate.
Qed.

Section UndoRoundTrip.
Variable E : Type.
Variable b : Browser E.
Hypothesis storage_ok : reliable b.

(** With a storage that answers, [saveUndoStateInline] always records. *)
Lemma run_saveUndoStateInline (actionType : string) (w : World E) :
  let r := run b (saveUndoStateInline actionType) w in
  exists entry,
    UndoEntry.type entry = actionType /\
    value r = Done true /\
    undoHistory (store (world r)) = Some (pushUndo (storedUndo w) entry) /\
    sessions (store (world r)) = sessions (store w).
Proof.
  cbv zeta. unfold saveUndoStateInline, storedUndo.
  set (history := match undoHistory (store w) with Some h => h | None => [] end).
  set (w1 := snd (exec b (Store GetUndoHistory) w)).
  assert (Hw1 : store w1 = store w)
    by (unfold w1; rewrite (exec_Store_reliable storage_ok); reflexivity).
  set (w2 := snd (exec b (Api DateNow) w1)).
  assert (Hw2 : store w2 = store w) by (unfold w2; now rewrite exec_Api_store).
  destruct (world_tryCatch_quiet b
              (windows <- await (Api WindowsGetAll) ;; captureUndoWindows true windows)
              [] w2) as [_ [_ [state Hstate]]].
  fold captureCurrentGroupsInline in Hstate.
  set (w3 := world (run b captureCurrentGroupsInline w2)).
  assert (Hw3 : store w3 = store w).
  { unfold w3. rewrite Uses_isApi_store; [exact Hw2 |].
    unfold captureCurrentGroupsInline, captureUndoWindows, captureUndoGroups. uses. }
  set (entry := {| UndoEntry.type := actionType;
                   UndoEntry.timestamp := fst (exec b (Api DateNow) w1);
                   UndoEntry.previousGroups := state |}).
  exists entry. split; [reflexivity |].
  assert (Hbody :
    let r := run b (result <- await (Store GetUndoHistory) ;;
                    let history := match result with Some h => h | None => [] end in
                    now <- perform (await (Api DateNow)) ;;
                    state <- captureCurrentGroupsInline ;;
                    await (Store (SetUndoHistory
                                    (pushUndo history
                                       {| UndoEntry.type := actionType;
                                          UndoEntry.timestamp := now;
                                          UndoEntry.previousGroups := state |}))) ;;
                    ret true) w in
    value r = Done true /\
    store (world r) = {| sessions := sessions (store w);
                         undoHistory := Some (pushUndo history entry);
                         testKey := testKey (store w) |}).
  { cbv zeta. split.
    all: unfold bindM at 1; rewrite run_bind; cbn [run await value world calls];
      fold w1; rewrite (exec_Store_reliable storage_ok); cbn [fst snd storeStep];
      fold history;
      unfold bindM at 1; rewrite run_bind, run_perform; cbn [run await value world calls];
      fold w2;
      rewrite (run_bindM_Done _ _ _ _ Hstate); cbn [value world]; fold w3;
      unfold bindM at 1; rewrite run_bind; cbn [run await ret value world calls];
      rewrite (exec_Store_reliable storage_ok); cbn [fst snd storeStep store];
      rewrite ?Hw3; reflexivity. }
  cbv zeta in Hbody. destruct Hbody as [Hv Hs].
  rewrite (run_tryCatch_Done _ _ _ _ Hv). cbn [value world]. rewrite Hs.
  repeat split.
Qed.

(** With a storage that answers and a history that is not empty,
    [undoLastActionInline] always pops. *)
Lemma run_undoLastActionInline (w : World E) (history : list UndoEntry.t) :
  undoHistory (store w) = Some history ->
  history <> [] ->
  let r := run b undoLastActionInline w in
  value r = Done true /\
  undoHistory (store (world r)) = Some (removelast history) /\
  sessions (store (world r)) = sessions (store w).
Proof.
  intros Hh Hne. destruct history as [|first others]; [contradiction |].
  cbv zeta. unfold undoLastActionInline.
  set (state := UndoEntry.previousGroups (last (first :: others) first)).
  set (w1 := snd (exec b (Store GetUndoHistory) w)).
  assert (Hw1 : store w1 = store w)
    by (unfold w1; rewrite (exec_Store_reliable storage_ok); reflexivity).
  set (w2 := snd (exec b (Store (SetUndoHistory (removelast (first :: others)))) w1)).
  assert (Hw2 : store w2 = {| sessions := sessions (store w);
                              undoHistory := Some (removelast (first :: others));
                              testKey := testKey (store w) |}).
  { unfold w2. rewrite (exec_Store_reliable storage_ok). cbn [fst snd storeStep store].
    now rewrite Hw1. }
  destruct (world_tryCatch_quiet b
              (forEach state
                 (fun windowState _ =>
                    tryCatch (replayWindow true windowState) (fun _ => ret tt)) tt ;;
               ret true)
              false w2) as [_ [_ [ok Hok]]].
  fold (restoreUndoStateInline state) in Hok.
  assert (Hw3 : store (world (run b (restoreUndoStateInline state) w2)) = store w2).
  { apply Uses_isApi_store.
    unfold restoreUndoStateInline, replayWindow, windowOrNull, ungroupAll, regroup. uses. }
  assert (Hbody :
    let r := run b (result <- await (Store GetUndoHistory) ;;
                    let history := match result with Some h => h | None => [] end in
                    match history with
                    | [] => ret false
                    | first :: _ =>
                        let lastState := last history first in
                        await (Store (SetUndoHistory (removelast history))) ;;
                        restoreUndoStateInline (UndoEntry.previousGroups lastState) ;;
                        ret true
                    end) w in
    value r = Done true /\ store (world r) = store w2).
  { cbv zeta. split.
    all: unfold bindM at 1; rewrite run_bind; cbn [run await value world calls];
      fold w1; rewrite (exec_Store_reliable storage_ok); cbn [fst snd storeStep];
      rewrite Hh; fold state;
      unfold bindM at 1; rewrite run_bind; cbn [run await value world calls];
      fold w2; rewrite (exec_Store_reliable storage_ok); cbn [fst];
      rewrite (run_bindM_Done _ _ _ _ Hok); cbn [run ret value world].
    - reflexivity.
    - exact Hw3. }
  cbv zeta in Hbody. destruct Hbody as [Hv Hs].
  rewrite (run_tryCatch_Done _ _ _ _ Hv). cbn [value world]. rewrite Hs, Hw2.
  repeat split.
Qed.

End UndoRoundTrip.

Section UndoRoundTripPopup.
Variable E : Type.
Variable b : Browser E.
Hypothesis storage_ok : reliable b.

Lemma completes_captureUndoWindows (withPinned : bool) (windows : list LiveWindow.t) :
  completes b (captureUndoWindows withPinned windows).
Proof.
  unfold captureUndoWindows. apply completes_forEach. intros window state.
  destruct (LiveWindow.tabs window) as [tabs|]; [| apply completes_ret].
  apply completes_bindM; [| intro; apply completes_ret].
  unfold captureUndoGroups. apply completes_forEach. intros groupId groups.
  apply completes_tryCatch. intro. apply completes_ret.
Qed.

(** With a storage that answers, [saveUndoState] records as soon as the
    windows are enumerated. *)
Lemma run_saveUndoState (actionType : string) (w : World E) (windows : list LiveWindow.t) :
  fst (answer b WindowsGetAll (snd (storageFault b GetUndoHistory (env w)))) = Done windows ->
  let r := run b (saveUndoState actionType) w in
  exists entry,
    UndoEntry.type entry = actionType /\
    value r = Done tt /\
    undoHistory (store (world r)) = Some (pushUndo (storedUndo w) entry) /\
    sessions (store (world r)) = sessions (store w).
Proof.
  intro Hwin. cbv zeta. unfold saveUndoState, storedUndo.
  set (history := match undoHistory (store w) with Some h => h | None => [] end).
  set (w1 := snd (exec b (Store GetUndoHistory) w)).
  assert (Hw1 : w1 = {| store := store w; env := snd (storageFault b GetUndoHistory (env w)) |})
    by (unfold w1; rewrite (exec_Store_reliable storage_ok); reflexivity).
  assert (Hx : exists w2, exec b (Api WindowsGetAll) w1 = (Done windows, w2) /\
                          store w2 = store w).
  { rewrite Hw1. unfold exec. cbn [env store].
    destruct (answer b WindowsGetAll (snd (storageFault b GetUndoHistory (env w)))) as [r e].
    simpl in Hwin. subst r. eexists. split; reflexivity. }
  destruct Hx as [w2 [Hx Hw2]].
  destruct (completes_captureUndoWindows false windows w2) as [state Hstate].
  set (w3 := world (run b (captureUndoWindows false windows) w2)).
  assert (Hw3 : store w3 = store w).
  { unfold w3. rewrite Uses_isApi_store; [exact Hw2 | apply Uses_captureUndoWindows]. }
  set (w4 := snd (exec b (Api DateNow) w3)).
  assert (Hw4 : store w4 = store w) by (unfold w4; now rewrite exec_Api_store).
  set (entry := {| UndoEntry.type := actionType;
                   UndoEntry.timestamp := fst (exec b (Api DateNow) w3);
                   UndoEntry.previousGroups := state |}).
  exists entry. split; [reflexivity |].
  assert (Hbody :
    let r := run b (result <- await (Store GetUndoHistory) ;;
                    let history := match result with Some h => h | None => [] end in
                    windows <- await (Api WindowsGetAll) ;;
                    state <- captureUndoWindows false windows ;;
                    now <- perform (await (Api DateNow)) ;;
                    await (Store (SetUndoHistory
                                    (pushUndo history
                                       {| UndoEntry.type := actionType;
                                          UndoEntry.timestamp := now;
                                          UndoEntry.previousGroups := state |})))) w in
    value r = Done tt /\
    store (world r) = {| sessions := sessions (store w);
                         undoHistory := Some (pushUndo history entry);
                         testKey := testKey (store w) |}).
  { cbv zeta. split.
    all: unfold bindM at 1; rewrite run_bind; cbn [run await value world calls];
      fold w1; rewrite (exec_Store_reliable storage_ok); cbn [fst snd storeStep];
      fold history;
      unfold bindM at 1; rewrite run_bind; cbn [run await value world calls];
      rewrite Hx; cbn [fst snd];
      rewrite (run_bindM_Done _ _ _ _ Hstate); cbn [value world]; fold w3;
      unfold bindM at 1; rewrite run_bind, run_perform; cbn [run await value world calls];
      fold w4;
      rewrite (exec_Store_reliable storage_ok); cbn [fst snd storeStep store];
      rewrite ?Hw4; reflexivity. }
  cbv zeta in Hbody. destruct Hbody as [Hv Hs].
  rewrite (run_tryCatch_Done _ _ _ _ Hv). cbn [value world]. rewrite Hs.
  repeat split.
Qed.

(** With a storage that answers and a history that is not empty,
    [performUndo] always pops, whatever becomes of the replay. *)
Lemma run_performUndo (w : World E) (history : list UndoEntry.t) :
  undoHistory (store w) = Some history ->
  history <> [] ->
  let r := run b performUndo w in
  (exists ok, value r = Done ok) /\
  undoHistory (store (world r)) = Some (removelast history) /\
  sessions (store (world r)) = sessions (store w).
Proof.
  intros Hh Hne. destruct history as [|first others]; [contradiction |].
  cbv zeta. unfold performUndo.
  set (state := UndoEntry.previousGroups (last (first :: others) first)).
  set (w1 := snd (exec b (Store GetUndoHistory) w)).
  assert (Hw1 : store w1 = store w)
    by (unfold w1; rewrite (exec_Store_reliable storage_ok); reflexivity).
  set (w2 := snd (exec b (Store (SetUndoHistory (removelast (first :: others)))) w1)).
  assert (Hw2 : store w2 = {| sessions := sessions (store w);
                              undoHistory := Some (removelast (first :: others));
                              testKey := testKey (store w) |}).
  { unfold w2. rewrite (exec_Store_reliable storage_ok). cbn [fst snd storeStep store].
    now rewrite Hw1. }
  set (rest := forEach state (fun windowState _ => replayWindow false windowState) tt ;;
               await (Api LoadActiveGroups) ;;
               perform (await (Api (ShowToast "Action undone" "success"))) ;;
               ret true).
  assert (Hrest : Uses isApi rest)
    by (unfold rest, replayWindow, windowOrNull, ungroupAll, regroup; uses).
  match goal with
  | |- context [tryCatch ?p ?h] =>
      destruct (@run_tryCatch_api E b bool p h w) as [Hs _];
        [intro m; uses |];
      assert (Hbody : store (world (run b p w)) = store w2)
  end.
  { unfold bindM at 1. rewrite run_bind. cbn [run await value world calls].
    fold w1. rewrite (exec_Store_reliable storage_ok). cbn [fst snd storeStep].
    rewrite Hh. fold state.
    unfold bindM at 1. rewrite run_bind. cbn [run await value world calls].
    fold w2. rewrite (exec_Store_reliable storage_ok). cbn [fst].
    fold rest. now apply Uses_isApi_store. }
  split; [| rewrite Hs, Hbody, Hw2; split; reflexivity].
  apply completes_tryCatch. intro m. apply completes_bindM; [apply completes_perform |].
  intro. apply completes_ret.
Qed.

End UndoRoundTripPopup.

(** ** The undo bound, for what is recorded *)

Lemma fold_pushUndo_bound (entries history : list UndoEntry.t) :
  (List.length history <= 20)%nat ->
  (List.length (fold_left pushUndo entries history) <= 20)%nat.
Proof.
  revert history. induction entries as [|e entries IH]; intros history H; simpl.
  - assumption.
  - apply IH, pushUndo_bound, H.
Qed.

(** With a storage that answers, recording [n] times in a row pushes [n]
    entries, one after the other. *)
Lemma run_recordTimes (E : Type) (b : Browser E) (n : nat) :
  reliable b ->
  forall w : World E,
  exists recorded,
    List.length recorded = n /\
    Forall (fun entry => UndoEntry.type entry = "group-by-type") recorded /\
    storedUndo (world (run b (recordTimes n) w))
    = fold_left pushUndo recorded (storedUndo w).
Proof.
  intro Hok. unfold recordTimes. generalize (seq 0 n) (length_seq n 0).
  intros items. revert n. induction items as [|i items IH]; intros n Hn w.
  - exists []. simpl in Hn. subst n. repeat split. constructor.
  - destruct n as [|n]; [discriminate Hn |]. injection Hn as Hn.
    cbn [forEach].
    destruct (run_saveUndoStateInline Hok "group-by-type" w) as [entry [Ht [Hv [Hh _]]]].
    assert (Hstep : value (run b (saveUndoStateInline "group-by-type" ;; ret tt) w) = Done tt)
      by (rewrite (run_bindM_Done _ _ _ _ Hv); reflexivity).
    assert (Hworld : world (run b (saveUndoStateInline "group-by-type" ;; ret tt) w)
                     = world (run b (saveUndoStateInline "group-by-type") w))
      by (rewrite (run_bindM_Done _ _ _ _ Hv); reflexivity).
    rewrite (run_bindM_Done _ _ _ _ Hstep). cbn [world]. rewrite Hworld.
    destruct (IH n Hn (world (run b (saveUndoStateInline "group-by-type") w)))
      as [recorded [Hlen [Hall Hstored]]].
    exists (entry :: recorded). split; [simpl; now rewrite Hlen |].
    split; [now constructor |].
    rewrite Hstored. cbn [fold_left]. f_equal. unfold storedUndo at 1. now rewrite Hh.
Qed.

(** C3.  The undo history never holds more than 20 entries.  A history
    of at most 20 entries still has at most 20 after [saveUndoState] or
    [saveUndoStateInline], whatever the browser does: what is stored then
    is the history as it was, or the history with one entry of the
    recorded action pushed onto it; and it is the latter when the storage
    answers (and, for [saveUndoState], the windows are enumerated).  A
    push appends the entry and, beyond 20, drops the oldest.  Recording
    [n] times in a row under a storage that answers stores the pushes of
    [n] entries, in order: at most 20 entries, and from the empty history
    the [n - 20] oldest of them are gone; so 25 entries pushed in sequence
    onto the empty history leave the 20 most recent, in order. *)
Theorem undo_history_bounded
        (E : Type) (b : Browser E) (w : World E) (actionType : string)
        (entries : list UndoEntry.t) :
  (List.length (storedUndo w) <= 20)%nat ->
  List.length entries = 25%nat ->
  (List.length (storedUndo (world (run b (saveUndoState actionType) w))) <= 20)%nat /\
  (List.length (storedUndo (world (run b (saveUndoStateInline actionType) w))) <= 20)%nat /\
  (forall entry,
      pushUndo (storedUndo w) entry =
      skipn (List.length (storedUndo w) + 1 - 20) (storedUndo w ++ [entry])) /\
  fold_left pushUndo entries [] = skipn 5 entries /\
  List.length (fold_left pushUndo entries []) = 20%nat /\
  (storedUndo (world (run b (saveUndoState actionType) w)) = storedUndo w \/
   exists entry,
     UndoEntry.type entry = actionType /\
     storedUndo (world (run b (saveUndoState actionType) w))
     = pushUndo (storedUndo w) entry) /\
  (storedUndo (world (run b (saveUndoStateInline actionType) w)) = storedUndo w \/
   exists entry,
     UndoEntry.type entry = actionType /\
     storedUndo (world (run b (saveUndoStateInline actionType) w))
     = pushUndo (storedUndo w) entry) /\
  (reliable b ->
   (forall windows,
       fst (answer b WindowsGetAll (snd (storageFault b GetUndoHistory (env w))))
       = Done windows ->
       exists entry,
         UndoEntry.type entry = actionType /\
         storedUndo (world (run b (saveUndoState actionType) w))
         = pushUndo (storedUndo w) entry) /\
   (exists entry,
       UndoEntry.type entry = actionType /\
       storedUndo (world (run b (saveUndoStateInline actionType) w))
       = pushUndo (storedUndo w) entry) /\
   (forall n,
       exists recorded,
         List.length recorded = n /\
         storedUndo (world (run b (recordTimes n) w))
         = fold_left pushUndo recorded (storedUndo w) /\
         (List.length (storedUndo (world (run b (recordTimes n) w))) <= 20)%nat /\
         (storedUndo w = [] ->
          storedUndo (world (run b (recordTimes n) w)) = skipn (n - 20) recorded))).
Proof.
  intros Hw He.
  assert (bounded : forall s, pushedAtMostOnce (storedUndo w) actionType s ->
            (List.length (match undoHistory s with Some h => h | None => [] end) <= 20)%nat).
  { intros s [Hs | [entry [_ Hs]]]; rewrite Hs; [assumption | now apply pushUndo_bound]. }
  assert (pushed : forall s, pushedAtMostOnce (storedUndo w) actionType s ->
            match undoHistory s with Some h => h | None => [] end = storedUndo w \/
            exists entry,
              UndoEntry.type entry = actionType /\
              match undoHistory s with Some h => h | None => [] end
              = pushUndo (storedUndo w) entry).
  { intros s [Hs | [entry [Ht Hs]]]; [now left |].
    right. exists entry. split; [exact Ht | now rewrite Hs]. }
  repeat apply conj.
  - apply bounded, saveUndoState_history.
  - apply bounded, saveUndoStateInline_history.
  - intro entry. now apply pushUndo_skipn.
  - rewrite fold_pushUndo, He. reflexivity.
  - rewrite fold_pushUndo, length_skipn, He. reflexivity.
  - apply pushed, saveUndoState_history.
  - apply pushed, saveUndoStateInline_history.
  - intros Hok. repeat apply conj.
    + intros windows Hwin.
      destruct (run_saveUndoState Hok actionType w Hwin) as [entry [Ht [_ [Hh _]]]].
      exists entry. split; [exact Ht |]. unfold storedUndo at 1. now rewrite Hh.
    + destruct (run_saveUndoStateInline Hok actionType w) as [entry [Ht [_ [Hh _]]]].
      exists entry. split; [exact Ht |]. unfold storedUndo at 1. now rewrite Hh.
    + intro n. destruct (run_recordTimes n Hok w) as [recorded [Hlen [_ Hstored]]].
      exists recorded. split; [exact Hlen |]. split; [exact Hstored |]. split.
      * rewrite Hstored. now apply fold_pushUndo_bound.
      * intro Hempty. rewrite Hstored, Hempty, fold_pushUndo, Hlen. reflexivity.
Qed.

(** The witness of C3: the demo world, whose undo history is empty, a
    browser that enumerates one window, and the 25 demo entries. *)
Lemma undo_history_bounded_witness :
  (List.length (storedUndo (world (run undoBrowser (saveUndoState "ungroup-all") demoWorld)))
   <= 20)%nat /\
  (List.length (storedUndo (world (run undoBrowser (saveUndoStateInline "ungroup-all")
                                       demoWorld)))
   <= 20)%nat /\
  fold_left pushUndo demoEntries [] = skipn 5 demoEntries /\
  List.length (fold_left pushUndo demoEntries []) = 20%nat /\
  (exists entry,
      UndoEntry.type entry = "ungroup-all" /\
      storedUndo (world (run undoBrowser (saveUndoState "ungroup-all") demoWorld))
      = pushUndo (storedUndo demoWorld) entry) /\
  (exists entry,
      UndoEntry.type entry = "ungroup-all" /\
      storedUndo (world (run undoBrowser (saveUndoStateInline "ungroup-all") demoWorld))
      = pushUndo (storedUndo demoWorld) entry) /\
  (exists recorded,
      List.length recorded = 25%nat /\
      storedUndo (world (run undoBrowser (recordTimes 25) demoWorld)) = skipn 5 recorded).
Proof.
  destruct (@undo_history_bounded Z undoBrowser demoWorld "ungroup-all" demoEntries)
    as [H1 [H2 [_ [H4 [H5 [_ [_ H8]]]]]]].
  - simpl. lia.
  - reflexivity.
  - destruct H8 as [Hpopup [Hworker Htimes]]; [intros op e; reflexivity |].
    repeat apply conj; try assumption.
    + apply (Hpopup [workWindow]). reflexivity.
    + destruct (Htimes 25%nat) as [recorded [Hlen [_ [_ Hempty]]]].
      exists recorded. split; [exact Hlen |]. apply Hempty. reflexivity.
Defined.

(** Twenty-five calls of [saveUndoStateInline] in a row, starting from no
    history: the entries stored are those of the last twenty calls. *)
Example record_25_times :
  map UndoEntry.timestamp (storedUndo (world (run idleBrowser (recordTimes 25) demoWorld))) =
  map (fun n => 2 * Z.of_nat n) (seq 5 20).
Proof. vm_compute. reflexivity. Qed.


(** A browser with one window open, and a world with the demo history. *)
(** X8.  Under reliable storage, recording an undo entry and undoing at
    once leaves the undo history as it was before, or, when it already held
    twenty entries or more, without its oldest entry; the session list is
    untouched.  This holds for the background worker
    ([saveUndoStateInline], [undoLastActionInline]) and, when the browser
    enumerates its windows, for the popup ([saveUndoState],
    [performUndo]). *)
Theorem undo_after_record_restores_history
        (E : Type) (b : Browser E) (w : World E) (actionType : string) :
  reliable b ->
  let restored :=
    if Nat.ltb (List.length (storedUndo w)) 20 then storedUndo w else tl (storedUndo w) in
  let recordedInline := run b (saveUndoStateInline actionType) w in
  let undoneInline := run b undoLastActionInline (world recordedInline) in
  let recorded := run b (saveUndoState actionType) w in
  let undone := run b performUndo (world recorded) in
  (value recordedInline = Done true /\
   value undoneInline = Done true /\
   storedUndo (world undoneInline) = restored /\
   sessions (store (world undoneInline)) = sessions (store w)) /\
  (forall windows,
      fst (answer b WindowsGetAll (snd (storageFault b GetUndoHistory (env w)))) = Done windows ->
      value recorded = Done tt /\
      (exists ok, value undone = Done ok) /\
      storedUndo (world undone) = restored /\
      sessions (store (world undone)) = sessions (store w)).
Proof.
  intros Hrel restored recordedInline undoneInline recorded undone. split.
  - destruct (run_saveUndoStateInline Hrel actionType w) as [entry [_ [Hv [Hu Hs]]]].
    fold recordedInline in Hv, Hu, Hs.
    destruct (last_pushUndo (storedUndo w) entry entry) as [_ Hne].
    destruct (run_undoLastActionInline Hrel (world recordedInline) Hu Hne) as [Hv2 [Hu2 Hs2]].
    fold undoneInline in Hv2, Hu2, Hs2.
    split; [exact Hv |]. split; [exact Hv2 |]. split.
    + unfold storedUndo at 1. rewrite Hu2. apply removelast_pushUndo.
    + now rewrite Hs2.
  - intros windows Hwin.
    destruct (run_saveUndoState Hrel actionType w Hwin) as [entry [_ [Hv [Hu Hs]]]].
    fold recorded in Hv, Hu, Hs.
    destruct (last_pushUndo (storedUndo w) entry entry) as [_ Hne].
    destruct (run_performUndo Hrel (world recorded) Hu Hne) as [Hv2 [Hu2 Hs2]].
    fold undone in Hv2, Hu2, Hs2.
    split; [exact Hv |]. split; [exact Hv2 |]. split.
    + unfold storedUndo at 1. rewrite Hu2. apply removelast_pushUndo.
    + now rewrite Hs2.
Qed.

Lemma undo_after_record_restores_history_witness :
  let restored :=
    if Nat.ltb (List.length (storedUndo undoWorld)) 20
    then storedUndo undoWorld else tl (storedUndo undoWorld) in
  let recordedInline := run undoBrowser (saveUndoStateInline "ungroup-all") undoWorld in
  let undoneInline := run undoBrowser undoLastActionInline (world recordedInline) in
  let recorded := run undoBrowser (saveUndoState "ungroup-all") undoWorld in
  let undone := run undoBrowser performUndo (world recorded) in
  (value recordedInline = Done true /\
   value undoneInline = Done true /\
   storedUndo (world undoneInline) = restored /\
   sessions (store (world undoneInline)) = sessions (store undoWorld)) /\
  (forall windows,
      fst (answer undoBrowser WindowsGetAll
             (snd (storageFault undoBrowser GetUndoHistory (env undoWorld)))) = Done windows ->
      value recorded = Done tt /\
      (exists ok, value undone = Done ok) /\
      storedUndo (world undone) = restored /\
      sessions (store (world undone)) = sessions (store undoWorld)).
Proof.
  apply (@undo_after_record_restores_history Z undoBrowser undoWorld "ungroup-all").
  intros op e. reflexivity.
Defined.

(** Recorded in the popup and undone at once: the history is the demo
    history again, although the replay itself fails in this browser. *)
Example record_then_undo :
  let recorded := run undoBrowser (saveUndoState "ungroup-all") undoWorld in
  let undone := run undoBrowser performUndo (world recorded) in
  List.length (storedUndo (world recorded)) = 3%nat /\
  value undone = Done false /\
  storedUndo (world undone) = storedUndo undoWorld.
Proof. vm_compute. repeat split. Qed.

(** X9.  With an empty undo history both undo functions return [false]
    and leave the store as it was.  [performUndo] reads the history and
    shows one toast: that there is nothing to undo, or, when the read was
    rejected, that the undo failed.  [undoLastActionInline] only reads the
    history. *)
Theorem nothing_to_undo (E : Type) (b : Browser E) (w : World E) :
  storedUndo w = [] ->
  (value (run b performUndo w) = Done false /\
   store (world (run b performUndo w)) = store w /\
   calls (run b performUndo w)
   = [ Store GetUndoHistory;
       Api (match fst (storageFault b GetUndoHistory (env w)) with
            | None => ShowToast "Nothing to undo" "info"
            | Some _ => ShowToast "Failed to undo action. Please try again." "error"
            end) ]) /\
  (value (run b undoLastActionInline w) = Done false /\
   store (world (run b undoLastActionInline w)) = store w /\
   calls (run b undoLastActionInline w) = [Store GetUndoHistory]).
Proof.
  unfold storedUndo. intro Hempty.
  assert (Hhist : match undoHistory (store w) with Some h => h | None => [] end = [])
    by exact Hempty.
  split.
  - unfold performUndo. run_simpl.
    destruct (fst (storageFault b GetUndoHistory (env w))) as [m|] eqn:F.
    + rewrite (exec_Store_rejected b GetUndoHistory w F). run_simpl.
      unfold exec. cbn [env store].
      destruct (answer b (ShowToast "Failed to undo action. Please try again." "error")
                       (snd (storageFault b GetUndoHistory (env w)))) as [[] e].
      repeat split.
    + rewrite (exec_Store_accepted b GetUndoHistory w F). run_simpl.
      cbn [storeStep fst snd]. rewrite Hhist. run_simpl.
      unfold exec. cbn [env store].
      destruct (answer b (ShowToast "Nothing to undo" "info")
                       (snd (storageFault b GetUndoHistory (env w)))) as [[] e].
      repeat split.
  - unfold undoLastActionInline. run_simpl.
    destruct (fst (storageFault b GetUndoHistory (env w))) as [m|] eqn:F.
    + rewrite (exec_Store_rejected b GetUndoHistory w F). run_simpl. repeat split.
    + rewrite (exec_Store_accepted b GetUndoHistory w F). run_simpl.
      cbn [storeStep fst snd]. rewrite Hhist. run_simpl. repeat split.
Qed.

Lemma nothing_to_undo_witness :
  (value (run idleBrowser performUndo freshWorld) = Done false /\
   store (world (run idleBrowser performUndo freshWorld)) = store freshWorld /\
   calls (run idleBrowser performUndo freshWorld)
   = [ Store GetUndoHistory;
       Api (match fst (storageFault idleBrowser GetUndoHistory (env freshWorld)) with
            | None => ShowToast "Nothing to undo" "info"
            | Some _ => ShowToast "Failed to undo action. Please try again." "error"
            end) ]) /\
  (value (run idleBrowser undoLastActionInline freshWorld) = Done false /\
   store (world (run idleBrowser undoLastActionInline freshWorld)) = store freshWorld /\
   calls (run idleBrowser undoLastActionInline freshWorld) = [Store GetUndoHistory]).
Proof.
  apply (@nothing_to_undo Z idleBrowser freshWorld). reflexivity.
Defined.

(** ** What a restore asks of the browser *)

Lemma truthy_orElse (o : option string) (dflt : string) :
  truthy dflt = true -> truthy (orElse o dflt) = true.
Proof.
  intro Hd. unfold orElse. destruct o as [s|]; [| exact Hd].
  destruct (truthy s) eqn:Hs; assumption.
Qed.

Lemma settlesWindow_restoreCall (c : Call) : settlesWindow c -> restoreCall c.
Proof. destruct c as [op | a]; [contradiction |]. destruct a; simpl; tauto. Qed.

Lemma settlesWindow_opens_nothing (cs : list Call) :
  Forall settlesWindow cs -> openedUrls cs = [].
Proof.
  induction 1 as [| c cs Hc _ IH]; [reflexivity |].
  cbn [openedUrls flat_map]. fold (openedUrls cs). rewrite IH.
  destruct c as [op | a]; [contradiction |]. destruct a; try contradiction; reflexivity.
Qed.

Section RestoreCalls.
Variable parseURL : string -> option (string * string * string).

Lemma Uses_pollLoop (rounds : nat) (windowId : Z) (expectedCount : nat) (startTime maxWait : Z)
      (lastTabCount stableCount : nat) :
  Uses settlesWindow
       (pollLoop rounds windowId expectedCount startTime maxWait lastTabCount stableCount).
Proof.
  revert lastTabCount stableCount.
  induction rounds as [|rounds IH]; intros lastTabCount stableCount; cbn [pollLoop].
  - apply Uses_ret.
  - apply Uses_bindM; [uses |]. intro now.
    destruct (Z.ltb (now - startTime) maxWait); [| apply Uses_ret].
    apply Uses_bindM; [unfold pollOnce; uses; reflexivity |].
    intros [tabs | last stable |]; [apply Uses_ret | apply IH | apply Uses_ret].
Qed.

Lemma Uses_waitForTabs (rounds : nat) (windowId : Z) (expectedCount : nat) (maxWait : Z) :
  Uses settlesWindow (waitForTabs rounds windowId expectedCount maxWait).
Proof.
  unfold waitForTabs. apply Uses_tryCatch; [| intro; apply Uses_ret].
  apply Uses_bindM; [uses |]. intro startTime.
  apply Uses_bindM; [apply Uses_pollLoop |]. intros [tabs | |]; uses.
Qed.

Lemma Uses_restorePinned (tabs : list TabData.t) (createdTabs : list LiveTab.t) :
  Uses settlesWindow (restorePinned parseURL tabs createdTabs).
Proof. unfold restorePinned. uses. Qed.

Lemma Uses_restoreGroups (groups : option (list GroupData.t)) (windowId : Z)
      (updatedTabs : list LiveTab.t) :
  Uses settlesWindow (restoreGroups parseURL groups windowId updatedTabs).
Proof.
  unfold restoreGroups. destruct groups as [[|g gs]|]; try apply Uses_ret.
  apply Uses_forEach. intros groupData []. unfold restoreGroup.
  destruct (GroupData.tabUrls groupData) as [tabUrls|]; [| apply Uses_throw].
  destruct (groupTabIdsOf parseURL updatedTabs tabUrls); [apply Uses_ret |].
  uses.
  - split; discriminate.
  - split; [cbn [truthyOpt]; apply truthy_orElse; reflexivity
           | apply truthy_orElse; reflexivity].
Qed.

Lemma Uses_restoreActive (tabs : list TabData.t) (updatedTabs : list LiveTab.t) :
  Uses settlesWindow (restoreActive parseURL tabs updatedTabs).
Proof.
  unfold restoreActive. apply Uses_tryCatch; [| intro; apply Uses_ret].
  induction tabs as [|originalTab tabs IH]; cbn [activateFirst]; [apply Uses_ret |].
  destruct (TabData.active originalTab); [| exact IH].
  destruct (findTabByUrl parseURL updatedTabs (TabData.url originalTab)); [uses | exact IH].
Qed.

Lemma Uses_createRemainingTabs (windowId : Z) (urls : list string) :
  (forall url, In url urls -> restorableUrl url = true) ->
  Uses restoreCall (createRemainingTabs windowId urls).
Proof.
  unfold createRemainingTabs. induction urls as [|url urls IH]; intro Hall; cbn [forEach].
  - apply Uses_ret.
  - apply Uses_bindM.
    + uses. apply Hall. now left.
    + intros []. apply IH. intros u Hu. apply Hall. now right.
Qed.

Lemma Uses_settleWindow (session : Session.t) (tabs : list TabData.t) (windowId : Z)
      (createdTabs : list LiveTab.t) :
  Uses settlesWindow (settleWindow parseURL session tabs windowId createdTabs).
Proof.
  unfold settleWindow.
  apply Uses_bindM; [apply Uses_restorePinned | intros _].
  apply Uses_bindM; [uses | intro updatedTabs].
  apply Uses_bindM; [apply Uses_restoreGroups | intros _].
  apply Uses_restoreActive.
Qed.

Variable rounds : nat.

Lemma Uses_restoreWindow (session : Session.t) (windowData : WindowData.t) :
  Uses restoreCall (restoreWindow parseURL rounds session windowData).
Proof.
  unfold restoreWindow. destruct (WindowData.tabs windowData) as [tabs|]; [| apply Uses_throw].
  assert (Hall : forall url, In url (filter restorableUrl (map TabData.url tabs)) ->
                             restorableUrl url = true)
    by (intros url Hin; apply filter_In in Hin; tauto).
  destruct (filter restorableUrl (map TabData.url tabs)) as [|firstTabUrl remainingUrls];
    [apply Uses_ret |].
  apply Uses_bindM; [uses; apply Hall; now left | intro window].
  apply Uses_bindM;
    [apply Uses_createRemainingTabs; intros u Hu; apply Hall; now right | intros _].
  apply Uses_bindM;
    [apply Uses_weaken with (P := settlesWindow);
       [apply settlesWindow_restoreCall | apply Uses_waitForTabs] | intros [createdTabs|]].
  - apply Uses_bindM; [| intros _; apply Uses_ret].
    apply Uses_weaken with (P := settlesWindow);
      [apply settlesWindow_restoreCall | apply Uses_settleWindow].
  - apply Uses_ret.
Qed.

Lemma Uses_restoreWindows (session : Session.t) (windows : list WindowData.t) :
  Uses restoreCall (restoreWindows parseURL rounds session windows).
Proof.
  induction windows as [|windowData windows IH]; cbn [restoreWindows]; [apply Uses_ret |].
  apply Uses_bindM; [apply Uses_restoreWindow |].
  intros [[]|]; [exact IH | apply Uses_ret].
Qed.

Lemma Uses_restoreSession (sessionId : string) :
  Uses restoreCall (restoreSession parseURL rounds sessionId).
Proof.
  unfold restoreSession. apply Uses_tryCatch.
  - apply Uses_bindM; [unfold getAllSessions; uses | intro sessions].
    destruct (find (fun s => String.eqb (Session.id s) sessionId) sessions) as [session|];
      [| apply Uses_throw].
    destruct (negb (validateSession session)); [apply Uses_throw |].
    destruct (Session.windows session) as [windows|]; [| apply Uses_throw].
    apply Uses_restoreWindows.
  - intro m. apply Uses_throw.
Qed.

End RestoreCalls.

(** X10.  Every call that [restoreSession] issues is one of: the read
    of the session list; the creation of a window or of a tab on a URL that
    passes the filter of line 323; a query of the tabs of a window, a read
    of the clock or a timer of 200 ms; the pinning or the activation of a
    tab; the grouping, in a given window, of a non-empty list of tabs; the
    naming of a group with a non-empty title and colour.  It writes nothing
    to the store.  This holds however far its polling loops are followed. *)
Theorem restore_asks_only_for_what_it_restores
        (E : Type) (b : Browser E) (parseURL : string -> option (string * string * string))
        (rounds : nat) (sessionId : string) (w : World E) :
  Forall restoreCall (calls (run b (restoreSession parseURL rounds sessionId) w)) /\
  store (world (run b (restoreSession parseURL rounds sessionId) w)) = store w.
Proof.
  split.
  - apply Uses_calls, Uses_restoreSession.
  - apply (Uses_store_invariant b (fun s => s = store w) (P := restoreCall));
      [| apply Uses_restoreSession | reflexivity].
    intros op Hop s ->. destruct op; try contradiction. reflexivity.
Qed.

Section GroupCalls.
Variable parseURL : string -> option (string * string * string).

Lemma findTabByUrl_In (tabs : list LiveTab.t) (targetUrl : string) (tab : LiveTab.t) :
  findTabByUrl parseURL tabs targetUrl = Some tab -> In tab tabs.
Proof.
  unfold findTabByUrl.
  destruct (find (fun t => sameUrl (LiveTab.url t) targetUrl) tabs) as [t1|] eqn:F1.
  { intros [= <-]. now apply find_some in F1. }
  destruct (find (fun t => sameUrl (LiveTab.pendingUrl t) targetUrl) tabs) as [t2|] eqn:F2.
  { intros [= <-]. now apply find_some in F2. }
  intro F3. now apply find_some in F3.
Qed.

Lemma groupTabIdsOf_In (updatedTabs : list LiveTab.t) (tabUrls : list string) (tabId : Z) :
  In tabId (groupTabIdsOf parseURL updatedTabs tabUrls) ->
  exists tab tabUrl,
    In tabUrl tabUrls /\ findTabByUrl parseURL updatedTabs tabUrl = Some tab /\
    In tab updatedTabs /\ LiveTab.id tab = tabId /\ LiveTab.pinned tab = false.
Proof.
  unfold groupTabIdsOf. rewrite in_flat_map. intros [tabUrl [Hu Hin]].
  destruct (findTabByUrl parseURL updatedTabs tabUrl) as [tab|] eqn:F; [| contradiction].
  destruct (LiveTab.pinned tab) eqn:P; cbn [negb] in Hin; [contradiction |].
  destruct Hin as [<- | []]. exists tab, tabUrl.
  repeat split; try assumption. now apply findTabByUrl_In in F.
Qed.

Lemma Uses_restoreGroups_unpinned (groups : option (list GroupData.t)) (windowId : Z)
      (updatedTabs : list LiveTab.t) :
  Uses (groupsUnpinnedTabs updatedTabs windowId)
       (restoreGroups parseURL groups windowId updatedTabs).
Proof.
  unfold restoreGroups. destruct groups as [[|g gs]|]; try apply Uses_ret.
  apply Uses_forEach. intros groupData []. unfold restoreGroup.
  destruct (GroupData.tabUrls groupData) as [tabUrls|]; [| apply Uses_throw].
  destruct (groupTabIdsOf parseURL updatedTabs tabUrls)
    as [|tabId tabIds] eqn:Hids; [apply Uses_ret |].
  uses. split; [reflexivity |]. split; [discriminate |].
  intros id Hin. rewrite <- Hids in Hin.
  destruct (groupTabIdsOf_In _ _ _ Hin) as [tab [_ [_ [_ H]]]]. eauto.
Qed.

Variable E : Type.
Variable b : Browser E.

(** A group record that has its list of URLs is restored without an
    error, whatever the browser rejects. *)
Lemma restoreGroup_Done (windowId : Z) (updatedTabs : list LiveTab.t) (groupData : GroupData.t)
      (w : World E) :
  GroupData.tabUrls groupData <> None ->
  value (run b (restoreGroup parseURL windowId updatedTabs groupData) w) = Done tt.
Proof.
  intro Hsome. unfold restoreGroup.
  destruct (GroupData.tabUrls groupData) as [tabUrls|]; [| contradiction].
  destruct (groupTabIdsOf parseURL updatedTabs tabUrls) as [|tabId tabIds]; [reflexivity |].
  match goal with
  | |- value (run b (tryCatch ?p ?h) w) = _ =>
      destruct (value (run b p w)) as [[] | m] eqn:V
  end.
  - now rewrite (run_tryCatch_Done _ _ _ _ V).
  - now rewrite (run_tryCatch_Threw _ _ _ _ V).
Qed.

Lemma restoreGroups_Done (windowId : Z) (updatedTabs : list LiveTab.t)
      (recorded : list GroupData.t) (w : World E) :
  (forall group, In group recorded -> GroupData.tabUrls group <> None) ->
  value (run b (forEach recorded
                  (fun groupData _ => restoreGroup parseURL windowId updatedTabs groupData) tt)
             w) = Done tt.
Proof.
  revert w. induction recorded as [|group recorded IH]; intros w Hall; [reflexivity |].
  cbn [forEach].
  rewrite (run_bindM_Done _ _ _ _
             (restoreGroup_Done windowId updatedTabs group w (Hall group (or_introl eq_refl)))).
  cbn [value]. apply IH. intros g Hg. apply Hall. now right.
Qed.

(** The loop stops at the first group record without its list of URLs:
    the groups before it have been dealt with, those after it are not. *)
Lemma restoreGroups_Threw (windowId : Z) (updatedTabs : list LiveTab.t)
      (before after : list GroupData.t) (group : GroupData.t) (w : World E) :
  (forall g, In g before -> GroupData.tabUrls g <> None) ->
  GroupData.tabUrls group = None ->
  let body := fun groupData (_ : unit) =>
                restoreGroup parseURL windowId updatedTabs groupData in
  value (run b (forEach (before ++ group :: after) body tt) w) = Threw NotIterable /\
  calls (run b (forEach (before ++ group :: after) body tt) w)
  = calls (run b (forEach before body tt) w) /\
  world (run b (forEach (before ++ group :: after) body tt) w)
  = world (run b (forEach before body tt) w).
Proof.
  intros Hall Hnone. cbv zeta. revert w.
  induction before as [|g before IH]; intro w; cbn [app forEach].
  - unfold restoreGroup. rewrite Hnone. run_simpl. repeat split.
  - pose proof (restoreGroup_Done windowId updatedTabs g w (Hall g (or_introl eq_refl))) as Hg.
    rewrite !(run_bindM_Done _ _ _ _ Hg). cbn [value world calls].
    destruct (IH (fun g' Hg' => Hall g' (or_intror Hg'))
                 (world (run b (restoreGroup parseURL windowId updatedTabs g) w)))
      as [Hv [Hc Hw]].
    rewrite Hv, Hc, Hw. repeat split.
Qed.

End GroupCalls.

(** X11.  [restoreGroups] throws only over a group record that has no
    list of URLs, as the background worker stores them: when every record
    has its list it completes, whatever the browser rejects; otherwise it
    fails at the first record without one, the records before it having
    been dealt with and none after it.  Each grouping it asks for is in the
    given window and lists, without being empty, ids of tabs of that window
    that are not pinned; besides, it only names groups.  In a window whose
    tabs are all pinned it issues no call. *)
Theorem restoreGroups_leaves_pinned_tabs_alone
        (E : Type) (b : Browser E) (parseURL : string -> option (string * string * string))
        (groups : option (list GroupData.t)) (windowId : Z) (updatedTabs : list LiveTab.t)
        (w : World E) :
  let r := run b (restoreGroups parseURL groups windowId updatedTabs) w in
  ((forall recorded group,
       groups = Some recorded -> In group recorded -> GroupData.tabUrls group <> None) ->
   value r = Done tt) /\
  (forall before group after,
      groups = Some (before ++ group :: after)%list ->
      (forall g, In g before -> GroupData.tabUrls g <> None) ->
      GroupData.tabUrls group = None ->
      value r = Threw NotIterable /\
      calls r = calls (run b (restoreGroups parseURL (Some before) windowId updatedTabs) w)) /\
  Forall (groupsUnpinnedTabs updatedTabs windowId) (calls r) /\
  ((forall tab, In tab updatedTabs -> LiveTab.pinned tab = true) -> calls r = []).
Proof.
  cbv zeta. split; [| split; [| split]].
  - intro Hall. unfold restoreGroups. destruct groups as [[|g gs]|]; try reflexivity.
    apply restoreGroups_Done. intros group Hin. now apply (Hall (g :: gs)).
  - intros before group after -> Hall Hnone.
    destruct (restoreGroups_Threw parseURL b windowId updatedTabs before after group w
                Hall Hnone) as [Hv [Hc _]].
    unfold restoreGroups.
    destruct (before ++ group :: after)%list as [|g gs] eqn:Hlist;
      [destruct before; discriminate |].
    split; [exact Hv |].
    rewrite Hc. destruct before; reflexivity.
  - apply Uses_calls, Uses_restoreGroups_unpinned.
  - intro Hall.
    assert (Hnone : forall tabUrls, groupTabIdsOf parseURL updatedTabs tabUrls = []).
    { intro tabUrls.
      destruct (groupTabIdsOf parseURL updatedTabs tabUrls) as [|tabId rest] eqn:Hids;
        [reflexivity | exfalso].
      assert (Hin : In tabId (groupTabIdsOf parseURL updatedTabs tabUrls))
        by (rewrite Hids; now left).
      destruct (groupTabIdsOf_In _ _ _ _ Hin) as [tab [_ [_ [_ [Ht [_ Hp]]]]]].
      rewrite (Hall tab Ht) in Hp. discriminate. }
    unfold restoreGroups. destruct groups as [[|g gs]|]; try reflexivity.
    generalize (g :: gs). intro recorded.
    induction recorded as [|groupData recorded IH]; [reflexivity |].
    cbn [forEach]. unfold restoreGroup at 1.
    destruct (GroupData.tabUrls groupData) as [tabUrls|]; [| reflexivity].
    rewrite Hnone. cbn [run bindM bind ret]. exact IH.
Qed.

(** A group as the background worker stores it, after one that has its
    list: nothing is found for the first, the second makes the loop
    throw. *)
Example restoreGroups_without_tabUrls :
  let groups :=
    [ {| GroupData.originalId := 3; GroupData.title := "Work"; GroupData.color := "blue";
         GroupData.collapsed := false; GroupData.tabUrls := Some ["https://b.example/"] |};
      {| GroupData.originalId := 4; GroupData.title := "Mail"; GroupData.color := "red";
         GroupData.collapsed := false; GroupData.tabUrls := None |} ] in
  run stillBrowser
      (restoreGroups (fun _ => None) (Some groups) 100
                     [liveTab 101 (Some "https://a.example/") TAB_ID_NONE])
      stillWorld
  = {| value := Threw NotIterable; world := stillWorld; calls := [] |}.
Proof. vm_compute. reflexivity. Qed.

(** ** The URLs a restore opens *)

Lemma openedUrls_app (l1 l2 : list Call) :
  openedUrls (l1 ++ l2) = (openedUrls l1 ++ openedUrls l2)%list.
Proof. unfold openedUrls. apply flat_map_app. Qed.

Section OpenedUrls.
Variable E : Type.
Variable b : Browser E.
Variable parseURL : string -> option (string * string * string).

(** Every remaining URL is asked for, whether or not the browser rejects
    some of them. *)
Lemma run_createRemainingTabs (windowId : Z) (urls : list string) (w : World E) :
  value (run b (createRemainingTabs windowId urls) w) = Done tt /\
  calls (run b (createRemainingTabs windowId urls) w)
  = map (fun url => Api (TabsCreate windowId url)) urls.
Proof.
  unfold createRemainingTabs. revert w.
  induction urls as [|url urls IH]; intro w; [split; reflexivity |].
  cbn [forEach map].
  assert (Hbody : run b (tryCatch (await (Api (TabsCreate windowId url)) ;; ret tt)
                                  (fun _ => ret tt)) w
                  = {| value := Done tt;
                       world := snd (exec b (Api (TabsCreate windowId url)) w);
                       calls := [Api (TabsCreate windowId url)] |}).
  { run_simpl. destruct (fst (exec b (Api (TabsCreate windowId url)) w)); reflexivity. }
  rewrite (@run_bindM_Done E b _ _ _ _ w tt) by now rewrite Hbody.
  rewrite Hbody. cbn [value world calls]. destruct (IH (snd (exec b (Api (TabsCreate windowId url)) w)))
    as [Hv Hc].
  rewrite Hv, Hc. split; reflexivity.
Qed.

Lemma openedUrls_TabsCreate (windowId : Z) (urls : list string) :
  openedUrls (map (fun url => Api (TabsCreate windowId url)) urls) = urls.
Proof.
  induction urls as [|url urls IH]; [reflexivity |].
  cbn [map openedUrls flat_map app]. fold (openedUrls (map (fun url => Api (TabsCreate windowId url)) urls)).
  now rewrite IH.
Qed.

Variable rounds : nat.

(** One window: every restorable URL of the record is asked for, unless
    the creation of the window is rejected. *)
Lemma restoreWindow_opened (session : Session.t) (windowData : WindowData.t) (w : World E) :
  let r := run b (restoreWindow parseURL rounds session windowData) w in
  match value r with
  | Done _ => openedUrls (calls r) = restorableUrlsOf [windowData]
  | Threw _ => exists rest, restorableUrlsOf [windowData] = (openedUrls (calls r) ++ rest)%list
  end.
Proof.
  cbv zeta. unfold restoreWindow, restorableUrlsOf. cbn [flat_map]. rewrite app_nil_r.
  destruct (WindowData.tabs windowData) as [tabs|]; [| exists []; reflexivity].
  destruct (filter restorableUrl (map TabData.url tabs)) as [|firstTabUrl remainingUrls];
    [reflexivity |].
  destruct (value (run b (await (Api (WindowsCreate firstTabUrl))) w)) as [window | m] eqn:Vw.
  2: { rewrite (run_bindM_Threw _ _ _ _ Vw). cbn [value calls run await].
       exists remainingUrls. reflexivity. }
  rewrite (run_bindM_Done _ _ _ _ Vw). cbn [value calls].
  set (w1 := world (run b (await (Api (WindowsCreate firstTabUrl))) w)).
  destruct (run_createRemainingTabs (LiveWindow.id window) remainingUrls w1) as [Vc Cc].
  rewrite (run_bindM_Done _ _ _ _ Vc). cbn [value calls]. rewrite Cc.
  set (w2 := world (run b (createRemainingTabs (LiveWindow.id window) remainingUrls) w1)).
  match goal with
  | |- context [run b ?tail w2] =>
      assert (Htail : openedUrls (calls (run b tail w2)) = [])
  end.
  { apply settlesWindow_opens_nothing, Uses_calls.
    apply Uses_bindM; [apply Uses_waitForTabs | intros [createdTabs|]]; [| apply Uses_ret].
    apply Uses_bindM; [apply Uses_settleWindow | intros _; apply Uses_ret]. }
  cbn [run await calls]. cbn [app].
  change (openedUrls (Api (WindowsCreate firstTabUrl) :: ?l))
    with (firstTabUrl :: openedUrls l).
  match goal with
  | |- context [value ?r] =>
      match r with
      | run b _ w2 => destruct (value r)
      end
  end.
  - cbn [openedUrls flat_map app]. fold (openedUrls).
    unfold openedUrls at 1. cbn [flat_map app].
    fold (openedUrls). rewrite openedUrls_app, openedUrls_TabsCreate, Htail, app_nil_r.
    reflexivity.
  - exists []. rewrite app_nil_r.
    unfold openedUrls at 1. cbn [flat_map app].
    fold (openedUrls). rewrite openedUrls_app, openedUrls_TabsCreate, Htail, app_nil_r.
    reflexivity.
Qed.

Lemma restorableUrlsOf_cons (windowData : WindowData.t) (windows : list WindowData.t) :
  restorableUrlsOf (windowData :: windows)
  = (restorableUrlsOf [windowData] ++ restorableUrlsOf windows)%list.
Proof. unfold restorableUrlsOf. cbn [flat_map]. now rewrite app_nil_r. Qed.

Lemma restoreWindows_opened (session : Session.t) (windows : list WindowData.t) (w : World E) :
  let r := run b (restoreWindows parseURL rounds session windows) w in
  match value r with
  | Done (Some _) => openedUrls (calls r) = restorableUrlsOf windows
  | _ => exists rest, restorableUrlsOf windows = (openedUrls (calls r) ++ rest)%list
  end.
Proof.
  cbv zeta. revert w. induction windows as [|windowData windows IH]; intro w.
  - reflexivity.
  - cbn [restoreWindows]. rewrite restorableUrlsOf_cons.
    pose proof (restoreWindow_opened session windowData w) as Hone.
    cbv zeta in Hone.
    destruct (value (run b (restoreWindow parseURL rounds session windowData) w))
      as [[[]|] | m] eqn:V.
    + rewrite (run_bindM_Done _ _ _ _ V). cbn [value calls]. rewrite openedUrls_app, Hone.
      specialize (IH (world (run b (restoreWindow parseURL rounds session windowData) w))).
      destruct (value (run b (restoreWindows parseURL rounds session windows)
                           (world (run b (restoreWindow parseURL rounds session windowData) w))))
        as [[[]|] | m].
      * now rewrite IH.
      * destruct IH as [rest ->]. exists rest. now rewrite app_assoc.
      * destruct IH as [rest ->]. exists rest. now rewrite app_assoc.
    + rewrite (run_bindM_Done _ _ _ _ V). cbn [value calls run ret].
      rewrite app_nil_r, Hone. exists (restorableUrlsOf windows). reflexivity.
    + rewrite (run_bindM_Threw _ _ _ _ V). cbn [value calls].
      destruct Hone as [rest ->]. exists (rest ++ restorableUrlsOf windows)%list.
      now rewrite app_assoc.
Qed.

End OpenedUrls.

(** X12.  In the restore of a stored session that passes
    [validateSession], the URLs on which windows and tabs are requested,
    in the order of the requests, form a prefix of the restorable URLs of
    the session taken window by window, however far the polling loops are
    followed; when the restore completes they are all of them, each
    requested once per record. *)
Theorem restore_opens_the_restorable_urls_in_order
        (E : Type) (b : Browser E) (parseURL : string -> option (string * string * string))
        (rounds : nat) (w : World E) (sessionId : string) (stored : list Session.t)
        (session : Session.t) (windows : list WindowData.t) :
  value (run b getAllSessions w) = Done stored ->
  find (fun s => String.eqb (Session.id s) sessionId) stored = Some session ->
  validateSession session = true ->
  Session.windows session = Some windows ->
  let r := run b (restoreSession parseURL rounds sessionId) w in
  (exists rest, restorableUrlsOf windows = (openedUrls (calls r) ++ rest)%list) /\
  (value r = Done (Some tt) -> openedUrls (calls r) = restorableUrlsOf windows).
Proof.
  intros Hget Hfind Hvalid Hwin. cbv zeta.
  destruct (run_getAllSessions_any b w) as [_ [_ Hcalls]].
  pose proof (restoreWindows_opened b parseURL rounds session windows
                (world (run b getAllSessions w))) as Hloop.
  cbv zeta in Hloop.
  set (loop := run b (restoreWindows parseURL rounds session windows)
                   (world (run b getAllSessions w))) in *.
  assert (Hbody :
    let body := run b (sessions <- getAllSessions ;;
                       match find (fun s => String.eqb (Session.id s) sessionId) sessions with
                       | None => throw SessionNotFound
                       | Some session =>
                           if negb (validateSession session) then throw InvalidSession
                           else
                             match Session.windows session with
                             | None => throw NotIterable
                             | Some windows => restoreWindows parseURL rounds session windows
                             end
                       end) w in
    value body = value loop /\ calls body = Store GetSessions :: calls loop).
  { cbv zeta. rewrite (run_bindM_Done _ _ _ _ Hget), Hfind, Hvalid, Hwin.
    cbn [negb value calls]. rewrite Hcalls. split; reflexivity. }
  cbv zeta in Hbody. destruct Hbody as [Hbv Hbc].
  unfold restoreSession.
  match goal with
  | |- context [tryCatch ?p ?h] =>
      destruct (@run_tryCatch_rethrow E b (option unit) p h w) as [_ [Hc Hv]]
  end.
  { intro m. eauto. }
  rewrite Hc, Hbc. rewrite Hbv in Hv.
  change (openedUrls (Store GetSessions :: calls loop)) with (openedUrls (calls loop)).
  destruct (value loop) as [[[]|] | m].
  - split; [exists []; now rewrite app_nil_r | intros _; exact Hloop].
  - split; [exact Hloop |]. rewrite Hv. discriminate.
  - split; [exact Hloop |]. destruct Hv as [_ [m' ->]]. discriminate.
Qed.

Lemma restore_opens_the_restorable_urls_in_order_witness :
  let r := run windowsOnlyBrowser (restoreSession (fun _ => None) enoughRounds "42")
               twoWindowsWorld in
  (exists rest,
      restorableUrlsOf [ {| WindowData.id := 1;
                            WindowData.tabs := Some [oneTab "https://a.example/"] |};
                         {| WindowData.id := 2;
                            WindowData.tabs := Some [oneTab "https://b.example/"] |} ]
      = (openedUrls (calls r) ++ rest)%list) /\
  (value r = Done (Some tt) ->
   openedUrls (calls r)
   = restorableUrlsOf [ {| WindowData.id := 1;
                           WindowData.tabs := Some [oneTab "https://a.example/"] |};
                        {| WindowData.id := 2;
                           WindowData.tabs := Some [oneTab "https://b.example/"] |} ]).
Proof.
  apply (@restore_opens_the_restorable_urls_in_order Z windowsOnlyBrowser (fun _ => None)
           enoughRounds twoWindowsWorld "42" [twoWindows] twoWindows).
  - vm_compute. reflexivity.
  - reflexivity.
  - reflexivity.
  - reflexivity.
Defined.

(** That restore completes, and the two URLs are asked for in order. *)
Example restore_opens_two_urls :
  let r := run windowsOnlyBrowser (restoreSession (fun _ => None) enoughRounds "42")
               twoWindowsWorld in
  value r = Done (Some tt) /\
  openedUrls (calls r) = ["https://a.example/"; "https://b.example/"].
Proof. vm_compute. split; reflexivity. Qed.

(** ** Waiting for the tabs of a new window *)

Section WaitForTabs.
Variable E : Type.
Variable b : Browser E.

Lemma Uses_pollsWindow_pollLoop (rounds : nat) (windowId : Z) (expectedCount : nat)
      (startTime maxWait : Z) (lastTabCount stableCount : nat) :
  Uses (pollsWindow windowId)
       (pollLoop rounds windowId expectedCount startTime maxWait lastTabCount stableCount).
Proof.
  revert lastTabCount stableCount.
  induction rounds as [|rounds IH]; intros lastTabCount stableCount; cbn [pollLoop].
  - apply Uses_ret.
  - apply Uses_bindM; [uses; right; left; reflexivity |]. intro now.
    destruct (Z.ltb (now - startTime) maxWait); [| apply Uses_ret].
    apply Uses_bindM.
    + unfold pollOnce. uses; try (left; reflexivity); right; right; reflexivity.
    + intros [tabs | last stable |]; [apply Uses_ret | apply IH | apply Uses_ret].
Qed.

Lemma Uses_pollsWindow_waitForTabs (rounds : nat) (windowId : Z) (expectedCount : nat)
      (maxWait : Z) :
  Uses (pollsWindow windowId) (waitForTabs rounds windowId expectedCount maxWait).
Proof.
  unfold waitForTabs. apply Uses_tryCatch; [| intro; apply Uses_ret].
  apply Uses_bindM; [uses; right; left; reflexivity |]. intro startTime.
  apply Uses_bindM; [apply Uses_pollsWindow_pollLoop |].
  intros [tabs | |]; uses. left. reflexivity.
Qed.

(** What one round decides, by the answer to its query. *)
Lemma run_pollOnce (windowId : Z) (expectedCount lastTabCount stableCount : nat) (w : World E) :
  let r := run b (pollOnce windowId expectedCount lastTabCount stableCount) w in
  match fst (answer b (TabsQuery windowId) (env w)) with
  | Threw _ => value r = Done Leave /\ calls r = [Api (TabsQuery windowId)]
  | Done tabs =>
      if allTabsThere expectedCount tabs then
        value r = Done (Return tabs) /\ calls r = [Api (TabsQuery windowId)]
      else if Nat.eqb (List.length tabs) lastTabCount then
        if Nat.leb 3 (S stableCount) && Nat.ltb 0 (List.length tabs) then
          value r = Done (Return tabs) /\ calls r = [Api (TabsQuery windowId)]
        else
          value r = Done (Again lastTabCount (S stableCount)) /\
          calls r = [Api (TabsQuery windowId); Api (SetTimeout 200)]
      else
        value r = Done (Again (List.length tabs) 0%nat) /\
        calls r = [Api (TabsQuery windowId); Api (SetTimeout 200)]
  end.
Proof.
  cbv zeta. unfold pollOnce, allTabsThere. run_simpl. rewrite exec_Api. cbn [fst snd].
  destruct (fst (answer b (TabsQuery windowId) (env w))) as [tabs | m]; run_simpl;
    [| split; reflexivity].
  destruct (Nat.leb expectedCount (List.length tabs) &&
            Nat.leb expectedCount
              (List.length (filter (fun tab => truthyOpt (LiveTab.url tab) ||
                                               truthyOpt (LiveTab.pendingUrl tab)) tabs)));
    run_simpl; [split; reflexivity |].
  destruct (Nat.eqb (List.length tabs) lastTabCount); run_simpl.
  - destruct (Nat.leb 3 (S stableCount) && Nat.ltb 0 (List.length tabs)); run_simpl;
      split; reflexivity.
  - split; reflexivity.
Qed.

(** A round never throws; what it returns is what the browser answered to
    its query; and when the loop goes on, the round has awaited its timer
    after the query. *)
Lemma pollOnce_cases (windowId : Z) (expectedCount lastTabCount stableCount : nat)
      (w : World E) :
  let r := run b (pollOnce windowId expectedCount lastTabCount stableCount) w in
  (exists tabs, value r = Done (Return tabs) /\
                fst (answer b (TabsQuery windowId) (env w)) = Done tabs) \/
  value r = Done Leave \/
  (exists last stable,
      value r = Done (Again last stable) /\
      env (world r)
      = snd (answer b (SetTimeout 200) (snd (answer b (TabsQuery windowId) (env w))))).
Proof.
  cbv zeta. unfold pollOnce. run_simpl. rewrite exec_Api. cbn [fst snd].
  destruct (fst (answer b (TabsQuery windowId) (env w))) as [tabs | m]; run_simpl;
    [| right; left; reflexivity].
  destruct (Nat.leb expectedCount (List.length tabs) && _); run_simpl;
    [left; exists tabs; split; reflexivity |].
  destruct (Nat.eqb (List.length tabs) lastTabCount); run_simpl.
  - destruct (Nat.leb 3 (S stableCount) && Nat.ltb 0 (List.length tabs)); run_simpl.
    + left. exists tabs. split; reflexivity.
    + right. right. eexists. eexists. split; [reflexivity |].
      rewrite exec_Api. reflexivity.
  - right. right. eexists. eexists. split; [reflexivity |].
    rewrite exec_Api. reflexivity.
Qed.

(** One round of the loop, unfolded. *)
Lemma run_pollLoop_S (rounds : nat) (windowId : Z) (expectedCount : nat)
      (startTime maxWait : Z) (lastTabCount stableCount : nat) (w : World E) :
  let w1 := snd (exec b (Api DateNow) w) in
  let once := run b (pollOnce windowId expectedCount lastTabCount stableCount) w1 in
  run b (pollLoop (S rounds) windowId expectedCount startTime maxWait
                  lastTabCount stableCount) w
  = if Z.ltb (fst (answer b DateNow (env w)) - startTime) maxWait then
      match value once with
      | Done (Return tabs) =>
          {| value := Done (Found tabs); world := world once;
             calls := Api DateNow :: calls once |}
      | Done (Again last stable) =>
          let rest := run b (pollLoop rounds windowId expectedCount startTime maxWait
                                      last stable) (world once) in
          {| value := value rest; world := world rest;
             calls := Api DateNow :: (calls once ++ calls rest)%list |}
      | Done Leave =>
          {| value := Done LeftLoop; world := world once;
             calls := Api DateNow :: calls once |}
      | Threw m =>
          {| value := Threw m; world := world once; calls := Api DateNow :: calls once |}
      end
    else {| value := Done LeftLoop; world := w1; calls := [Api DateNow] |}.
Proof.
  cbv zeta. cbn [pollLoop]. rewrite run_bindM_cases, run_perform, run_await.
  cbn [value world calls].
  replace (fst (exec b (Api DateNow) w)) with (fst (answer b DateNow (env w)))
    by (rewrite exec_Api; reflexivity).
  destruct (Z.ltb (fst (answer b DateNow (env w)) - startTime) maxWait); [| reflexivity].
  rewrite run_bindM_cases.
  destruct (value (run b (pollOnce windowId expectedCount lastTabCount stableCount)
                       (snd (exec b (Api DateNow) w)))) as [[tabs | last stable |] | m];
    cbn [run ret value world calls app]; rewrite ?app_nil_r; reflexivity.
Qed.

(** The loop never throws, and what it finds is what the browser answered
    to a query. *)
Lemma pollLoop_sound (rounds : nat) (windowId : Z) (expectedCount : nat)
      (startTime maxWait : Z) :
  forall (lastTabCount stableCount : nat) (w : World E),
    exists polled,
      value (run b (pollLoop rounds windowId expectedCount startTime maxWait
                             lastTabCount stableCount) w) = Done polled /\
      forall tabs, polled = Found tabs ->
                   exists e, fst (answer b (TabsQuery windowId) e) = Done tabs.
Proof.
  induction rounds as [|rounds IH]; intros lastTabCount stableCount w.
  - exists StillPolling. split; [reflexivity | discriminate].
  - rewrite run_pollLoop_S. cbv zeta.
    destruct (Z.ltb (fst (answer b DateNow (env w)) - startTime) maxWait);
      [| exists LeftLoop; split; [reflexivity | discriminate]].
    destruct (pollOnce_cases windowId expectedCount lastTabCount stableCount
                (snd (exec b (Api DateNow) w)))
      as [[tabs [Hv Hq]] | [Hv | [last [stable [Hv _]]]]]; cbv zeta in Hv; rewrite Hv.
    + exists (Found tabs). split; [reflexivity |]. intros tabs' [= <-]. eauto.
    + exists LeftLoop. split; [reflexivity | discriminate].
    + cbn [value]. apply IH.
Qed.

(** Once the loop is over, following it for more rounds changes
    nothing. *)
Lemma pollLoop_more (more rounds : nat) (windowId : Z) (expectedCount : nat)
      (startTime maxWait : Z) :
  forall (lastTabCount stableCount : nat) (w : World E),
    value (run b (pollLoop rounds windowId expectedCount startTime maxWait
                           lastTabCount stableCount) w) <> Done StillPolling ->
    run b (pollLoop (rounds + more) windowId expectedCount startTime maxWait
                    lastTabCount stableCount) w
    = run b (pollLoop rounds windowId expectedCount startTime maxWait
                      lastTabCount stableCount) w.
Proof.
  induction rounds as [|rounds IH]; intros lastTabCount stableCount w Hover.
  - exfalso. apply Hover. reflexivity.
  - cbn [Nat.add]. rewrite !run_pollLoop_S in *. cbv zeta in *.
    destruct (Z.ltb (fst (answer b DateNow (env w)) - startTime) maxWait); [| reflexivity].
    destruct (value (run b (pollOnce windowId expectedCount lastTabCount stableCount)
                         (snd (exec b (Api DateNow) w)))) as [[tabs | last stable |] | m];
      try reflexivity.
    cbn [value] in Hover. now rewrite IH.
Qed.

Section Ticking.
Variable clock : E -> Z.
Hypothesis ticks : ticking b clock.

(** Under a clock that ticks, the loop is over within one round per
    200 ms that are left before the deadline, and one more. *)
Lemma pollLoop_over (rounds : nat) (windowId : Z) (expectedCount : nat)
      (startTime maxWait : Z) :
  forall (lastTabCount stableCount : nat) (w : World E),
    maxWait - (clock (env w) - startTime) <= 200 * Z.of_nat rounds ->
    value (run b (pollLoop (S rounds) windowId expectedCount startTime maxWait
                           lastTabCount stableCount) w) <> Done StillPolling.
Proof.
  destruct ticks as [Hreads [Hback Htimer]].
  induction rounds as [|rounds IH]; intros lastTabCount stableCount w Hleft;
    rewrite run_pollLoop_S; cbv zeta; rewrite Hreads.
  - destruct (Z.ltb_spec (clock (env w) - startTime) maxWait); [lia | discriminate].
  - destruct (Z.ltb_spec (clock (env w) - startTime) maxWait); [| discriminate].
    destruct (pollOnce_cases windowId expectedCount lastTabCount stableCount
                (snd (exec b (Api DateNow) w)))
      as [[tabs [Hv _]] | [Hv | [last [stable [Hv Henv]]]]]; cbv zeta in *;
      rewrite Hv; try discriminate.
    cbn [value]. apply IH. rewrite Henv. rewrite exec_Api. cbn [snd env].
    pose proof (Hback DateNow (env w)) as H1.
    pose proof (Hback (TabsQuery windowId) (snd (answer b DateNow (env w)))) as H2.
    pose proof (Htimer 200 (snd (answer b (TabsQuery windowId)
                                        (snd (answer b DateNow (env w)))))) as H3.
    lia.
Qed.

End Ticking.

(** [waitForTabs], by what its loop comes to. *)
Lemma run_waitForTabs (rounds : nat) (windowId : Z) (expectedCount : nat) (maxWait : Z)
      (w : World E) :
  let startTime := fst (answer b DateNow (env w)) in
  let w1 := snd (exec b (Api DateNow) w) in
  let loop := run b (pollLoop rounds windowId expectedCount startTime maxWait 0 0) w1 in
  run b (waitForTabs rounds windowId expectedCount maxWait) w
  = match value loop with
    | Done (Found tabs) =>
        {| value := Done (Some tabs); world := world loop;
           calls := Api DateNow :: calls loop |}
    | Done LeftLoop =>
        {| value := Done (Some match fst (answer b (TabsQuery windowId) (env (world loop))) with
                               | Done tabs => tabs
                               | Threw _ => []
                               end);
           world := snd (exec b (Api (TabsQuery windowId)) (world loop));
           calls := Api DateNow :: (calls loop ++ [Api (TabsQuery windowId)])%list |}
    | Done StillPolling =>
        {| value := Done None; world := world loop; calls := Api DateNow :: calls loop |}
    | Threw _ =>
        {| value := Done (Some []); world := world loop;
           calls := Api DateNow :: calls loop |}
    end.
Proof.
  cbv zeta. unfold waitForTabs.
  rewrite run_tryCatch_cases, run_bindM_cases, run_perform, run_await.
  cbn [value world calls].
  replace (fst (exec b (Api DateNow) w)) with (fst (answer b DateNow (env w)))
    by (rewrite exec_Api; reflexivity).
  rewrite run_bindM_cases.
  destruct (value (run b (pollLoop rounds windowId expectedCount
                                   (fst (answer b DateNow (env w))) maxWait 0 0)
                       (snd (exec b (Api DateNow) w)))) as [[tabs | |] | m];
    cbn [run ret value world calls app]; rewrite ?app_nil_r; try reflexivity.
  rewrite run_bindM_cases, (run_await b (Api (TabsQuery windowId))). cbn [value world calls].
  rewrite (exec_Api b (TabsQuery windowId)). cbn [fst snd].
  destruct (fst (answer b (TabsQuery windowId) _)); cbn [run ret value world calls];
    rewrite ?app_nil_r; reflexivity.
Qed.

Lemma waitForTabs_more (more rounds : nat) (windowId : Z) (expectedCount : nat) (maxWait : Z)
      (w : World E) :
  value (run b (waitForTabs rounds windowId expectedCount maxWait) w) <> Done None ->
  run b (waitForTabs (rounds + more) windowId expectedCount maxWait) w
  = run b (waitForTabs rounds windowId expectedCount maxWait) w.
Proof.
  rewrite !run_waitForTabs. cbv zeta. intro Hover.
  rewrite pollLoop_more; [reflexivity |].
  intro Hstill. rewrite Hstill in Hover. now apply Hover.
Qed.

Lemma waitForTabs_over (clock : E -> Z) (rounds : nat) (windowId : Z) (expectedCount : nat)
      (maxWait : Z) (w : World E) :
  ticking b clock ->
  maxWait <= 200 * Z.of_nat rounds ->
  value (run b (waitForTabs (S rounds) windowId expectedCount maxWait) w) <> Done None.
Proof.
  intros Hticks Hrounds. rewrite run_waitForTabs. cbv zeta.
  pose proof (@pollLoop_over clock Hticks rounds windowId expectedCount
                (fst (answer b DateNow (env w))) maxWait 0%nat 0%nat
                (snd (exec b (Api DateNow) w))) as Hover.
  destruct Hticks as [Hreads [Hback _]].
  destruct (value (run b (pollLoop (S rounds) windowId expectedCount
                                   (fst (answer b DateNow (env w))) maxWait 0 0)
                       (snd (exec b (Api DateNow) w)))) as [[tabs | |] | m];
    try discriminate.
  exfalso. apply Hover; [| reflexivity].
  rewrite exec_Api. cbn [snd env]. rewrite Hreads.
  pose proof (Hback DateNow (env w)). lia.
Qed.

(** Under a clock that stands still before the deadline, in a window
    that stays empty, the loop never ends. *)
Lemma pollLoop_stuck (rounds : nat) (windowId : Z) (expectedCount : nat)
      (startTime maxWait : Z) :
  (forall e, fst (answer b DateNow e) - startTime < maxWait) ->
  (forall e, fst (answer b (TabsQuery windowId) e) = Done []) ->
  (0 < expectedCount)%nat ->
  forall (stableCount : nat) (w : World E),
    value (run b (pollLoop rounds windowId expectedCount startTime maxWait 0 stableCount) w)
    = Done StillPolling.
Proof.
  intros Hclock Hempty Hexpected.
  induction rounds as [|rounds IH]; intros stableCount w; [reflexivity |].
  rewrite run_pollLoop_S. cbv zeta.
  destruct (Z.ltb_spec (fst (answer b DateNow (env w)) - startTime) maxWait) as [_ | Hge];
    [| specialize (Hclock (env w)); lia].
  pose proof (run_pollOnce windowId expectedCount 0 stableCount
                (snd (exec b (Api DateNow) w))) as Hp.
  cbv zeta in Hp. rewrite Hempty in Hp.
  assert (Hnot : allTabsThere expectedCount [] = false).
  { unfold allTabsThere. cbn [List.length].
    destruct (Nat.leb_spec expectedCount 0); [lia | reflexivity]. }
  rewrite Hnot in Hp. cbn [List.length Nat.eqb Nat.ltb Nat.leb] in Hp.
  rewrite andb_false_r in Hp. destruct Hp as [Hv _]. rewrite Hv. cbn [value]. apply IH.
Qed.

End WaitForTabs.

(** X13.  [waitForTabs] never throws.  However many rounds of its loop
    are followed, it has returned the empty list or a list that the browser
    gave as the answer to a query of that window, or it is still polling;
    its calls are queries of that window, reads of the clock and timers of
    200 ms, and it leaves the store as it was.  Once it has returned,
    following it for more rounds changes nothing.  Under a clock that
    ticks it returns within one round per 200 ms of [maxWait], and one
    more; under a clock that stands still before the deadline, in a window
    that stays empty, it never returns. *)
Theorem waitForTabs_only_polls
        (E : Type) (b : Browser E) (rounds : nat) (windowId : Z) (expectedCount : nat)
        (maxWait : Z) (w : World E) :
  let r := run b (waitForTabs rounds windowId expectedCount maxWait) w in
  (exists waited,
      value r = Done waited /\
      forall tabs, waited = Some tabs ->
                   tabs = [] \/ exists e, fst (answer b (TabsQuery windowId) e) = Done tabs) /\
  Forall (pollsWindow windowId) (calls r) /\
  store (world r) = store w /\
  (forall more,
      value r <> Done None ->
      run b (waitForTabs (rounds + more) windowId expectedCount maxWait) w = r) /\
  (forall clock,
      ticking b clock -> (0 < rounds)%nat -> maxWait <= 200 * (Z.of_nat rounds - 1) ->
      value r <> Done None) /\
  ((forall e e', fst (answer b DateNow e') - fst (answer b DateNow e) < maxWait) ->
   (forall e, fst (answer b (TabsQuery windowId) e) = Done []) ->
   (0 < expectedCount)%nat ->
   value r = Done None).
Proof.
  cbv zeta. split; [| split; [| split; [| split; [| split]]]].
  - rewrite run_waitForTabs. cbv zeta.
    destruct (pollLoop_sound b rounds windowId expectedCount
                (fst (answer b DateNow (env w))) maxWait 0 0
                (snd (exec b (Api DateNow) w))) as [polled [Hv Hfound]].
    rewrite Hv. destruct polled as [tabs | |]; cbn [value].
    + eexists. split; [reflexivity |]. intros tabs' [= <-]. right. now apply Hfound.
    + eexists. split; [reflexivity |]. intros tabs' [= <-].
      match goal with
      | |- context [match ?q with Done _ => _ | Threw _ => _ end] =>
          destruct q as [tabs | m] eqn:Hq
      end; [right; eexists; exact Hq | now left].
    + eexists. split; [reflexivity | discriminate].
  - apply Uses_calls, Uses_pollsWindow_waitForTabs.
  - apply (Uses_store_invariant b (fun s => s = store w) (P := pollsWindow windowId));
      [| apply Uses_pollsWindow_waitForTabs | reflexivity].
    intros op [Hc | [Hc | Hc]]; discriminate.
  - intros more Hover. now apply waitForTabs_more.
  - intros clock Hticks Hpos Hrounds.
    destruct rounds as [|rounds]; [lia |].
    apply (waitForTabs_over (clock := clock)); [assumption | lia].
  - intros Hclock Hempty Hexpected. rewrite run_waitForTabs. cbv zeta.
    rewrite pollLoop_stuck; [reflexivity | | assumption | assumption].
    intro e. apply Hclock.
Qed.

Section PollRounds.
Variable E : Type.
Variable b : Browser E.
Variables (windowId : Z) (expectedCount : nat) (startTime maxWait : Z).

(** A round before the deadline that returns. *)
Lemma pollLoop_Return (rounds lastTabCount stableCount : nat) (w : World E)
      (tabs : list LiveTab.t) :
  fst (answer b DateNow (env w)) - startTime < maxWait ->
  value (run b (pollOnce windowId expectedCount lastTabCount stableCount)
             (snd (exec b (Api DateNow) w))) = Done (Return tabs) ->
  let r := run b (pollLoop (S rounds) windowId expectedCount startTime maxWait
                           lastTabCount stableCount) w in
  value r = Done (Found tabs) /\
  calls r = Api DateNow ::
            calls (run b (pollOnce windowId expectedCount lastTabCount stableCount)
                       (snd (exec b (Api DateNow) w))).
Proof.
  intros Hclock Hp. cbv zeta. rewrite run_pollLoop_S. cbv zeta.
  apply Z.ltb_lt in Hclock. rewrite Hclock, Hp. split; reflexivity.
Qed.

(** A round before the deadline that goes on. *)
Lemma pollLoop_Again (rounds lastTabCount stableCount last stable : nat) (w : World E) :
  fst (answer b DateNow (env w)) - startTime < maxWait ->
  value (run b (pollOnce windowId expectedCount lastTabCount stableCount)
             (snd (exec b (Api DateNow) w))) = Done (Again last stable) ->
  let p := run b (pollOnce windowId expectedCount lastTabCount stableCount)
               (snd (exec b (Api DateNow) w)) in
  let rest := run b (pollLoop rounds windowId expectedCount startTime maxWait last stable)
                  (world p) in
  let r := run b (pollLoop (S rounds) windowId expectedCount startTime maxWait
                           lastTabCount stableCount) w in
  value r = value rest /\
  calls r = Api DateNow :: (calls p ++ calls rest)%list.
Proof.
  intros Hclock Hp. cbv zeta. rewrite run_pollLoop_S. cbv zeta.
  apply Z.ltb_lt in Hclock. rewrite Hclock, Hp. split; reflexivity.
Qed.

End PollRounds.

Section SettledWindow.
Variable E : Type.
Variable b : Browser E.
Variables (windowId : Z) (expectedCount : nat) (startTime maxWait : Z).
Variable tabs : list LiveTab.t.

Hypothesis settled : forall e, fst (answer b (TabsQuery windowId) e) = Done tabs.
Hypothesis in_time : forall e, fst (answer b DateNow e) - startTime < maxWait.
Hypothesis some_missing : allTabsThere expectedCount tabs = false.
Hypothesis not_empty : tabs <> [].

Lemma settled_third (rounds : nat) (w : World E) :
  let r := run b (pollLoop (S rounds) windowId expectedCount startTime maxWait
                           (List.length tabs) 2) w in
  value r = Done (Found tabs) /\ calls r = [Api DateNow; Api (TabsQuery windowId)].
Proof.
  pose proof (run_pollOnce b windowId expectedCount (List.length tabs) 2
                (snd (exec b (Api DateNow) w))) as Hp.
  cbv zeta in Hp. rewrite settled, some_missing, Nat.eqb_refl in Hp.
  assert (Hpos : Nat.ltb 0 (List.length tabs) = true)
    by (apply Nat.ltb_lt; destruct tabs; [contradiction | simpl; lia]).
  rewrite Hpos in Hp. cbn [Nat.leb andb] in Hp. destruct Hp as [Hv Hc].
  destruct (@pollLoop_Return E b windowId expectedCount startTime maxWait rounds
              (List.length tabs) 2 w tabs (in_time _) Hv) as [Hv' Hc'].
  rewrite Hc in Hc'. split; assumption.
Qed.

Lemma settled_again (rounds stableCount : nat) (w : World E) :
  (stableCount < 2)%nat ->
  let rest := run b (pollLoop rounds windowId expectedCount startTime maxWait
                              (List.length tabs) (S stableCount))
                  (world (run b (pollOnce windowId expectedCount (List.length tabs)
                                          stableCount)
                              (snd (exec b (Api DateNow) w)))) in
  let r := run b (pollLoop (S rounds) windowId expectedCount startTime maxWait
                           (List.length tabs) stableCount) w in
  value r = value rest /\
  calls r = (pollRound windowId ++ calls rest)%list.
Proof.
  intro Hlt.
  pose proof (run_pollOnce b windowId expectedCount (List.length tabs) stableCount
                (snd (exec b (Api DateNow) w))) as Hp.
  cbv zeta in Hp. rewrite settled, some_missing, Nat.eqb_refl in Hp.
  assert (Hfew : Nat.leb 3 (S stableCount) = false) by (apply Nat.leb_gt; lia).
  rewrite Hfew in Hp. cbn [andb] in Hp. destruct Hp as [Hv Hc].
  destruct (@pollLoop_Again E b windowId expectedCount startTime maxWait rounds
              (List.length tabs) stableCount _ _ w (in_time _) Hv) as [Hv' Hc'].
  rewrite Hc in Hc'. split; assumption.
Qed.

Lemma settled_first (rounds : nat) (w : World E) :
  let rest := run b (pollLoop rounds windowId expectedCount startTime maxWait
                              (List.length tabs) 0)
                  (world (run b (pollOnce windowId expectedCount 0 0)
                              (snd (exec b (Api DateNow) w)))) in
  let r := run b (pollLoop (S rounds) windowId expectedCount startTime maxWait 0 0) w in
  value r = value rest /\
  calls r = (pollRound windowId ++ calls rest)%list.
Proof.
  pose proof (run_pollOnce b windowId expectedCount 0 0 (snd (exec b (Api DateNow) w))) as Hp.
  cbv zeta in Hp. rewrite settled, some_missing in Hp.
  assert (Hdiff : Nat.eqb (List.length tabs) 0 = false)
    by (apply Nat.eqb_neq; destruct tabs; [contradiction | discriminate]).
  rewrite Hdiff in Hp. destruct Hp as [Hv Hc].
  destruct (@pollLoop_Again E b windowId expectedCount startTime maxWait rounds
              0%nat 0%nat _ _ w (in_time _) Hv) as [Hv' Hc'].
  rewrite Hc in Hc'. split; assumption.
Qed.

(** Four rounds are enough: the count is seen, then seen unchanged three
    times. *)
Lemma settled_loop (rounds : nat) (w : World E) :
  let r := run b (pollLoop (S (S (S (S rounds)))) windowId expectedCount startTime maxWait
                           0 0) w in
  value r = Done (Found tabs) /\
  calls r = (pollRound windowId ++ pollRound windowId ++ pollRound windowId ++
             [Api DateNow; Api (TabsQuery windowId)])%list.
Proof.
  cbv zeta.
  destruct (settled_first (S (S (S rounds))) w) as [V1 C1]. cbv zeta in V1, C1.
  rewrite V1, C1. clear V1 C1.
  match goal with |- context [run b _ ?w1] => set (wa := w1) end.
  destruct (settled_again (S (S rounds)) wa (stableCount := 0)) as [V2 C2]; [lia |].
  cbv zeta in V2, C2. rewrite V2, C2. clear V2 C2.
  match goal with
  | |- context [run b (pollLoop (S (S rounds)) _ _ _ _ _ 1) ?w1] => set (wb := w1)
  end.
  destruct (settled_again (S rounds) wb (stableCount := 1)) as [V3 C3]; [lia |].
  cbv zeta in V3, C3. rewrite V3, C3. clear V3 C3.
  match goal with
  | |- context [run b (pollLoop (S rounds) _ _ _ _ _ 2) ?w1] => set (wc := w1)
  end.
  destruct (settled_third rounds wc) as [V4 C4]. cbv zeta in V4, C4.
  rewrite V4, C4. split; reflexivity.
Qed.

End SettledWindow.

(** X14.  In a window whose tab list no longer changes, and while the
    deadline is not reached: when all the expected tabs are there with a
    URL, [waitForTabs] returns them after one query; otherwise, when the
    window shows a tab at all, it returns what the window shows after four
    queries and three timers of 200 ms.  Four rounds of the loop are
    followed, or more. *)
Theorem waitForTabs_in_a_settled_window
        (E : Type) (b : Browser E) (rounds : nat) (windowId : Z) (expectedCount : nat)
        (maxWait : Z) (tabs : list LiveTab.t) (w : World E) :
  (forall e, fst (answer b (TabsQuery windowId) e) = Done tabs) ->
  (forall e e', fst (answer b DateNow e') - fst (answer b DateNow e) < maxWait) ->
  (4 <= rounds)%nat ->
  (allTabsThere expectedCount tabs = false -> tabs <> []) ->
  let r := run b (waitForTabs rounds windowId expectedCount maxWait) w in
  value r = Done (Some tabs) /\
  calls r = if allTabsThere expectedCount tabs
            then [Api DateNow; Api DateNow; Api (TabsQuery windowId)]
            else (Api DateNow ::
                  pollRound windowId ++ pollRound windowId ++ pollRound windowId ++
                  [Api DateNow; Api (TabsQuery windowId)])%list.
Proof.
  intros Hsettled Hclock Hmax Hne. cbv zeta.
  set (startTime := fst (answer b DateNow (env w))).
  assert (Hrounds : exists n, rounds = S (S (S (S n)))) by (exists (rounds - 4)%nat; lia).
  destruct Hrounds as [n ->].
  assert (Hloop :
    let l := run b (pollLoop (S (S (S (S n)))) windowId expectedCount startTime maxWait 0 0)
                 (snd (exec b (Api DateNow) w)) in
    value l = Done (Found tabs) /\
    calls l = if allTabsThere expectedCount tabs
              then [Api DateNow; Api (TabsQuery windowId)]
              else (pollRound windowId ++ pollRound windowId ++ pollRound windowId ++
                    [Api DateNow; Api (TabsQuery windowId)])%list).
  { cbv zeta.
    destruct (allTabsThere expectedCount tabs) eqn:Hall.
    - pose proof (run_pollOnce b windowId expectedCount 0 0
                    (snd (exec b (Api DateNow) (snd (exec b (Api DateNow) w))))) as Hp.
      cbv zeta in Hp. rewrite Hsettled, Hall in Hp. destruct Hp as [Hv Hc].
      destruct (@pollLoop_Return E b windowId expectedCount startTime maxWait
                  (S (S (S n))) 0%nat 0%nat (snd (exec b (Api DateNow) w)) tabs
                  (Hclock _ _) Hv) as [Hv' Hc'].
      rewrite Hc in Hc'. split; assumption.
    - apply settled_loop;
        [exact Hsettled | intro e; apply Hclock | exact Hall | exact (Hne eq_refl)]. }
  cbv zeta in Hloop. destruct Hloop as [Hlv Hlc].
  rewrite run_waitForTabs. cbv zeta. fold startTime. rewrite Hlv. cbn [value calls].
  split; [reflexivity |]. rewrite Hlc.
  destruct (allTabsThere expectedCount tabs); reflexivity.
Qed.

Lemma waitForTabs_in_a_settled_window_witness :
  let tabs := [liveTab 101 (Some "https://a.example/") TAB_ID_NONE] in
  let r := run stillBrowser (waitForTabs 4 100 2 10000) stillWorld in
  value r = Done (Some tabs) /\
  calls r = if allTabsThere 2 tabs
            then [Api DateNow; Api DateNow; Api (TabsQuery 100)]
            else (Api DateNow ::
                  pollRound 100 ++ pollRound 100 ++ pollRound 100 ++
                  [Api DateNow; Api (TabsQuery 100)])%list.
Proof.
  apply (@waitForTabs_in_a_settled_window unit stillBrowser 4%nat 100 2%nat 10000
           [liveTab 101 (Some "https://a.example/") TAB_ID_NONE] stillWorld).
  - intro e. reflexivity.
  - intros e e'. reflexivity.
  - lia.
  - discriminate.
Defined.

(** Three rounds are not enough to see that window settle; and in a
    window that stays empty, under the same clock, the loop is still going
    after fifty-two rounds, whereas a clock that ticks ends it. *)
Example waitForTabs_rounds :
  value (run stillBrowser (waitForTabs 3 100 2 10000) stillWorld) = Done None /\
  value (run emptyStillBrowser (waitForTabs enoughRounds 100 2 10000) stillWorld) = Done None /\
  value (run tickingBrowser (waitForTabs enoughRounds 100 2 10000) freshWorld)
  = Done (Some [liveTab 101 (Some "https://a.example/") TAB_ID_NONE]).
Proof. vm_compute. repeat split. Qed.

(** ** Restore: what is tolerated and what is not *)

Section RestoreFails.

Variable E : Type.
Variable b : Browser E.
Variable parseURL : string -> option (string * string * string).

(** A [try] whose handler returns never throws. *)
Lemma run_quiet (p : M unit) (w : World E) :
  value (run b (tryCatch p (fun _ => ret tt)) w) = Done tt.
Proof.
  rewrite run_tryCatch_cases. destruct (value (run b p w)) as [[] | m]; reflexivity.
Qed.

Lemma createRemainingTabs_Done (windowId : Z) (remainingUrls : list string) (w : World E) :
  value (run b (createRemainingTabs windowId remainingUrls) w) = Done tt.
Proof.
  unfold createRemainingTabs. revert w.
  induction remainingUrls as [|url rest IH]; intro w; [reflexivity |].
  cbn [forEach].
  match goal with
  | |- value (run b (bindM ?p ?f) w) = _ =>
      assert (Hp : value (run b p w) = Done tt)
  end.
  { rewrite run_tryCatch_cases.
    match goal with |- context [match ?v with Done _ => _ | Threw _ => _ end] =>
                      destruct v as [[] | m] end; reflexivity. }
  rewrite (run_bindM_Done _ _ _ _ Hp). cbn [value]. apply IH.
Qed.

Lemma waitForTabs_Done (rounds : nat) (windowId : Z) (expectedCount : nat) (maxWait : Z)
      (w : World E) :
  exists waited, value (run b (waitForTabs rounds windowId expectedCount maxWait) w)
                 = Done waited.
Proof.
  rewrite run_waitForTabs. cbv zeta.
  destruct (pollLoop_sound b rounds windowId expectedCount
              (fst (answer b DateNow (env w))) maxWait 0 0
              (snd (exec b (Api DateNow) w))) as [polled [Hv _]].
  rewrite Hv. destruct polled; eexists; reflexivity.
Qed.

Lemma restoreGroups_option_Done (groups : option (list GroupData.t)) (windowId : Z)
      (updatedTabs : list LiveTab.t) (w : World E) :
  (forall recorded group, groups = Some recorded -> In group recorded ->
                          GroupData.tabUrls group <> None) ->
  value (run b (restoreGroups parseURL groups windowId updatedTabs) w) = Done tt.
Proof.
  intro Hall. unfold restoreGroups. destruct groups as [[|g gs]|]; try reflexivity.
  apply restoreGroups_Done. intros group Hin. exact (Hall _ group eq_refl Hin).
Qed.

Variable rounds : nat.
Variable session : Session.t.
Hypothesis groupsHaveUrls :
  forall groups group, Session.groups session = Some groups -> In group groups ->
                       GroupData.tabUrls group <> None.

Lemma settleWindow_throws (tabs : list TabData.t) (windowId : Z)
      (createdTabs : list LiveTab.t) (w : World E) (message : string) :
  value (run b (settleWindow parseURL session tabs windowId createdTabs) w) = Threw message ->
  exists e, fst (answer b (TabsQuery windowId) e) = Threw message.
Proof.
  unfold settleWindow, restorePinned, restoreActive.
  rewrite (run_bindM_Done _ _ _ _ (run_quiet _ w)). cbn [value].
  rewrite run_bindM_cases, (run_await b (Api (TabsQuery windowId))), exec_Api.
  cbn [value world calls fst snd].
  match goal with |- context [match ?v with Done _ => _ | Threw _ => _ end] =>
                    destruct v as [updatedTabs | m] eqn:Hq end.
  - cbn [value].
    rewrite (run_bindM_Done _ _ _ _
               (@restoreGroups_option_Done _ windowId updatedTabs _ groupsHaveUrls)).
    cbn [value]. rewrite run_quiet. discriminate.
  - cbn [value]. intros [= <-]. eexists. exact Hq.
Qed.

Lemma restoreWindow_throws (windowData : WindowData.t) (w : World E) (message : string) :
  WindowData.tabs windowData <> None ->
  value (run b (restoreWindow parseURL rounds session windowData) w) = Threw message ->
  rejects b message.
Proof.
  intro Htabs. unfold restoreWindow.
  destruct (WindowData.tabs windowData) as [tabs|]; [| contradiction].
  destruct (filter restorableUrl (map TabData.url tabs)) as [|firstTabUrl remainingUrls];
    [discriminate |].
  rewrite run_bindM_cases, (run_await b (Api (WindowsCreate firstTabUrl))), exec_Api.
  cbn [value world calls fst snd].
  match goal with |- context [match ?v with Done _ => _ | Threw _ => _ end] =>
                    destruct v as [window | m] eqn:Hq end.
  - cbn [value].
    rewrite (run_bindM_Done _ _ _ _ (createRemainingTabs_Done _ _ _)). cbn [value].
    match goal with
    | |- context [waitForTabs ?r ?i ?n ?m] =>
        match goal with
        | |- context [run b (bindM (waitForTabs r i n m) ?f) ?w1] =>
            destruct (waitForTabs_Done r i n m w1) as [waited Hw];
            rewrite (run_bindM_Done _ _ _ _ Hw)
        end
    end.
    cbn [value]. destruct waited as [createdTabs|]; [| discriminate].
    rewrite run_bindM_cases.
    match goal with |- context [match ?v with Done _ => _ | Threw _ => _ end] =>
                      destruct v as [[] | m] eqn:Hs end.
    + discriminate.
    + cbn [value]. intros [= <-]. right. exists (LiveWindow.id window).
      exact (settleWindow_throws _ _ _ _ Hs).
  - cbn [value]. intros [= <-]. left. eexists. eexists. exact Hq.
Qed.

Lemma restoreWindows_throws (windows : list WindowData.t) (message : string) :
  (forall windowData, In windowData windows -> WindowData.tabs windowData <> None) ->
  forall w : World E,
    value (run b (restoreWindows parseURL rounds session windows) w) = Threw message ->
    rejects b message.
Proof.
  induction windows as [|windowData rest IH]; intros Hall w; cbn [restoreWindows].
  - discriminate.
  - rewrite run_bindM_cases.
    destruct (value (run b (restoreWindow parseURL rounds session windowData) w))
      as [[[]|] | m] eqn:Hv; cbn [value].
    + apply IH. intros wd Hin. apply Hall. now right.
    + discriminate.
    + intros [= <-]. apply (restoreWindow_throws windowData w); [| exact Hv].
      apply Hall. now left.
Qed.


Lemma restoreWindow_more (more : nat) (windowData : WindowData.t) (w : World E) :
  value (run b (restoreWindow parseURL rounds session windowData) w) <> Done None ->
  run b (restoreWindow parseURL (rounds + more) session windowData) w
  = run b (restoreWindow parseURL rounds session windowData) w.
Proof.
  unfold restoreWindow.
  destruct (WindowData.tabs windowData) as [tabs|]; [| reflexivity].
  destruct (filter restorableUrl (map TabData.url tabs)) as [|firstTabUrl remainingUrls];
    [reflexivity |].
  rewrite !run_bindM_cases, (run_await b (Api (WindowsCreate firstTabUrl))), exec_Api.
  cbn [value world calls fst snd].
  match goal with |- context [match ?v with Done _ => _ | Threw _ => _ end] =>
                    destruct v as [window | m] eqn:Hq end; [| reflexivity].
  cbn [value world calls].
  rewrite !(run_bindM_Done _ _ _ _ (createRemainingTabs_Done _ _ _)). cbn [value world calls].
  rewrite !run_bindM_cases.
  match goal with
  | |- context [run b (waitForTabs rounds ?i ?n ?m) ?w1] =>
      destruct (value (run b (waitForTabs rounds i n m) w1)) as [[createdTabs|] | m']
               eqn:Hw;
      [ rewrite (@waitForTabs_more E b more rounds i n m w1)
          by (rewrite Hw; discriminate);
        rewrite Hw; reflexivity
      | intro Hv; exfalso; apply Hv; reflexivity
      | rewrite (@waitForTabs_more E b more rounds i n m w1)
          by (rewrite Hw; discriminate);
        rewrite Hw; reflexivity ]
  end.
Qed.

Lemma restoreWindows_more (more : nat) (windows : list WindowData.t) :
  forall w : World E,
    value (run b (restoreWindows parseURL rounds session windows) w) <> Done None ->
    run b (restoreWindows parseURL (rounds + more) session windows) w
    = run b (restoreWindows parseURL rounds session windows) w.
Proof.
  induction windows as [|windowData rest IH]; intro w; cbn [restoreWindows]; [reflexivity |].
  rewrite !run_bindM_cases.
  destruct (value (run b (restoreWindow parseURL rounds session windowData) w))
    as [[[]|] | m] eqn:Hv; cbn [value]; intro Hrest.
  - rewrite (restoreWindow_more more windowData w) by (rewrite Hv; discriminate).
    rewrite Hv, (IH _ Hrest). reflexivity.
  - exfalso. apply Hrest. reflexivity.
  - rewrite (restoreWindow_more more windowData w) by (rewrite Hv; discriminate).
    rewrite Hv. reflexivity.
Qed.

(** Windows that are restored to the end, and the rest of the loop. *)
Lemma run_restoreWindows_app (before rest : list WindowData.t) :
  forall w : World E,
    let first := run b (restoreWindows parseURL rounds session before) w in
    value first = Done (Some tt) ->
    run b (restoreWindows parseURL rounds session (before ++ rest)) w
    = {| value := value (run b (restoreWindows parseURL rounds session rest) (world first));
         world := world (run b (restoreWindows parseURL rounds session rest) (world first));
         calls := calls first
                  ++ calls (run b (restoreWindows parseURL rounds session rest)
                                (world first)) |}.
Proof.
  induction before as [|windowData before IH]; intro w; cbv zeta; cbn [app restoreWindows].
  - intros _. run_simpl.
    destruct (run b (restoreWindows parseURL rounds session rest) w); reflexivity.
  - rewrite !run_bindM_cases.
    destruct (value (run b (restoreWindow parseURL rounds session windowData) w))
      as [[[]|] | m] eqn:Hv; cbn [value world calls]; try discriminate.
    intro Hb. rewrite (IH _ Hb). cbn [value world calls]. now rewrite app_assoc.
Qed.

(** A window without a restorable URL is passed over. *)
Lemma run_restoreWindow_skipped (windowData : WindowData.t) (tabs : list TabData.t)
      (w : World E) :
  WindowData.tabs windowData = Some tabs ->
  filter restorableUrl (map TabData.url tabs) = [] ->
  run b (restoreWindow parseURL rounds session windowData) w
  = {| value := Done (Some tt); world := w; calls := [] |}.
Proof. intros Ht Hf. unfold restoreWindow. rewrite Ht, Hf. reflexivity. Qed.

Lemma run_restoreWindows_skip (before after : list WindowData.t) (windowData : WindowData.t)
      (tabs : list TabData.t) :
  WindowData.tabs windowData = Some tabs ->
  filter restorableUrl (map TabData.url tabs) = [] ->
  forall w : World E,
    run b (restoreWindows parseURL rounds session (before ++ windowData :: after)) w
    = run b (restoreWindows parseURL rounds session (before ++ after)) w.
Proof.
  intros Ht Hf. induction before as [|wd before IH]; intro w; cbn [app restoreWindows].
  - rewrite run_bindM_cases, (run_restoreWindow_skipped windowData w Ht Hf).
    cbn [value world calls app].
    destruct (run b (restoreWindows parseURL rounds session after) w); reflexivity.
  - rewrite !run_bindM_cases.
    destruct (value (run b (restoreWindow parseURL rounds session wd) w))
      as [[[]|] | m]; try reflexivity.
    rewrite IH. reflexivity.
Qed.

(** A rejected window creation ends the restore of the window at once. *)
Lemma run_restoreWindow_rejected (windowData : WindowData.t) (tabs : list TabData.t)
      (firstTabUrl : string) (remainingUrls : list string) (w : World E) (message : string) :
  WindowData.tabs windowData = Some tabs ->
  filter restorableUrl (map TabData.url tabs) = firstTabUrl :: remainingUrls ->
  fst (answer b (WindowsCreate firstTabUrl) (env w)) = Threw message ->
  value (run b (restoreWindow parseURL rounds session windowData) w) = Threw message /\
  calls (run b (restoreWindow parseURL rounds session windowData) w)
  = [Api (WindowsCreate firstTabUrl)].
Proof.
  intros Ht Hf Hq. unfold restoreWindow. rewrite Ht, Hf.
  rewrite run_bindM_cases, (run_await b (Api (WindowsCreate firstTabUrl))), exec_Api.
  cbn [value world calls fst snd]. rewrite Hq. split; reflexivity.
Qed.

Section Ticks.
Variable clock : E -> Z.
Hypothesis ticks : ticking b clock.
Hypothesis enough : (enoughRounds <= rounds)%nat.

Lemma restoreWindow_over (windowData : WindowData.t) (w : World E) :
  value (run b (restoreWindow parseURL rounds session windowData) w) <> Done None.
Proof.
  unfold restoreWindow.
  destruct (WindowData.tabs windowData) as [tabs|]; [| discriminate].
  destruct (filter restorableUrl (map TabData.url tabs)) as [|firstTabUrl remainingUrls];
    [discriminate |].
  rewrite run_bindM_cases, (run_await b (Api (WindowsCreate firstTabUrl))), exec_Api.
  cbn [value world calls fst snd].
  match goal with |- context [match ?v with Done _ => _ | Threw _ => _ end] =>
                    destruct v as [window | m] eqn:Hq end; [| discriminate].
  cbn [value].
  rewrite (run_bindM_Done _ _ _ _ (createRemainingTabs_Done _ _ _)). cbn [value].
  rewrite run_bindM_cases.
  match goal with
  | |- context [run b (waitForTabs rounds ?i ?n ?m) ?w1] =>
      pose proof (fun r' => @waitForTabs_over E b clock r' i n m w1 ticks) as Hover;
      destruct (value (run b (waitForTabs rounds i n m) w1)) as [[createdTabs|] | m']
               eqn:Hw
  end.
  - cbn [value]. rewrite run_bindM_cases.
    match goal with |- context [match ?v with Done _ => _ | Threw _ => _ end] =>
                      destruct v as [[] | m'] end; discriminate.
  - exfalso. unfold enoughRounds in enough.
    destruct rounds as [|rounds']; [lia |].
    apply (Hover rounds'); [lia | exact Hw].
  - discriminate.
Qed.

Lemma restoreWindows_over (windows : list WindowData.t) :
  forall w : World E,
    value (run b (restoreWindows parseURL rounds session windows) w) <> Done None.
Proof.
  induction windows as [|windowData rest IH]; intro w; cbn [restoreWindows]; [discriminate |].
  rewrite run_bindM_cases.
  destruct (value (run b (restoreWindow parseURL rounds session windowData) w))
    as [[[]|] | m] eqn:Hv; cbn [value].
  - apply IH.
  - exfalso. exact (restoreWindow_over windowData w Hv).
  - discriminate.
Qed.

End Ticks.

(** [restoreSession] on a stored session that passes the validation, by
    what the loop over its windows comes to. *)
Lemma run_restoreSession_valid (sessionId : string) (w : World E) (stored : list Session.t)
      (windows : list WindowData.t) :
  value (run b getAllSessions w) = Done stored ->
  find (fun s => String.eqb (Session.id s) sessionId) stored = Some session ->
  validateSession session = true ->
  Session.windows session = Some windows ->
  let loop := run b (restoreWindows parseURL rounds session windows)
                  (world (run b getAllSessions w)) in
  run b (restoreSession parseURL rounds sessionId) w
  = match value loop with
    | Done over =>
        {| value := Done over; world := world loop; calls := Store GetSessions :: calls loop |}
    | Threw m =>
        {| value := Threw (rethrown m); world := world loop;
           calls := Store GetSessions :: calls loop |}
    end.
Proof.
  intros Hget Hfind Hvalid Hwindows. cbv zeta.
  destruct (run_getAllSessions_any b w) as [_ [_ Hc]].
  unfold restoreSession.
  rewrite run_tryCatch_cases, (run_bindM_Done _ _ _ _ Hget), Hfind, Hvalid, Hwindows, Hc.
  cbn [negb value world calls app].
  destruct (value (run b (restoreWindows parseURL rounds session windows)
                       (world (run b getAllSessions w)))) as [over | m]; [reflexivity |].
  run_simpl. now rewrite app_nil_r.
Qed.

End RestoreFails.

Lemma rethrown_kept (message : string) :
  keptMessage message = true -> rethrown message = message.
Proof.
  unfold rethrown, keptMessage. intro H. rewrite H.
  destruct message; [discriminate H | reflexivity].
Qed.

Lemma rethrown_replaced (message : string) :
  keptMessage message = false -> rethrown message = FailedToRestore.
Proof.
  unfold rethrown, keptMessage. intro H. rewrite H. now rewrite andb_false_r.
Qed.

Lemma createsAndQueries_rejects (E : Type) (b : Browser E) (message : string) :
  createsAndQueries b -> ~ rejects b message.
Proof.
  intros [Hc Hq] [[url [e H]] | [windowId [e H]]].
  - destruct (Hc url e) as [window Hw]. congruence.
  - destruct (Hq windowId e) as [tabs Ht]. congruence.
Qed.

(** C2, amended.  [restoreSession] on the stored list [stored], its
    polling loops followed for any number of [rounds]:
    - an id that resolves to no stored session fails with
      [SessionNotFound], the id of a session that fails the validation with
      [InvalidSession]; in both cases the read of the session list is the
      only call;
    - a window without a restorable URL is passed over: it costs no call,
      and the loop goes on as if the window were not recorded;
    - for a session that passes the validation and is well formed, a
      failure is the rethrown rejection of a window creation or of a tab
      query; so under a browser that rejects neither, whatever else it
      rejects, the restore never fails, and it returns when the clock ticks
      and the loops are followed for [enoughRounds] rounds; following the
      loops further does not change a run that is over;
    - a rejected window creation makes the restore fail at once, after the
      windows before it have been restored;
    - the error thrown is the rejection itself when its message holds one
      of the three phrases of line 427, and [FailedToRestore] otherwise. *)
Theorem restore_failure_modes
        (E : Type) (b : Browser E) (parseURL : string -> option (string * string * string))
        (rounds : nat) (w : World E) (stored : list Session.t) :
  value (run b getAllSessions w) = Done stored ->
  (forall sessionId,
      find (fun s => String.eqb (Session.id s) sessionId) stored = None ->
      value (run b (restoreSession parseURL rounds sessionId) w) = Threw SessionNotFound /\
      calls (run b (restoreSession parseURL rounds sessionId) w) = [Store GetSessions]) /\
  (forall sessionId session,
      find (fun s => String.eqb (Session.id s) sessionId) stored = Some session ->
      validateSession session = false ->
      value (run b (restoreSession parseURL rounds sessionId) w) = Threw InvalidSession /\
      calls (run b (restoreSession parseURL rounds sessionId) w) = [Store GetSessions]) /\
  (forall session windowData tabs before after w',
      WindowData.tabs windowData = Some tabs ->
      filter restorableUrl (map TabData.url tabs) = [] ->
      run b (restoreWindow parseURL rounds session windowData) w'
      = {| value := Done (Some tt); world := w'; calls := [] |} /\
      run b (restoreWindows parseURL rounds session (before ++ windowData :: after)) w'
      = run b (restoreWindows parseURL rounds session (before ++ after)) w') /\
  (forall sessionId session,
      find (fun s => String.eqb (Session.id s) sessionId) stored = Some session ->
      validateSession session = true ->
      wellFormed session ->
      (forall message,
          value (run b (restoreSession parseURL rounds sessionId) w) = Threw message ->
          exists rejection, rejects b rejection /\ message = rethrown rejection) /\
      (createsAndQueries b ->
       exists over, value (run b (restoreSession parseURL rounds sessionId) w) = Done over) /\
      (forall clock,
          createsAndQueries b -> ticking b clock -> (enoughRounds <= rounds)%nat ->
          value (run b (restoreSession parseURL rounds sessionId) w) = Done (Some tt)) /\
      (forall more,
          value (run b (restoreSession parseURL rounds sessionId) w) <> Done None ->
          run b (restoreSession parseURL (rounds + more) sessionId) w
          = run b (restoreSession parseURL rounds sessionId) w)) /\
  (forall sessionId session before windowData after tabs firstTabUrl remainingUrls rejection,
      find (fun s => String.eqb (Session.id s) sessionId) stored = Some session ->
      validateSession session = true ->
      Session.windows session = Some (before ++ windowData :: after)%list ->
      value (run b (restoreWindows parseURL rounds session before)
                 (world (run b getAllSessions w))) = Done (Some tt) ->
      WindowData.tabs windowData = Some tabs ->
      filter restorableUrl (map TabData.url tabs) = firstTabUrl :: remainingUrls ->
      fst (answer b (WindowsCreate firstTabUrl)
             (env (world (run b (restoreWindows parseURL rounds session before)
                              (world (run b getAllSessions w)))))) = Threw rejection ->
      value (run b (restoreSession parseURL rounds sessionId) w) = Threw (rethrown rejection) /\
      calls (run b (restoreSession parseURL rounds sessionId) w)
      = Store GetSessions
          :: calls (run b (restoreWindows parseURL rounds session before)
                        (world (run b getAllSessions w)))
          ++ [Api (WindowsCreate firstTabUrl)]) /\
  (forall rejection,
      (keptMessage rejection = true -> rethrown rejection = rejection) /\
      (keptMessage rejection = false -> rethrown rejection = FailedToRestore)).
Proof.
  intro Hget. repeat apply conj.
  - intros sessionId Hfind.
    destruct (run_restoreSession_not_found b parseURL rounds sessionId w Hget Hfind)
      as [Hv [Hc _]].
    split; assumption.
  - intros sessionId session Hfind Hinvalid.
    destruct (run_restoreSession_invalid b parseURL rounds sessionId w Hget Hfind Hinvalid)
      as [Hv [Hc _]].
    split; assumption.
  - intros session windowData tabs before after w' Ht Hf. split.
    + exact (run_restoreWindow_skipped b parseURL rounds session windowData w' Ht Hf).
    + exact (run_restoreWindows_skip b parseURL rounds session before after windowData
               Ht Hf w').
  - intros sessionId session Hfind Hvalid [[windows [Hwindows Htabs]] Hgroups].
    pose proof (fun r' => @run_restoreSession_valid E b parseURL r' session sessionId w stored
                            windows Hget Hfind Hvalid Hwindows) as Hrun.
    cbv zeta in Hrun.
    assert (Hthrows :
              forall message,
                value (run b (restoreSession parseURL rounds sessionId) w) = Threw message ->
                exists rejection, rejects b rejection /\ message = rethrown rejection).
    { intro message. rewrite Hrun.
      destruct (value (run b (restoreWindows parseURL rounds session windows)
                           (world (run b getAllSessions w)))) as [over | m] eqn:Hv;
        cbn [value]; [discriminate |].
      intros [= <-]. exists m. split; [| reflexivity].
      exact (@restoreWindows_throws E b parseURL rounds session Hgroups windows m Htabs _ Hv). }
    assert (Hdone :
              createsAndQueries b ->
              exists over, value (run b (restoreSession parseURL rounds sessionId) w)
                           = Done over).
    { intro Hcq.
      destruct (value (run b (restoreSession parseURL rounds sessionId) w))
        as [over | message] eqn:Hv; [now exists over |].
      destruct (Hthrows message eq_refl) as [rejection [Hr _]].
      destruct (createsAndQueries_rejects Hcq Hr). }
    repeat apply conj.
    + exact Hthrows.
    + exact Hdone.
    + intros clock Hcq Hticks Henough. destruct (Hdone Hcq) as [[[]|] Hv]; [exact Hv |].
      exfalso. rewrite Hrun in Hv.
      pose proof (@restoreWindows_over E b parseURL rounds session clock Hticks Henough
                    windows (world (run b getAllSessions w))) as Hover.
      destruct (value (run b (restoreWindows parseURL rounds session windows)
                           (world (run b getAllSessions w)))) as [over | m];
        cbn [value] in Hv; [| discriminate Hv].
      apply Hover. exact Hv.
    + intros more. rewrite !Hrun. intro Hv.
      rewrite (@restoreWindows_more E b parseURL rounds session more windows).
      * reflexivity.
      * intro Hnone. rewrite Hnone in Hv. apply Hv. reflexivity.
  - intros sessionId session before windowData after tabs firstTabUrl remainingUrls rejection
           Hfind Hvalid Hwindows Hbefore Ht Hf Hq.
    rewrite (@run_restoreSession_valid E b parseURL rounds session sessionId w stored
               _ Hget Hfind Hvalid Hwindows).
    cbv zeta.
    rewrite (@run_restoreWindows_app E b parseURL rounds session before (windowData :: after)
               _ Hbefore).
    cbn [value world calls restoreWindows].
    destruct (@run_restoreWindow_rejected E b parseURL rounds session windowData tabs
                firstTabUrl remainingUrls _ rejection Ht Hf Hq) as [Hv Hc].
    rewrite (run_bindM_Threw _ _ _ _ Hv), Hc. cbn [value world calls]. split; reflexivity.
  - intro rejection. split; [apply rethrown_kept | apply rethrown_replaced].
Qed.

Lemma restore_failure_modes_witness :
  (value (run tickingBrowser (restoreSession plainHttpUrl enoughRounds "nope") restoreWorld)
   = Threw SessionNotFound /\
   calls (run tickingBrowser (restoreSession plainHttpUrl enoughRounds "nope") restoreWorld)
   = [Store GetSessions]) /\
  (value (run tickingBrowser (restoreSession plainHttpUrl enoughRounds "9") restoreWorld)
   = Threw InvalidSession /\
   calls (run tickingBrowser (restoreSession plainHttpUrl enoughRounds "9") restoreWorld)
   = [Store GetSessions]) /\
  value (run tickingBrowser (restoreSession plainHttpUrl enoughRounds "42") restoreWorld)
  = Done (Some tt) /\
  (value (run secondWindowFails (restoreSession plainHttpUrl enoughRounds "42") restoreWorld)
   = Threw FailedToRestore /\
   calls (run secondWindowFails (restoreSession plainHttpUrl enoughRounds "42") restoreWorld)
   = [ Store GetSessions;
       Api (WindowsCreate "https://a.example/");
       Api DateNow; Api DateNow; Api (TabsQuery 100);
       Api (TabsQuery 100);
       Api (WindowsCreate "https://b.example/") ]).
Proof.
  assert (Hget : forall b : Browser Z,
             storageFault b = (fun _ clock => (None, clock)) ->
             value (run b getAllSessions restoreWorld)
             = Done [twoWindows; emptySession "9" "Empty" 9]).
  { intros [answer fault] Hf. simpl in Hf. subst fault. reflexivity. }
  destruct (@restore_failure_modes Z tickingBrowser plainHttpUrl enoughRounds restoreWorld
              [twoWindows; emptySession "9" "Empty" 9] (Hget tickingBrowser eq_refl))
    as [Hmissing [Hinvalid [_ [Hvalid _]]]].
  destruct (@restore_failure_modes Z secondWindowFails plainHttpUrl enoughRounds restoreWorld
              [twoWindows; emptySession "9" "Empty" 9] (Hget secondWindowFails eq_refl))
    as [_ [_ [_ [_ [Hrejected _]]]]].
  split; [| split; [| split]].
  - apply Hmissing. reflexivity.
  - apply (Hinvalid "9" (emptySession "9" "Empty" 9)); reflexivity.
  - destruct (Hvalid "42" twoWindows eq_refl eq_refl) as [_ [_ [Hdone _]]].
    + split.
      * eexists. split; [reflexivity |].
        intros windowData [<- | [<- | []]]; discriminate.
      * intros groups group [= <-] [].
    + apply (Hdone (fun clock => clock)).
      * split; intros; eexists; reflexivity.
      * split; [reflexivity |]. split.
        -- intros c e. destruct c; simpl; lia.
        -- intros ms e. simpl. lia.
      * apply Nat.le_refl.
  - exact (Hrejected "42" twoWindows
             [ {| WindowData.id := 1; WindowData.tabs := Some [oneTab "https://a.example/"] |} ]
             {| WindowData.id := 2; WindowData.tabs := Some [oneTab "https://b.example/"] |}
             [] [oneTab "https://b.example/"] "https://b.example/" []
             "Tabs cannot be edited right now."
             eq_refl eq_refl eq_refl eq_refl eq_refl eq_refl eq_refl).
Defined.

(** The restore of the second window is rejected after the first window
    has been created: the call fails with neither of the two early errors,
    and after a change of the live hierarchy. *)
Lemma restore_fails_after_mutation :
  ~ failsOnlyBeforeMutation secondWindowFails plainHttpUrl "42" twoWindowsWorld.
Proof.
  intro H. destruct (H 1%nat FailedToRestore) as [[Hm | Hm] _].
  - vm_compute. reflexivity.
  - discriminate Hm.
  - discriminate Hm.
Qed.

Example restore_second_window_rejected :
  let r := run secondWindowFails (restoreSession plainHttpUrl enoughRounds "42")
               twoWindowsWorld in
  value r = Threw FailedToRestore /\
  calls r = [ Store GetSessions;
              Api (WindowsCreate "https://a.example/");
              Api DateNow; Api DateNow; Api (TabsQuery 100);
              Api (TabsQuery 100);
              Api (WindowsCreate "https://b.example/") ].
Proof. vm_compute. split; reflexivity. Qed.

(** A rejection whose message holds one of the three phrases is thrown
    again as it is. *)
Example restore_rethrows_the_rejection :
  value (run invalidUrlBrowser (restoreSession plainHttpUrl enoughRounds "42")
             twoWindowsWorld)
  = Threw "Invalid url: https://a.example/".
Proof. vm_compute. reflexivity. Qed.

(** A session stored by the background worker, whose group has no list of
    URLs: its restore fails once its window has been created. *)
Example restore_of_a_worker_session :
  let r := run tickingBrowser (restoreSession plainHttpUrl enoughRounds "5") workerWorld in
  validateSession workerSession = true /\
  value r = Threw FailedToRestore /\
  In (Api (WindowsCreate "https://a.example/")) (calls r).
Proof. vm_compute. repeat split. right. left. reflexivity. Qed.

(** Under a clock that ticks and windows that never show a tab, every
    polling loop is left at its deadline and the restore returns; followed
    for ten rounds only, the first loop is not over. *)
Example restore_in_a_slow_browser :
  value (run slowBrowser (restoreSession plainHttpUrl enoughRounds "42") twoWindowsWorld)
  = Done (Some tt) /\
  value (run slowBrowser (restoreSession plainHttpUrl 10 "42") twoWindowsWorld)
  = Done None.
Proof. vm_compute. split; reflexivity. Qed.

(** ** The two storage keys *)

Section KeySeparation.
Variable E : Type.
Variable b : Browser E.

Lemma keeps_undoHistory (A : Type) (p : Prog A) (w : World E) :
  Uses (fun c => writesUndoHistory c = false) p ->
  undoHistory (store (world (run b p w))) = undoHistory (store w).
Proof.
  intro Hp.
  apply (Uses_store_invariant b (fun s => undoHistory s = undoHistory (store w))
           (P := fun c => writesUndoHistory c = false)); [| exact Hp | reflexivity].
  intros op Hop s Hs. destruct op; try discriminate; exact Hs.
Qed.

Lemma keeps_sessions (A : Type) (p : Prog A) (w : World E) :
  Uses (fun c => writesSessions c = false) p ->
  sessions (store (world (run b p w))) = sessions (store w).
Proof.
  intro Hp.
  apply (Uses_store_invariant b (fun s => sessions s = sessions (store w))
           (P := fun c => writesSessions c = false)); [| exact Hp | reflexivity].
  intros op Hop s Hs. destruct op; try discriminate; exact Hs.
Qed.

End KeySeparation.

Lemma restoreCall_spares_undoHistory (c : Call) : restoreCall c -> writesUndoHistory c = false.
Proof. destruct c as [op | a]; [destruct op; simpl; tauto | reflexivity]. Qed.

(** X15.  The session list and the undo history never interfere.
    Saving, restoring, deleting and pruning sessions leave the undo history
    as it was; recording an undo entry and undoing leave the session list as
    it was.  This holds for every browser, whatever fails. *)
Theorem sessions_and_undo_history_never_interfere
        (E : Type) (b : Browser E) (parseURL : string -> option (string * string * string))
        (rounds : nat) (w : World E) (sessionName sessionId actionType : string)
        (maxCount : nat) :
  (undoHistory (store (world (run b (saveCurrentSession sessionName) w)))
   = undoHistory (store w) /\
   undoHistory (store (world (run b (restoreSession parseURL rounds sessionId) w)))
   = undoHistory (store w) /\
   undoHistory (store (world (run b (deleteSession sessionId) w)))
   = undoHistory (store w) /\
   undoHistory (store (world (run b (cleanupRecoverySessions maxCount) w)))
   = undoHistory (store w) /\
   undoHistory (store (world (run b cleanupRecoverySessionsInline w)))
   = undoHistory (store w)) /\
  (sessions (store (world (run b (saveUndoState actionType) w))) = sessions (store w) /\
   sessions (store (world (run b (saveUndoStateInline actionType) w))) = sessions (store w) /\
   sessions (store (world (run b performUndo w))) = sessions (store w) /\
   sessions (store (world (run b undoLastActionInline w))) = sessions (store w)).
Proof.
  split; [split; [| split; [| split; [| split]]] | split; [| split; [| split]]].
  - apply keeps_undoHistory.
    unfold saveCurrentSession, storageAccessTest, captureSession, captureWindow, captureTab,
      collectGroup, putSession, checkStorageQuota, appendSession.
    uses; reflexivity.
  - apply keeps_undoHistory.
    apply Uses_weaken with (P := restoreCall);
      [apply restoreCall_spares_undoHistory | apply Uses_restoreSession].
  - apply keeps_undoHistory. unfold deleteSession, getAllSessions. uses; reflexivity.
  - apply keeps_undoHistory. unfold cleanupRecoverySessions, getAllSessions. uses; reflexivity.
  - apply keeps_undoHistory. unfold cleanupRecoverySessionsInline. uses; reflexivity.
  - apply keeps_sessions. unfold saveUndoState, captureUndoWindows, captureUndoGroups.
    uses; reflexivity.
  - apply keeps_sessions.
    unfold saveUndoStateInline, captureCurrentGroupsInline, captureUndoWindows,
      captureUndoGroups.
    uses; reflexivity.
  - apply keeps_sessions. unfold performUndo, replayWindow, windowOrNull, ungroupAll, regroup.
    uses; reflexivity.
  - apply keeps_sessions.
    unfold undoLastActionInline, restoreUndoStateInline, replayWindow, windowOrNull,
      ungroupAll, regroup.
    uses; reflexivity.
Qed.

(** ** What an undo entry records, and what a replay regroups *)

Lemma setOf_In (l : list Z) (x : Z) : In x (setOf l) <-> In x l.
Proof.
  induction l as [|y l IH]; [reflexivity |]. cbn [setOf In].
  rewrite filter_In, IH, negb_true_iff, Z.eqb_neq.
  destruct (Z.eq_dec y x); [subst; tauto |]. intuition congruence.
Qed.

Lemma setOf_NoDup (l : list Z) : NoDup (setOf l).
Proof.
  induction l as [|y l IH]; [constructor |]. cbn [setOf]. constructor.
  - rewrite filter_In, negb_true_iff, Z.eqb_neq. tauto.
  - now apply NoDup_filter.
Qed.

Section UndoGroups.
Variable E : Type.
Variable b : Browser E.
Variable tabs : list LiveTab.t.

(** The loop over the group ids: the groups recorded are those whose
    fetch was answered, in order, each with its member tabs. *)
Lemma run_captureUndoGroups_loop (groupIds : list Z) :
  forall (recorded : list UndoGroup.t) (w : World E),
  exists groups,
    value (run b (forEach groupIds
                    (fun groupId groups =>
                       tryCatch
                         (group <- await (Api (TabGroupsGet groupId)) ;;
                          let tabsInGroup :=
                            filter (fun t => Z.eqb (LiveTab.groupId t) groupId) tabs in
                          ret (groups ++ [ {| UndoGroup.id := groupId;
                                              UndoGroup.title := LiveGroup.title group;
                                              UndoGroup.color := LiveGroup.color group;
                                              UndoGroup.collapsed := LiveGroup.collapsed group;
                                              UndoGroup.tabIds := map LiveTab.id tabsInGroup |} ])%list)
                         (fun _ => ret groups))
                    recorded) w)
    = Done (recorded ++ groups)%list /\
    (forall group, In group groups ->
                   In (UndoGroup.id group) groupIds /\
                   UndoGroup.tabIds group = memberIds (UndoGroup.id group) tabs) /\
    (NoDup groupIds -> NoDup (map UndoGroup.id groups)) /\
    (fetchable b -> map UndoGroup.id groups = groupIds).
Proof.
  cbv zeta. induction groupIds as [|groupId groupIds IH]; intros recorded w.
  - exists []. cbn [forEach run ret value]. rewrite app_nil_r.
    split; [reflexivity |]. split; [intros g [] |].
    split; [intros _; constructor | reflexivity].
  - cbn [forEach].
    set (body := tryCatch _ _).
    assert (Hbody : exists step,
               value (run b body w) = Done (recorded ++ step)%list /\
               (step = [] \/
                exists group, step = [group] /\ UndoGroup.id group = groupId /\
                              UndoGroup.tabIds group = memberIds groupId tabs) /\
               (fetchable b -> exists group, step = [group])).
    { unfold body. run_simpl. rewrite exec_Api. cbn [fst snd].
      destruct (fst (answer b (TabGroupsGet groupId) (env w))) as [group | m] eqn:Hans;
        run_simpl.
      - eexists [_]. split; [reflexivity |]. split; [| eauto].
        right. eexists. repeat split.
      - exists []. rewrite app_nil_r. split; [reflexivity |]. split; [now left |].
        intro Hf. destruct (Hf groupId (env w)) as [answered Hg]. congruence. }
    destruct Hbody as [step [Hv [Hstep Hfetch]]].
    rewrite (run_bindM_Done _ _ _ _ Hv).
    destruct (IH (recorded ++ step)%list (world (run b body w)))
      as [groups [Hv2 [Hin [Hnd Hall]]]].
    exists (step ++ groups)%list. cbn [value]. rewrite Hv2, app_assoc.
    split; [reflexivity |]. split; [| split].
    + intros group Hg. apply in_app_or in Hg. destruct Hg as [Hg | Hg].
      * destruct Hstep as [-> | [g [-> [Hid Hids]]]]; [contradiction |].
        destruct Hg as [<- | []]. rewrite Hid. split; [now left | assumption].
      * destruct (Hin group Hg) as [H1 H2]. split; [now right | assumption].
    + intro Hno. inversion Hno as [| ? ? Hnot Hno']; subst.
      rewrite map_app. destruct Hstep as [-> | [g [-> [Hid _]]]]; [now apply Hnd |].
      cbn [map app]. constructor; [| now apply Hnd].
      rewrite Hid, in_map_iff. intros [g' [Hg' Hin']].
      apply Hnot. rewrite <- Hg'. now apply Hin.
    + intro Hf. destruct (Hfetch Hf) as [g ->].
      destruct Hstep as [Hnil | [g' [[= <-] [Hid _]]]]; [discriminate |].
      rewrite map_app. cbn [map app]. now rewrite Hid, Hall.
Qed.

End UndoGroups.

Lemma groupIdsOf_In (tabs : list LiveTab.t) (groupId : Z) :
  In groupId (groupIdsOf tabs) <->
  groupId <> TAB_ID_NONE /\ exists tab, In tab tabs /\ LiveTab.groupId tab = groupId.
Proof.
  unfold groupIdsOf. rewrite setOf_In, filter_In, in_map_iff, negb_true_iff, Z.eqb_neq.
  split.
  - intros [[tab [Hg Hin]] Hne]. split; [assumption | eauto].
  - intros [Hne [tab [Hin Hg]]]. split; [eauto | assumption].
Qed.

Lemma memberIds_not_empty (tabs : list LiveTab.t) (tab : LiveTab.t) :
  In tab tabs -> memberIds (LiveTab.groupId tab) tabs <> [].
Proof.
  intros Hin Hnil. unfold memberIds in Hnil. apply map_eq_nil in Hnil.
  assert (Hmem : In tab (filter (fun t => Z.eqb (LiveTab.groupId t) (LiveTab.groupId tab)) tabs))
    by (apply filter_In; split; [assumption | apply Z.eqb_refl]).
  rewrite Hnil in Hmem. contradiction.
Qed.

(** Tabs that are still there are found again by their ids. *)
Lemma tabsToGroupOf_present (windowState : WindowState.t) (existingTabs : list LiveTab.t)
      (tabIds : list Z) :
  (forall tabId, In tabId tabIds -> exists tab, In tab existingTabs /\ LiveTab.id tab = tabId) ->
  tabsToGroupOf windowState existingTabs tabIds = tabIds.
Proof.
  unfold tabsToGroupOf. induction tabIds as [|tabId tabIds IH]; intro Hall; [reflexivity |].
  cbn [flat_map]. rewrite IH by (intros t Ht; apply Hall; now right).
  destruct (find_exists (fun t => Z.eqb (LiveTab.id t) tabId) existingTabs)
    as [tab [Hfind [_ Hid]]].
  { destruct (Hall tabId (or_introl eq_refl)) as [tab [Hin Hid]].
    exists tab. split; [assumption | now apply Z.eqb_eq]. }
  rewrite Hfind. apply Z.eqb_eq in Hid. now rewrite Hid.
Qed.

(** Whatever is regrouped is a tab of the window as it is now. *)
Lemma tabsToGroupOf_In (windowState : WindowState.t) (existingTabs : list LiveTab.t)
      (tabIds : list Z) (tabId : Z) :
  In tabId (tabsToGroupOf windowState existingTabs tabIds) ->
  exists tab, In tab existingTabs /\ LiveTab.id tab = tabId.
Proof.
  unfold tabsToGroupOf. rewrite in_flat_map. intros [savedTabId [_ Hin]].
  destruct (find (fun t => Z.eqb (LiveTab.id t) savedTabId) existingTabs) as [tab|] eqn:F1.
  { destruct Hin as [<- | []]. apply find_some in F1. exists tab. tauto. }
  destruct (find (fun t => Z.eqb (UndoTab.id t) savedTabId) (WindowState.tabs windowState))
    as [savedTab|]; [| contradiction].
  destruct (find (fun t => sameOpt (LiveTab.url t) (UndoTab.url savedTab)) existingTabs)
    as [tab|] eqn:F2; [| contradiction].
  destruct Hin as [<- | []]. apply find_some in F2. exists tab. tauto.
Qed.

(** X16.  The groups that an undo entry records for a window never fail
    to be captured.  Their ids are pairwise distinct and none is the id
    that marks an ungrouped tab; each lists the ids of all the tabs of the
    window that belong to it, in tab order, and lists one at least; while
    the window still shows these tabs, the replay looks every one of them up
    by its id.  When no group fetch is rejected the recorded groups are
    those of the window, in the order in which its tabs first show them. *)
Theorem undo_entry_groups_are_distinct_and_whole
        (E : Type) (b : Browser E) (tabs : list LiveTab.t) (w : World E) :
  exists groups,
    value (run b (captureUndoGroups tabs) w) = Done groups /\
    NoDup (map UndoGroup.id groups) /\
    (forall group,
        In group groups ->
        UndoGroup.id group <> TAB_ID_NONE /\
        UndoGroup.tabIds group = memberIds (UndoGroup.id group) tabs /\
        UndoGroup.tabIds group <> [] /\
        forall windowState,
          tabsToGroupOf windowState tabs (UndoGroup.tabIds group) = UndoGroup.tabIds group) /\
    (fetchable b -> map UndoGroup.id groups = groupIdsOf tabs).
Proof.
  unfold captureUndoGroups. fold (groupIdsOf tabs).
  destruct (run_captureUndoGroups_loop b tabs (groupIdsOf tabs) [] w)
    as [groups [Hv [Hin [Hnd Hall]]]].
  exists groups. split; [exact Hv |]. split; [apply Hnd, setOf_NoDup |].
  split; [| exact Hall].
  intros group Hg. destruct (Hin group Hg) as [Hid Hids].
  apply groupIdsOf_In in Hid. destruct Hid as [Hne [tab [Htab Hgroup]]].
  split; [exact Hne |]. split; [exact Hids |]. split.
  - rewrite Hids, <- Hgroup. now apply memberIds_not_empty.
  - intro windowState. apply tabsToGroupOf_present. intros tabId Hin'.
    rewrite Hids in Hin'. unfold memberIds in Hin'. apply in_map_iff in Hin'.
    destruct Hin' as [t [Ht Hf]]. apply filter_In in Hf. exists t. tauto.
Qed.

(** X17.  When the query of the window is answered, the replay of one
    recorded group completes.  The tabs it asks to group are tabs that the
    window shows now, and they are the recorded ids when all of these are
    still shown.  When none is found it issues no call besides the query;
    otherwise it asks once to group them, with no target window; when that
    is rejected it issues no further call, and when it is answered it asks
    once, and no more, to give the new group the recorded title, colour and
    collapsed state. *)
Theorem replay_regroups_only_tabs_of_the_window
        (E : Type) (b : Browser E) (windowState : WindowState.t) (windowId : Z)
        (group : UndoGroup.t) (w : World E) (existingTabs : list LiveTab.t) :
  fst (answer b (TabsQuery windowId) (env w)) = Done existingTabs ->
  let r := run b (regroup windowState windowId group) w in
  let tabsToGroup := tabsToGroupOf windowState existingTabs (UndoGroup.tabIds group) in
  let grouped := fst (answer b (TabsGroup tabsToGroup None)
                             (snd (answer b (TabsQuery windowId) (env w)))) in
  value r = Done tt /\
  (forall tabId, In tabId tabsToGroup ->
                 exists tab, In tab existingTabs /\ LiveTab.id tab = tabId) /\
  ((forall tabId, In tabId (UndoGroup.tabIds group) ->
                  exists tab, In tab existingTabs /\ LiveTab.id tab = tabId) ->
   tabsToGroup = UndoGroup.tabIds group) /\
  (tabsToGroup = [] -> calls r = [Api (TabsQuery windowId)]) /\
  (tabsToGroup <> [] ->
   (forall message,
       grouped = Threw message ->
       calls r = [Api (TabsQuery windowId); Api (TabsGroup tabsToGroup None)]) /\
   (forall newGroupId,
       grouped = Done newGroupId ->
       calls r = [Api (TabsQuery windowId); Api (TabsGroup tabsToGroup None);
                  Api (TabGroupsUpdate newGroupId (UndoGroup.title group)
                                       (UndoGroup.color group) (UndoGroup.collapsed group))])).
Proof.
  intro Hq. cbv zeta.
  split; [| split; [| split; [| split]]].
  - unfold regroup. run_simpl. rewrite exec_Api. cbn [fst snd]. rewrite Hq. run_simpl.
    destruct (tabsToGroupOf windowState existingTabs (UndoGroup.tabIds group));
      [reflexivity |].
    run_simpl. rewrite exec_Api. cbn [fst snd].
    match goal with
    | |- context [fst (answer b (TabsGroup ?ids None) ?e)] =>
        destruct (fst (answer b (TabsGroup ids None) e))
    end; run_simpl; [| reflexivity].
    rewrite exec_Api. cbn [fst snd].
    match goal with
    | |- context [fst (answer b (TabGroupsUpdate ?g ?t ?c ?k) ?e)] =>
        destruct (fst (answer b (TabGroupsUpdate g t c k) e)) as [[] | m]
    end; reflexivity.
  - intros tabId. apply tabsToGroupOf_In.
  - apply tabsToGroupOf_present.
  - intro Hnil. unfold regroup. run_simpl. rewrite exec_Api. cbn [fst snd]. rewrite Hq.
    run_simpl. rewrite Hnil. reflexivity.
  - intro Hne. unfold regroup. run_simpl. rewrite exec_Api. cbn [fst snd]. rewrite Hq.
    run_simpl.
    destruct (tabsToGroupOf windowState existingTabs (UndoGroup.tabIds group))
      as [|tabId tabIds]; [contradiction |].
    run_simpl. rewrite exec_Api. cbn [fst snd env].
    destruct (fst (answer b (TabsGroup (tabId :: tabIds) None)
                          (snd (answer b (TabsQuery windowId) (env w)))))
      as [groupId | m]; run_simpl; (split; [intros message [= <-] | intros newGroupId [= <-]]).
    + rewrite exec_Api. cbn [fst snd].
      match goal with
      | |- context [fst (answer b (TabGroupsUpdate ?g ?t ?c ?k) ?e)] =>
          destruct (fst (answer b (TabGroupsUpdate g t c k) e)) as [[] | m]
      end; reflexivity.
    + reflexivity.
Qed.

(** The witness of X17: the recorded tab 10 is gone and the tab that
    shows its URL is grouped in its place; the browser puts it in group
    55, which is then given the recorded title and colour. *)
Lemma replay_regroups_only_tabs_of_the_window_witness :
  let r := run groupingBrowser (regroup (demoWindowState 1 "https://a.example/") 1 demoGroup)
               freshWorld in
  value r = Done tt /\
  calls r = [ Api (TabsQuery 1); Api (TabsGroup [101] None);
              Api (TabGroupsUpdate 55 (Some "Work") "blue" false) ].
Proof.
  destruct (@replay_regroups_only_tabs_of_the_window Z groupingBrowser
              (demoWindowState 1 "https://a.example/") 1 demoGroup freshWorld
              [liveTab 101 (Some "https://a.example/") TAB_ID_NONE] eq_refl)
    as [Hv [_ [_ [_ Hcalls]]]].
  split; [exact Hv |].
  destruct Hcalls as [_ Hanswered]; [discriminate |].
  apply (Hanswered 55). reflexivity.
Defined.

(** In that window the recorded tab 10 is gone; the tab that shows its URL
    is grouped in its place. *)
Example replay_falls_back_on_the_url :
  calls (run stillBrowser
             (regroup {| WindowState.id := 1;
                         WindowState.tabs :=
                           [ {| UndoTab.id := 10; UndoTab.url := Some "https://a.example/";
                                UndoTab.title := Some "A"; UndoTab.groupId := Some 7;
                                UndoTab.index := 0; UndoTab.pinned := None |} ];
                         WindowState.groups := [] |}
                      1
                      {| UndoGroup.id := 7; UndoGroup.title := Some "Work";
                         UndoGroup.color := "blue"; UndoGroup.collapsed := false;
                         UndoGroup.tabIds := [10] |})
             stillWorld)
  = [Api (TabsQuery 1); Api (TabsGroup [101] None)].
Proof. vm_compute. reflexivity. Qed.

(** ** The popup: how old a session is *)

Lemma age_in_minutes (diff : Z) : diff / 1000 / 60 = diff / 60000.
Proof. rewrite Z.div_div by lia. reflexivity. Qed.

Lemma age_in_hours (diff : Z) : diff / 1000 / 60 / 66 = diff / 3960000.
Proof. rewrite !Z.div_div by lia. reflexivity. Qed.

Lemma age_in_days (diff : Z) : diff / 1000 / 60 / 66 / 24 = diff / 95040000.
Proof. rewrite !Z.div_div by lia. reflexivity. Qed.

(** X18.  [formatTimestamp] by the age in milliseconds of the session:
    below one minute, and for a timestamp in the future, the text is
    "Just now"; from one minute to below sixty-six minutes it counts the
    whole minutes, 1 to 65; from sixty-six minutes on it counts hours of
    sixty-six minutes, 1 to 23; from twenty-four such hours on it counts
    days of twenty-four such hours. *)
Theorem formatTimestamp_buckets (now timestamp : Z) :
  let age := now - timestamp in
  (age < 60000 -> formatTimestamp now timestamp = "Just now") /\
  (60000 <= age < 3960000 ->
   formatTimestamp now timestamp
   = toString (age / 60000) ++ " minute" ++ plural (age / 60000) ++ " ago" /\
   1 <= age / 60000 <= 65) /\
  (3960000 <= age < 95040000 ->
   formatTimestamp now timestamp
   = toString (age / 3960000) ++ " hour" ++ plural (age / 3960000) ++ " ago" /\
   1 <= age / 3960000 <= 23) /\
  (95040000 <= age ->
   formatTimestamp now timestamp
   = toString (age / 95040000) ++ " day" ++ plural (age / 95040000) ++ " ago" /\
   1 <= age / 95040000).
Proof.
  cbv zeta. unfold formatTimestamp. cbv zeta.
  rewrite age_in_days, age_in_hours, age_in_minutes.
  set (age := now - timestamp).
  split; [| split; [| split]]; intro H.
  - assert (age / 95040000 <= 0) by (apply Z.lt_succ_r, Z.div_lt_upper_bound; lia).
    assert (age / 3960000 <= 0) by (apply Z.lt_succ_r, Z.div_lt_upper_bound; lia).
    assert (age / 60000 <= 0) by (apply Z.lt_succ_r, Z.div_lt_upper_bound; lia).
    destruct (Z.gtb_spec (age / 95040000) 0); [lia |].
    destruct (Z.gtb_spec (age / 3960000) 0); [lia |].
    destruct (Z.gtb_spec (age / 60000) 0); [lia | reflexivity].
  - assert (age / 95040000 <= 0) by (apply Z.lt_succ_r, Z.div_lt_upper_bound; lia).
    assert (age / 3960000 <= 0) by (apply Z.lt_succ_r, Z.div_lt_upper_bound; lia).
    assert (1 <= age / 60000) by (apply Z.div_le_lower_bound; lia).
    assert (age / 60000 < 66) by (apply Z.div_lt_upper_bound; lia).
    destruct (Z.gtb_spec (age / 95040000) 0); [lia |].
    destruct (Z.gtb_spec (age / 3960000) 0); [lia |].
    destruct (Z.gtb_spec (age / 60000) 0); [split; [reflexivity | lia] | lia].
  - assert (age / 95040000 <= 0) by (apply Z.lt_succ_r, Z.div_lt_upper_bound; lia).
    assert (1 <= age / 3960000) by (apply Z.div_le_lower_bound; lia).
    assert (age / 3960000 < 24) by (apply Z.div_lt_upper_bound; lia).
    destruct (Z.gtb_spec (age / 95040000) 0); [lia |].
    destruct (Z.gtb_spec (age / 3960000) 0); [split; [reflexivity | lia] | lia].
  - assert (1 <= age / 95040000) by (apply Z.div_le_lower_bound; lia).
    destruct (Z.gtb_spec (age / 95040000) 0); [split; [reflexivity | lia] | lia].
Qed.

(** A session saved sixty-five minutes ago, one saved sixty-six minutes
    ago, one saved twenty-four hours ago, and one dated in the future. *)
Example formatTimestamp_samples :
  formatTimestamp 10000000000 (10000000000 - 65 * 60000) = "65 minutes ago" /\
  formatTimestamp 10000000000 (10000000000 - 66 * 60000) = "1 hour ago" /\
  formatTimestamp 10000000000 (10000000000 - 24 * 3600000) = "21 hours ago" /\
  formatTimestamp 10000000000 (10000000000 + 5000) = "Just now".
Proof. vm_compute. repeat split. Qed.

(** ** Restore: the active tab *)

(** X19.  [restoreActive] never throws and writes nothing to the store.
    It asks for one activation, of the tab that [findTabByUrl] finds for
    the first record that is marked active and for which it finds one, and
    for nothing else; when there is no such record it issues no call. *)
Theorem restoreActive_activates_the_first_match
        (E : Type) (b : Browser E) (parseURL : string -> option (string * string * string))
        (tabs : list TabData.t) (updatedTabs : list LiveTab.t) (w : World E) :
  let r := run b (restoreActive parseURL tabs updatedTabs) w in
  value r = Done tt /\
  store (world r) = store w /\
  match find (activatable parseURL updatedTabs) tabs with
  | Some originalTab =>
      exists createdTab,
        findTabByUrl parseURL updatedTabs (TabData.url originalTab) = Some createdTab /\
        In createdTab updatedTabs /\
        calls r = [Api (TabsUpdateActive (LiveTab.id createdTab))]
  | None => calls r = []
  end.
Proof.
  cbv zeta. unfold restoreActive.
  induction tabs as [|originalTab rest IH]; [repeat split |].
  cbn [activateFirst find].
  assert (Hact : activatable parseURL updatedTabs originalTab
                 = TabData.active originalTab &&
                   match findTabByUrl parseURL updatedTabs (TabData.url originalTab) with
                   | Some _ => true
                   | None => false
                   end) by reflexivity.
  rewrite Hact. clear Hact.
  destruct (TabData.active originalTab); cbn [andb]; [| exact IH].
  destruct (findTabByUrl parseURL updatedTabs (TabData.url originalTab)) as [createdTab|] eqn:F;
    [| exact IH].
  run_simpl. unfold exec.
  destruct (answer b (TabsUpdateActive (LiveTab.id createdTab)) (env w)) as [[[] | m] e];
    run_simpl; (split; [reflexivity |]); (split; [reflexivity |]);
    exists createdTab; (split; [exact F |]); (split; [| reflexivity]);
    eapply findTabByUrl_In; exact F.
Qed.

(** ** Restore: a session without tabs *)

Lemma countSessionTabs_0 (session : Session.t) (windows : list WindowData.t) :
  Session.windows session = Some windows ->
  countSessionTabs session = 0%nat ->
  forall windowData, In windowData windows ->
                     WindowData.tabs windowData = None \/ WindowData.tabs windowData = Some [].
Proof.
  unfold countSessionTabs. intros -> Hcount. rewrite fold_left_count in Hcount.
  cbn [Nat.add] in Hcount. apply length_zero_iff_nil in Hcount.
  intros windowData Hin.
  destruct (WindowData.tabs windowData) as [[|tab tabs]|] eqn:T; auto.
  exfalso.
  assert (Hi : In tab (flat_map (fun window => match WindowData.tabs window with
                                                 | Some tabs => tabs
                                                 | None => []
                                                 end) windows)).
  { apply in_flat_map. exists windowData. split; [assumption |]. rewrite T. now left. }
  rewrite Hcount in Hi. contradiction.
Qed.

Section TablessWindows.
Variable E : Type.
Variable b : Browser E.
Variable parseURL : string -> option (string * string * string).
Variable rounds : nat.

Lemma run_restoreWindows_tabless (session : Session.t) (windows : list WindowData.t)
      (w : World E) :
  (forall windowData, In windowData windows ->
                      WindowData.tabs windowData = None \/ WindowData.tabs windowData = Some []) ->
  run b (restoreWindows parseURL rounds session windows) w
  = {| value := if forallb hasTabList windows then Done (Some tt) else Threw NotIterable;
       world := w; calls := [] |}.
Proof.
  induction windows as [|windowData windows IH]; intro Hall; [reflexivity |].
  cbn [restoreWindows forallb]. unfold hasTabList at 1, restoreWindow at 1.
  destruct (Hall windowData (or_introl eq_refl)) as [-> | ->].
  - reflexivity.
  - cbn [map filter andb]. unfold bindM at 1. rewrite run_bind. cbn [run ret value world calls].
    rewrite IH by (intros wd Hin; apply Hall; now right).
    reflexivity.
Qed.

End TablessWindows.

(** X20.  A stored session that passes [validateSession] and yet holds no
    tab, by [countSessionTabs], is one with recorded groups.  Its restore
    issues no call but the read of the session list and changes nothing in
    the store; it completes, having opened nothing, when the session has
    its window list and every window record its tab list, and fails with
    the generic restore error otherwise. *)
Theorem restore_of_a_session_without_tabs
        (E : Type) (b : Browser E) (parseURL : string -> option (string * string * string))
        (rounds : nat) (w : World E) (sessionId : string) (stored : list Session.t)
        (session : Session.t) :
  value (run b getAllSessions w) = Done stored ->
  find (fun s => String.eqb (Session.id s) sessionId) stored = Some session ->
  validateSession session = true ->
  countSessionTabs session = 0%nat ->
  let r := run b (restoreSession parseURL rounds sessionId) w in
  (exists group groups, Session.groups session = Some (group :: groups)) /\
  calls r = [Store GetSessions] /\
  store (world r) = store w /\
  value r = match Session.windows session with
            | Some windows =>
                if forallb hasTabList windows then Done (Some tt) else Threw FailedToRestore
            | None => Threw FailedToRestore
            end.
Proof.
  intros Hget Hfind Hvalid Hcount. cbv zeta.
  destruct (run_getAllSessions_any b w) as [_ [Hstore Hcalls]].
  split.
  { unfold validateSession in Hvalid.
    destruct (Session.groups session) as [[|group groups]|] eqn:G; [| eauto |].
    - destruct (Session.windows session) as [windows|] eqn:W.
      + pose proof (countSessionTabs_0 session W Hcount) as Hall.
        assert (Hnone : existsb (fun windowData =>
                                   match WindowData.tabs windowData with
                                   | Some (_ :: _) => true
                                   | _ => false
                                   end) windows = false).
        { apply not_true_is_false. intro Hex. apply existsb_exists in Hex.
          destruct Hex as [wd [Hin Hwd]]. destruct (Hall wd Hin) as [T | T];
            rewrite T in Hwd; discriminate. }
        rewrite Hnone in Hvalid. discriminate.
      + discriminate.
    - destruct (Session.windows session) as [windows|] eqn:W; [| discriminate].
      pose proof (countSessionTabs_0 session W Hcount) as Hall.
      assert (Hnone : existsb (fun windowData =>
                                 match WindowData.tabs windowData with
                                 | Some (_ :: _) => true
                                 | _ => false
                                 end) windows = false).
      { apply not_true_is_false. intro Hex. apply existsb_exists in Hex.
        destruct Hex as [wd [Hin Hwd]]. destruct (Hall wd Hin) as [T | T];
          rewrite T in Hwd; discriminate. }
      rewrite Hnone in Hvalid. discriminate. }
  assert (Hbody :
    run b (sessions <- getAllSessions ;;
           match find (fun s => String.eqb (Session.id s) sessionId) sessions with
           | None => throw SessionNotFound
           | Some session =>
               if negb (validateSession session) then throw InvalidSession
               else
                 match Session.windows session with
                 | None => throw NotIterable
                 | Some windows => restoreWindows parseURL rounds session windows
                 end
           end) w
    = {| value := match Session.windows session with
                  | Some windows =>
                      if forallb hasTabList windows then Done (Some tt) else Threw NotIterable
                  | None => Threw NotIterable
                  end;
         world := world (run b getAllSessions w);
         calls := [Store GetSessions] |}).
  { rewrite (run_bindM_Done _ _ _ _ Hget), Hfind, Hvalid. cbn [negb].
    destruct (Session.windows session) as [windows|] eqn:W.
    - rewrite (run_restoreWindows_tabless b parseURL rounds session windows _
                 (countSessionTabs_0 session W Hcount)).
      cbn [value world calls]. rewrite Hcalls. reflexivity.
    - cbn [run throw value world calls]. rewrite Hcalls. reflexivity. }
  unfold restoreSession.
  match goal with
  | |- context [tryCatch ?p ?h] =>
      destruct (@run_tryCatch_rethrow E b (option unit) p h w) as [Hw [Hc Hv]]
  end.
  { intro m. eauto. }
  rewrite Hc, Hw, Hbody in *. cbn [value world calls] in *.
  split; [reflexivity |]. split; [exact Hstore |].
  destruct (Session.windows session) as [windows|].
  - destruct (forallb hasTabList windows); [exact Hv |].
    destruct Hv as [Hh [m' Hm']]. rewrite Hm' in *.
    vm_compute in Hh. injection Hh as Hm. rewrite <- Hm. reflexivity.
  - destruct Hv as [Hh [m' Hm']]. rewrite Hm' in *.
    vm_compute in Hh. injection Hh as Hm. rewrite <- Hm. reflexivity.
Qed.

Lemma restore_of_a_session_without_tabs_witness :
  let r := run idleBrowser (restoreSession (fun _ => None) enoughRounds "7") groupsOnlyWorld in
  (exists group groups, Session.groups groupsOnly = Some (group :: groups)) /\
  calls r = [Store GetSessions] /\
  store (world r) = store groupsOnlyWorld /\
  value r = match Session.windows groupsOnly with
            | Some windows =>
                if forallb hasTabList windows then Done (Some tt) else Threw FailedToRestore
            | None => Threw FailedToRestore
            end.
Proof.
  apply (@restore_of_a_session_without_tabs Z idleBrowser (fun _ => None) enoughRounds
           groupsOnlyWorld "7" [groupsOnly] groupsOnly).
  - vm_compute. reflexivity.
  - reflexivity.
  - reflexivity.
  - reflexivity.
Defined.

(** That restore reports success and has opened nothing. *)
Example restore_groups_only :
  value (run idleBrowser (restoreSession (fun _ => None) enoughRounds "7") groupsOnlyWorld)
  = Done (Some tt) /\
  calls (run idleBrowser (restoreSession (fun _ => None) enoughRounds "7") groupsOnlyWorld)
  = [Store GetSessions].
Proof. vm_compute. split; reflexivity. Qed.
